(** * prom-relabel-proxy: label rewriting engine and interception pipeline

  A shallow embedding of the Go sources

  - [internal/config/config.go]   ([LoadFromFile], [Validate], [GetRules]),
  - [internal/rewriter]           ([RewriteQuery], [RewriteQueryURL],
                                   [RewriteResultJSON], [processJSONData]),
  - [internal/proxy/proxy.go]     ([rewriteRequest], [rewriteResponse]),

  followed by the properties of the design document that were checked
  against it, and by further properties of the code: validation and
  loading of the configuration, the query rewriter group by group and
  matcher by matcher, the parameter loops, the paths of the request and
  response hooks, relabelling of label sets and result trees, and
  rewrites that run at the same time.

  Conventions.  A Go [string] and a Go [[]byte] are both byte sequences
  and are modelled by [string] (a list of 8-bit [ascii] characters).  A Go
  [map[string]T] is a [gmap string T].  Go [int] and [int64] values are
  modelled by [Z]; the only integers that occur are lengths of in-memory
  byte slices and indices into slices, which never wrap.  Calls to [log.Printf] and [debugLog]
  only write to the process log and are left out. *)

From Stdlib Require Import ZArith String Ascii List DecimalString Decimal.
From stdpp Require Import gmap strings list fin_maps sorting.

Set Warnings "-register-all".
Local Open Scope string_scope.

(** ** The parts of Go's [strings] and [strconv] packages that the proxy calls *)

Module GoStrings.

(** [strings.HasPrefix(s, prefix)]. *)
Fixpoint HasPrefix (s pre : string) {struct pre} : bool :=
  match pre with
  | EmptyString => true
  | String a pre' =>
      match s with
      | EmptyString => false
      | String b s' => Ascii.eqb a b && HasPrefix s' pre'
      end
  end.

(** Position of the first occurrence of [substr] in [s], if any. *)
Fixpoint indexOf (s substr : string) : option nat :=
  if HasPrefix s substr then Some 0%nat
  else match s with
       | EmptyString => None
       | String _ s' => S <$> indexOf s' substr
       end.

(** [strings.Index(s, substr)]: the byte offset of the first occurrence,
    or [-1]. *)
Definition Index (s substr : string) : Z :=
  match indexOf s substr with
  | Some n => Z.of_nat n
  | None => (-1)%Z
  end.

(** [strings.Contains(s, substr)] is [Index(s, substr) >= 0]. *)
Definition Contains (s substr : string) : bool := (0 <=? Index s substr)%Z.

(** [len(s)]. *)
Definition len (s : string) : Z := Z.of_nat (String.length s).

(** The slice expression [s[lo:]]. *)
Fixpoint dropBytes (n : nat) (s : string) : string :=
  match n, s with
  | O, _ => s
  | S n', String _ s' => dropBytes n' s'
  | S _, EmptyString => EmptyString
  end.

Definition sliceFrom (s : string) (lo : Z) : string := dropBytes (Z.to_nat lo) s.

(** The slice expression [s[lo:hi]]. *)
Definition slice (s : string) (lo hi : Z) : string :=
  String.substring (Z.to_nat lo) (Z.to_nat (hi - lo)) s.

(** [strings.Split(s, sep)] for a separator of one byte: the pieces of [s]
    between separators; a string without one yields the list [[s]]. *)
Fixpoint Split (s : string) (sep : ascii) : list string :=
  match s with
  | EmptyString => [EmptyString]
  | String c s' =>
      if Ascii.eqb c sep then EmptyString :: Split s' sep
      else match Split s' sep with
           | h :: t => String c h :: t
           | [] => [String c EmptyString]
           end
  end.

(** [strings.Cut(s, sep)] for a separator of one byte: the text before
    and after its first occurrence; all of [s] and nothing without it. *)
Fixpoint Cut (s : string) (sep : ascii) : string * string :=
  match s with
  | EmptyString => (EmptyString, EmptyString)
  | String c s' =>
      if Ascii.eqb c sep then (EmptyString, s')
      else let '(before, after) := Cut s' sep in (String c before, after)
  end.

(** [strings.Join(parts, sep)]. *)
Fixpoint Join (parts : list string) (sep : string) : string :=
  match parts with
  | [] => EmptyString
  | [p] => p
  | p :: rest => p +:+ sep +:+ Join rest sep
  end.

Definition rev (s : string) : string :=
  string_of_list_ascii (List.rev (list_ascii_of_string s)).

(** The UTF-8 encodings of the code points for which [unicode.IsSpace]
    holds: the six ASCII ones, U+0085, U+00A0, U+1680, U+2000..U+200A,
    U+2028, U+2029, U+202F, U+205F and U+3000. *)
Definition isSpace1 (c : ascii) : bool :=
  let n := nat_of_ascii c in
  ((9 <=? n) && (n <=? 13) || (n =? 32))%nat.

Definition isSpace2 (c1 c2 : ascii) : bool :=
  let a := nat_of_ascii c1 in
  let b := nat_of_ascii c2 in
  ((a =? 194) && ((b =? 133) || (b =? 160)))%nat.

Definition isSpace3 (c1 c2 c3 : ascii) : bool :=
  let a := nat_of_ascii c1 in
  let b := nat_of_ascii c2 in
  let c := nat_of_ascii c3 in
  ((a =? 225) && (b =? 154) && (c =? 128)
   || (a =? 226) && (b =? 128)
        && ((128 <=? c) && (c <=? 138) || (c =? 168) || (c =? 169) || (c =? 175))
   || (a =? 226) && (b =? 129) && (c =? 159)
   || (a =? 227) && (b =? 128) && (c =? 128))%nat.

(** [strings.TrimLeftFunc(s, unicode.IsSpace)]. *)
Fixpoint trimLeft (s : string) : string :=
  match s with
  | String c1 s1 =>
      if isSpace1 c1 then trimLeft s1
      else match s1 with
           | String c2 s2 =>
               if isSpace2 c1 c2 then trimLeft s2
               else match s2 with
                    | String c3 s3 =>
                        if isSpace3 c1 c2 c3 then trimLeft s3 else s
                    | EmptyString => s
                    end
           | EmptyString => s
           end
  | EmptyString => s
  end.

(** [strings.TrimRightFunc(s, unicode.IsSpace)], on the reversed string;
    the bytes of a multi-byte space arrive last byte first. *)
Fixpoint trimLeftRev (s : string) : string :=
  match s with
  | String c1 s1 =>
      if isSpace1 c1 then trimLeftRev s1
      else match s1 with
           | String c2 s2 =>
               if isSpace2 c2 c1 then trimLeftRev s2
               else match s2 with
                    | String c3 s3 =>
                        if isSpace3 c3 c2 c1 then trimLeftRev s3 else s
                    | EmptyString => s
                    end
           | EmptyString => s
           end
  | EmptyString => s
  end.

(** [strings.TrimSpace(s)]: [s] without leading and trailing white space,
    as defined by Unicode. *)
Definition TrimSpace (s : string) : string :=
  rev (trimLeftRev (rev (trimLeft s))).

(** [strconv.Itoa(n)]: the decimal representation of [n]. *)
Definition Itoa (n : Z) : string := NilZero.string_of_int (Z.to_int n).

End GoStrings.

(** A double quote character, and a string between double quotes. *)
Definition dq : string := String "034"%char EmptyString.
Definition quoted (s : string) : string := dq +:+ s +:+ dq.

(** ** internal/config/config.go *)

Module Config.
Import GoStrings.

(** [type Direction string] with its three constants. *)
Definition Direction := string.
Definition DirectionQuery : Direction := "query".
Definition DirectionResult : Direction := "result".
Definition DirectionBoth : Direction := "both".

Record Rule := { SourceLabel : string; TargetLabel : string }.

Record Mapping := { MDirection : Direction; Rules : list Rule }.

(** The [mu sync.RWMutex] field carries no data; it is modelled with the
    lock events of [GetRules] in the concurrency part below. *)
Record Config := { TargetPrometheus : string; Mappings : list Mapping }.

(** [len(mapping.Rules)]. *)
Definition len_rules (rules : list Rule) : Z := Z.of_nat (length rules).

(** [Validate]: [None] when the configuration is accepted, otherwise the
    message of the error as [fmt.Errorf] formats it.  [invalidDirection]
    is the first test of the loop body; [validateRules] is the inner loop
    over the rules of mapping [i], from rule [j] on; [validateMappings] is
    the outer loop, from mapping [i] on. *)
Definition invalidDirection (d : Direction) : bool :=
  negb (String.eqb d DirectionQuery)
  && negb (String.eqb d DirectionResult)
  && negb (String.eqb d DirectionBoth).

Fixpoint validateRules (i j : Z) (rules : list Rule) : option string :=
  match rules with
  | [] => None
  | rule :: rest =>
      if String.eqb (SourceLabel rule) EmptyString then
        Some ("source_label is required in mapping " +:+ Itoa i +:+ ", rule " +:+ Itoa j)
      else if String.eqb (TargetLabel rule) EmptyString then
        Some ("target_label is required in mapping " +:+ Itoa i +:+ ", rule " +:+ Itoa j)
      else validateRules i (j + 1) rest
  end.

Fixpoint validateMappings (i : Z) (ms : list Mapping) : option string :=
  match ms with
  | [] => None
  | mapping :: rest =>
      if invalidDirection (MDirection mapping) then
        Some ("invalid direction in mapping " +:+ Itoa i +:+ ": " +:+ MDirection mapping)
      else if (len_rules (Rules mapping) =? 0)%Z then
        Some ("no rules defined in mapping " +:+ Itoa i)
      else match validateRules i 0 (Rules mapping) with
           | Some e => Some e
           | None => validateMappings (i + 1) rest
           end
  end.

Definition Validate (c : Config) : option string :=
  if String.eqb (TargetPrometheus c) EmptyString then Some "target_prometheus is required"
  else validateMappings 0 (Mappings c).

(** What [Validate] asks of a rule and of a mapping. *)
Definition validRule (rule : Rule) : Prop :=
  SourceLabel rule <> EmptyString /\ TargetLabel rule <> EmptyString.

Definition validMapping (m : Mapping) : Prop :=
  (MDirection m = DirectionQuery \/ MDirection m = DirectionResult
   \/ MDirection m = DirectionBoth)
  /\ Rules m <> [] /\ Forall validRule (Rules m).

(** [ioutil.ReadFile] and [yaml.Unmarshal] are libraries: each returns
    its result or the message of its error. *)
Class ConfigSource := {
  ReadFile : string -> string + string;
  YamlUnmarshal : string -> Config + string
}.

(** [LoadFromFile]: the configuration that was read, parsed and
    validated, or the message of the first error; the two library errors
    are wrapped. *)
Definition LoadFromFile `{ConfigSource} (path : string) : Config + string :=
  match ReadFile path with
  | inr err => inr ("failed to read config file: " +:+ err)
  | inl data =>
      match YamlUnmarshal data with
      | inr err => inr ("failed to parse config file: " +:+ err)
      | inl cfg =>
          match Validate cfg with
          | Some err => inr err
          | None => inl cfg
          end
      end
  end.

(** [GetRules]: the loop appends, in mapping order, the rules of every
    mapping whose direction is the requested one or [both]. *)
Definition GetRules (c : Config) (direction : Direction) : list Rule :=
  fold_left
    (fun rules mapping =>
       if String.eqb (MDirection mapping) direction
          || String.eqb (MDirection mapping) DirectionBoth
       then (rules ++ Rules mapping)%list
       else rules)
    (Mappings c) [].

Definition GetQueryRules (c : Config) : list Rule := GetRules c DirectionQuery.
Definition GetResultRules (c : Config) : list Rule := GetRules c DirectionResult.
Definition GetTargetPrometheus (c : Config) : string := TargetPrometheus c.

End Config.

(** ** internal/rewriter: query rewriting *)

Module Rewriter.
Import GoStrings Config.

Record Rewriter := { queryRules : list Rule; resultRules : list Rule }.

Definition New (cfg : Config) : Rewriter :=
  {| queryRules := GetQueryRules cfg; resultRules := GetResultRules cfg |}.


(** The condition of the [if] in the inner loop of [RewriteQuery]. *)
Definition matchesRule (rule : Rule) (part : string) : bool :=
  HasPrefix (TrimSpace part) (SourceLabel rule +:+ "=")
  || HasPrefix (TrimSpace part) (SourceLabel rule +:+ "=~")
  || HasPrefix (TrimSpace part) (SourceLabel rule +:+ "!=")
  || HasPrefix (TrimSpace part) (SourceLabel rule +:+ "!~").

(** The operator chosen inside that [if]. *)
Definition detectOperator (part : string) : string :=
  if Contains part "=~" then "=~"
  else if Contains part "!=" then "!="
  else if Contains part "!~" then "!~"
  else "=".

(** The body of the [if]: the new value of [parts[i]]. *)
Definition replacePart (rule : Rule) (part : string) : string :=
  let operator := detectOperator part in
  let valueStart := (Index part operator + len operator)%Z in
  let value := sliceFrom part valueStart in
  TargetLabel rule +:+ operator +:+ value.

(** The inner loop [for _, rule := range r.queryRules] for one [part]:
    the first rule whose condition holds rewrites the part and the
    [break] leaves the loop; a part that no rule matches is kept. *)
Fixpoint rewritePart (rules : list Rule) (part : string) : string :=
  match rules with
  | [] => part
  | rule :: rest =>
      if matchesRule rule part then replacePart rule part
      else rewritePart rest part
  end.

(** The function passed to [ReplaceAllStringFunc]; [m] is one match of
    the pattern, braces included. *)
Definition rewriteGroup (rules : list Rule) (m : string) : string :=
  let inner := slice m 1 (len m - 1) in
  let parts := Split inner ","%char in
  "{" +:+ Join (map (rewritePart rules) parts) "," +:+ "}".

(** [labelPattern.ReplaceAllStringFunc(query, f)], where [labelPattern]
    is an escaped opening brace, the capture group of the starred class
    [^{}], and an escaped closing brace.  A match is an opening brace, a
    run of bytes that are not braces, and a closing brace; matches are
    found leftmost first and do not overlap.  The scan keeps in [pending] the bytes
    read since the last opening brace that may still start a match:
    a closing brace completes the match, another opening brace or the
    end of the input shows that the pending text is outside any match. *)
Fixpoint scanGroups (f : string -> string) (pending : option string) (s : string)
  : string :=
  match s with
  | EmptyString =>
      match pending with
      | None => EmptyString
      | Some inner => "{" +:+ inner
      end
  | String c s' =>
      match pending with
      | None =>
          if Ascii.eqb c "{"%char then scanGroups f (Some EmptyString) s'
          else String c (scanGroups f None s')
      | Some inner =>
          if Ascii.eqb c "}"%char then f ("{" +:+ inner +:+ "}") +:+ scanGroups f None s'
          else if Ascii.eqb c "{"%char then "{" +:+ inner +:+ scanGroups f (Some EmptyString) s'
          else scanGroups f (Some (inner +:+ String c EmptyString)) s'
      end
  end.

Definition ReplaceAllGroups (f : string -> string) (s : string) : string :=
  scanGroups f None s.

(** [RewriteQuery]. *)
Definition RewriteQuery (r : Rewriter) (query : string) : string :=
  match queryRules r with
  | [] => query
  | _ => ReplaceAllGroups (rewriteGroup (queryRules r)) query
  end.

(** *** URL query strings

    [net/url] is a library: [url.ParseQuery] and [Values.Encode] are an
    interface here.  [ParseQuery] returns the values it could parse and
    whether it met an error. *)
Class UrlCodec := {
  ParseQuery : string -> gmap string (list string) * bool;
  Encode : gmap string (list string) -> string
}.

(** The fields of [url.URL] that matter; [RawQuery] is the only one the
    rewriter touches. *)
Record URL := { Scheme : string; Host : string; Path : string; RawQuery : string }.

(** The loop over [query] and [match[]]: when the parameter exists, each of
    its values is replaced by its rewriting. *)
Definition rewriteParams (r : Rewriter) (query : gmap string (list string))
  : gmap string (list string) :=
  fold_left
    (fun q param =>
       match q !! param with
       | Some values => <[param := map (RewriteQuery r) values]> q
       | None => q
       end)
    ["query"; "match[]"] query.

(** [RewriteQueryURL]; [queryURL.Query()] is [ParseQuery] with the error
    dropped. *)
Definition RewriteQueryURL `{UrlCodec} (r : Rewriter) (queryURL : URL) : URL :=
  let query := fst (ParseQuery (RawQuery queryURL)) in
  let query := rewriteParams r query in
  {| Scheme := Scheme queryURL; Host := Host queryURL; Path := Path queryURL;
     RawQuery := Encode query |}.

(** *** JSON results

    The tree that [json.Unmarshal] builds behind an [interface{}]: [nil],
    [bool], [float64], [string], [[]interface{}] and
    [map[string]interface{}].  The rewriter never inspects a number, which
    is kept as the text of its literal. *)
Inductive JSON : Type :=
  | JNull
  | JBool (b : bool)
  | JNumber (lit : string)
  | JString (s : string)
  | JArray (items : list JSON)
  | JObject (fields : gmap string JSON).

(** [encoding/json] is a library: decoding a document into an
    [interface{}] and encoding a tree are an interface here. *)
Class JSONCodec := {
  json_decode : string -> option JSON;
  json_encode : JSON -> option string
}.

(** [json.Unmarshal(jsonData, &data)] for [var data map[string]interface{}]:
    a syntax error is an error; an object fills the map; [null] leaves the
    map nil without an error; any other value is an [UnmarshalTypeError].
    A nil map is ranged over and indexed as an empty one and is marshalled
    as [null]: it is represented by [JNull]. *)
Definition Unmarshal `{JSONCodec} (jsonData : string) : option JSON :=
  match json_decode jsonData with
  | Some (JObject m) => Some (JObject m)
  | Some JNull => Some JNull
  | Some _ => None
  | None => None
  end.

(** [json.Marshal(data)]. *)
Definition Marshal `{JSONCodec} (data : JSON) : option string := json_encode data.

(** One turn of the loop over [r.resultRules] on a label set. *)
Definition relabelStep (metric : gmap string JSON) (rule : Rule) : gmap string JSON :=
  match metric !! SourceLabel rule with
  | Some val => delete (SourceLabel rule) (<[TargetLabel rule := val]> metric)
  | None => metric
  end.

(** The loop [for _, rule := range r.resultRules] on the label set. *)
Definition relabel (rules : list Rule) (metric : gmap string JSON) : gmap string JSON :=
  fold_left relabelStep rules metric.

(** The first half of the object case: the label set under [metric], when
    it is an object, is rewritten in place. *)
Definition relabelMetric (rules : list Rule) (v : gmap string JSON) : gmap string JSON :=
  match v !! "metric" with
  | Some (JObject metric) => <["metric" := JObject (relabel rules metric)]> v
  | _ => v
  end.

(** [processJSONData] with a bound on the recursion depth.  The Go
    function updates the maps in place; a tree built by [json.Unmarshal]
    shares no node, so the update is the function that returns the new
    tree, and the order in which [range] visits the fields does not
    matter. *)
Fixpoint processJSONDataN (rules : list Rule) (fuel : nat) (data : JSON) : JSON :=
  match fuel with
  | O => data
  | S fuel' =>
      match data with
      | JObject v => JObject (processJSONDataN rules fuel' <$> relabelMetric rules v)
      | JArray v => JArray (processJSONDataN rules fuel' <$> v)
      | _ => data
      end
  end.

(** The nesting depth of a tree. *)
Fixpoint depth (v : JSON) : nat :=
  match v with
  | JArray l => S (max_list (depth <$> l))
  | JObject m => S (max_list ((map_to_list (depth <$> m)).*2))
  | _ => O
  end.

(** The values that end the recursion. *)
Definition isScalar (x : JSON) : bool :=
  match x with
  | JArray _ | JObject _ => false
  | _ => true
  end.

(** [processJSONData]: the recursion goes as deep as the tree. *)
Definition processJSONData (r : Rewriter) (data : JSON) : JSON :=
  processJSONDataN (resultRules r) (S (depth data)) data.

(** [RewriteResultJSON]. *)
Definition RewriteResultJSON `{JSONCodec} (r : Rewriter) (jsonData : string) : string :=
  match resultRules r with
  | [] => jsonData
  | _ =>
      match Unmarshal jsonData with
      | None => jsonData
      | Some data =>
          match Marshal (processJSONData r data) with
          | None => jsonData
          | Some result => result
          end
      end
  end.

End Rewriter.

(** ** internal/proxy/proxy.go *)

Module Proxy.
Import GoStrings Config Rewriter.

(** [http.Header], with the keys in canonical form as [net/http] stores
    them; the three keys the proxy uses are written canonically in the
    source. *)
Abbreviation Header := (gmap string (list string)).

Definition HeaderGet (h : Header) (key : string) : string :=
  match h !! key with
  | Some (v :: _) => v
  | _ => EmptyString
  end.

Definition HeaderSet (h : Header) (key value : string) : Header := <[key := [value]]> h.

Definition HeaderDel (h : Header) (key : string) : Header := delete key h.

(** A body: [nil], or a reader that still holds [content] and whose
    reading ends with an error when [broken]. *)
Inductive Body :=
  | NoBody
  | Reader (content : string) (broken : bool).

(** [ioutil.ReadAll]: the bytes read, unless the reader fails. *)
Definition ReadAll (b : Body) : option string :=
  match b with
  | Reader content false => Some content
  | _ => None
  end.

(** The reader once [ReadAll] has run: nothing is left in it. *)
Definition drained (b : Body) : Body :=
  match b with
  | Reader _ broken => Reader EmptyString broken
  | NoBody => NoBody
  end.

(** [ioutil.NopCloser(bytes.NewBuffer(b))]. *)
Definition bodyOf (b : string) : Body := Reader b false.

Record Request := {
  Method : string;
  ReqURL : URL;
  ReqHeader : Header;
  ReqBody : Body;
  ReqContentLength : Z
}.

Record Response := {
  RespHeader : Header;
  RespBody : Body;
  RespContentLength : Z
}.

(** [compress/gzip] is a library.  [gunzip] stands for [gzip.NewReader]
    followed by [ioutil.ReadAll]; [gzipWrite] for [gzip.NewWriter],
    [Write] and [Close] into a buffer, [None] when [Write] returns an
    error. *)
Class Gzip := {
  gunzip : string -> option string;
  gzipWrite : string -> option string
}.

Record PrometheusProxy := { rewriter : Rewriter; debug : bool }.

(** The loop over the form fields: [query] and [match[]] are rewritten. *)
Definition rewriteForm (p : PrometheusProxy) (form : gmap string (list string))
  : gmap string (list string) :=
  map_imap
    (fun param values =>
       Some (if String.eqb param "query" || String.eqb param "match[]"
             then map (RewriteQuery (rewriter p)) values
             else values))
    form.

(** [req.Body != nil]. *)
Definition hasBody (b : Body) : bool :=
  match b with
  | NoBody => false
  | Reader _ _ => true
  end.

(** [rewriteRequest].  The two early returns leave the body reader as
    [ReadAll] left it. *)
Definition rewriteRequest `{UrlCodec} (p : PrometheusProxy) (req : Request) : Request :=
  let url := RewriteQueryURL (rewriter p) (ReqURL req) in
  let req1 := {| Method := Method req; ReqURL := url; ReqHeader := ReqHeader req;
                 ReqBody := ReqBody req; ReqContentLength := ReqContentLength req |} in
  if String.eqb (Method req) "POST" && hasBody (ReqBody req) then
    let contentType := HeaderGet (ReqHeader req) "Content-Type" in
    if String.eqb contentType "application/x-www-form-urlencoded" then
      let req2 := {| Method := Method req; ReqURL := url; ReqHeader := ReqHeader req;
                     ReqBody := drained (ReqBody req);
                     ReqContentLength := ReqContentLength req |} in
      match ReadAll (ReqBody req) with
      | None => req2
      | Some body =>
          match ParseQuery body with
          | (_, true) => req2
          | (form, false) =>
              let newBody := Encode (rewriteForm p form) in
              {| Method := Method req; ReqURL := url;
                 ReqHeader := HeaderSet (ReqHeader req) "Content-Length" (Itoa (len newBody));
                 ReqBody := bodyOf newBody;
                 ReqContentLength := len newBody |}
          end
      end
    else req1
  else req1.

(** [rewriteResponse]: the response as the function leaves it, and whether
    it returns an error. *)
Definition rewriteResponse `{JSONCodec} `{Gzip} (p : PrometheusProxy) (resp : Response)
  : Response * bool :=
  let contentType := HeaderGet (RespHeader resp) "Content-Type" in
  if negb (Contains contentType "application/json") then (resp, false)
  else
    let contentEncoding := HeaderGet (RespHeader resp) "Content-Encoding" in
    match ReadAll (RespBody resp) with
    | None =>
        ({| RespHeader := RespHeader resp; RespBody := drained (RespBody resp);
            RespContentLength := RespContentLength resp |}, true)
    | Some body =>
        let decompressed :=
          if String.eqb contentEncoding "gzip" then gunzip body else Some body in
        match decompressed with
        | None =>
            ({| RespHeader := RespHeader resp; RespBody := bodyOf body;
                RespContentLength := RespContentLength resp |}, false)
        | Some decompressedBody =>
            let newBody := RewriteResultJSON (rewriter p) decompressedBody in
            let '(finalBody, header) :=
              if String.eqb contentEncoding "gzip" then
                match gzipWrite newBody with
                | None => (newBody, HeaderDel (RespHeader resp) "Content-Encoding")
                | Some compressed => (compressed, RespHeader resp)
                end
              else (newBody, RespHeader resp) in
            ({| RespHeader := HeaderSet header "Content-Length" (Itoa (len finalBody));
                RespBody := bodyOf finalBody;
                RespContentLength := len finalBody |}, false)
        end
    end.

(** The request as [rewriteRequest] leaves it when the body is not
    touched. *)
Definition urlOnly `{UrlCodec} (p : PrometheusProxy) (req : Request) : Request :=
  {| Method := Method req;
     ReqURL := RewriteQueryURL (rewriter p) (ReqURL req);
     ReqHeader := ReqHeader req;
     ReqBody := ReqBody req;
     ReqContentLength := ReqContentLength req |}.

(** The three tests that [rewriteResponse] makes on a response: the
    content type, the content encoding, and the bytes that the response
    is rebuilt from once the body is read and, for gzip, decompressed. *)
Definition isJSON (resp : Response) : bool :=
  Contains (HeaderGet (RespHeader resp) "Content-Type") "application/json".

Definition isGzip (resp : Response) : bool :=
  String.eqb (HeaderGet (RespHeader resp) "Content-Encoding") "gzip".

Definition plainBody `{Gzip} (resp : Response) (body : string) : option string :=
  if isGzip resp then gunzip body else Some body.

End Proxy.


(** ** Reference instances of the library interfaces

  The properties below hold for every instance.  The instances here
  follow the documented behaviour of the Go packages on the inputs of
  the examples, so that properties can be run on concrete traffic. *)

Module UrlRef.
Import GoStrings Rewriter.

Definition byteIn (lo hi : nat) (c : ascii) : bool :=
  ((lo <=? nat_of_ascii c) && (nat_of_ascii c <=? hi))%nat.

Definition hexValue (c : ascii) : option nat :=
  let n := nat_of_ascii c in
  if byteIn 48 57 c then Some (n - 48)%nat
  else if byteIn 97 102 c then Some (n - 87)%nat
  else if byteIn 65 70 c then Some (n - 55)%nat
  else None.

Definition upperHex (n : nat) : ascii :=
  if (n <? 10)%nat then ascii_of_nat (48 + n) else ascii_of_nat (55 + n).

(** [url.QueryUnescape]: percent escapes are decoded and a plus sign is a
    space; a percent sign not followed by two hex digits is an error. *)
Fixpoint QueryUnescape (s : string) : option string :=
  match s with
  | EmptyString => Some EmptyString
  | String c rest =>
      if Ascii.eqb c "%"%char then
        match rest with
        | String h1 (String h2 rest') =>
            match hexValue h1, hexValue h2, QueryUnescape rest' with
            | Some a, Some b, Some t => Some (String (ascii_of_nat (16 * a + b)) t)
            | _, _, _ => None
            end
        | _ => None
        end
      else
        match QueryUnescape rest with
        | Some t => Some (String (if Ascii.eqb c "+"%char then " "%char else c) t)
        | None => None
        end
  end.

(** The bytes that [url.QueryEscape] leaves alone: letters, digits and
    the four marks [-], [_], [.] and [~]. *)
Definition unreserved (c : ascii) : bool :=
  byteIn 48 57 c || byteIn 65 90 c || byteIn 97 122 c
  || Ascii.eqb c "-"%char || Ascii.eqb c "_"%char
  || Ascii.eqb c "."%char || Ascii.eqb c "~"%char.

(** [url.QueryEscape]. *)
Fixpoint QueryEscape (s : string) : string :=
  match s with
  | EmptyString => EmptyString
  | String c rest =>
      if unreserved c then String c (QueryEscape rest)
      else if Ascii.eqb c " "%char then String "+"%char (QueryEscape rest)
      else String "%"%char
             (String (upperHex (nat_of_ascii c / 16))
                (String (upperHex (nat_of_ascii c mod 16)) (QueryEscape rest)))
  end.

(** One turn of the loop of [url.ParseQuery] on the text between two
    ampersands. *)
Definition parsePair (st : gmap string (list string) * bool) (pair : string)
  : gmap string (list string) * bool :=
  let '(m, err) := st in
  if Contains pair ";" then (m, true)
  else if String.eqb pair EmptyString then (m, err)
  else
    let '(key, value) := Cut pair "="%char in
    match QueryUnescape key with
    | None => (m, true)
    | Some key =>
        match QueryUnescape value with
        | None => (m, true)
        | Some value => (<[key := (default [] (m !! key) ++ [value])%list]> m, err)
        end
    end.

Definition parseQuery (query : string) : gmap string (list string) * bool :=
  fold_left parsePair (Split query "&"%char) (∅, false).

Definition keyLe (a b : string) : Prop := Is_true (String.leb a b).

#[global] Instance keyLe_dec a b : Decision (keyLe a b).
Proof. unfold keyLe. apply _. Defined.

(** [Values.Encode]: the keys in byte order, each value as
    [key=value], joined by ampersands. *)
Definition encodeValues (v : gmap string (list string)) : string :=
  let keys := merge_sort keyLe (map fst (map_to_list v)) in
  Join
    (flat_map
       (fun k => map (fun x => QueryEscape k +:+ "=" +:+ QueryEscape x)
                     (default [] (v !! k)))
       keys)
    "&".

#[export] Instance codec : UrlCodec :=
  {| ParseQuery := parseQuery; Encode := encodeValues |}.

End UrlRef.

Module JsonRef.
Import GoStrings Rewriter UrlRef.

Definition isWS (c : ascii) : bool :=
  Ascii.eqb c " "%char || Ascii.eqb c "009"%char
  || Ascii.eqb c "010"%char || Ascii.eqb c "013"%char.

Fixpoint skipWS (s : string) : string :=
  match s with
  | String c rest => if isWS c then skipWS rest else s
  | EmptyString => s
  end.

(** *** Numbers: the states of the scanner of [encoding/json] on a
    number literal. *)
Inductive numState := NStart | NNeg | NZero | NInt | NDot | NFrac | NE | NESign | NExp.

Definition isDigit (c : ascii) : bool := byteIn 48 57 c.
Definition isExpMark (c : ascii) : bool := Ascii.eqb c "e"%char || Ascii.eqb c "E"%char.

Definition numStep (st : numState) (c : ascii) : option numState :=
  match st with
  | NStart =>
      if Ascii.eqb c "-"%char then Some NNeg
      else if Ascii.eqb c "0"%char then Some NZero
      else if isDigit c then Some NInt else None
  | NNeg =>
      if Ascii.eqb c "0"%char then Some NZero
      else if isDigit c then Some NInt else None
  | NZero =>
      if Ascii.eqb c "."%char then Some NDot
      else if isExpMark c then Some NE else None
  | NInt =>
      if isDigit c then Some NInt
      else if Ascii.eqb c "."%char then Some NDot
      else if isExpMark c then Some NE else None
  | NDot => if isDigit c then Some NFrac else None
  | NFrac =>
      if isDigit c then Some NFrac
      else if isExpMark c then Some NE else None
  | NE =>
      if Ascii.eqb c "+"%char || Ascii.eqb c "-"%char then Some NESign
      else if isDigit c then Some NExp else None
  | NESign => if isDigit c then Some NExp else None
  | NExp => if isDigit c then Some NExp else None
  end.

Definition numAccept (st : numState) : bool :=
  match st with
  | NZero | NInt | NFrac | NExp => true
  | _ => false
  end.

(** The longest number literal at the head of [s], and what follows. *)
Fixpoint scanNumber (st : numState) (s : string) : option (string * string) :=
  match s with
  | String c rest =>
      match numStep st c with
      | Some st' =>
          match scanNumber st' rest with
          | Some (lit, rest') => Some (String c lit, rest')
          | None => None
          end
      | None => if numAccept st then Some (EmptyString, s) else None
      end
  | EmptyString => if numAccept st then Some (EmptyString, s) else None
  end.

Definition validNumber (lit : string) : bool :=
  match scanNumber NStart lit with
  | Some (_, EmptyString) => true
  | _ => false
  end.

(** *** Strings *)

Definition simpleEscape (e : ascii) : option ascii :=
  if Ascii.eqb e "034"%char then Some "034"%char
  else if Ascii.eqb e "\"%char then Some "\"%char
  else if Ascii.eqb e "/"%char then Some "/"%char
  else if Ascii.eqb e "b"%char then Some "008"%char
  else if Ascii.eqb e "f"%char then Some "012"%char
  else if Ascii.eqb e "n"%char then Some "010"%char
  else if Ascii.eqb e "r"%char then Some "013"%char
  else if Ascii.eqb e "t"%char then Some "009"%char
  else None.

(** The code point written as four hex digits. *)
Definition hex4 (h1 h2 h3 h4 : ascii) : option N :=
  match hexValue h1, hexValue h2, hexValue h3, hexValue h4 with
  | Some a, Some b, Some c, Some d =>
      Some (((N.of_nat a * 16 + N.of_nat b) * 16 + N.of_nat c) * 16 + N.of_nat d)%N
  | _, _, _, _ => None
  end.

Definition bytes (l : list N) : string := string_of_list_ascii (map ascii_of_N l).

(** [utf8.EncodeRune]. *)
Definition utf8Encode (r : N) : string :=
  if (r <? 128)%N then bytes [r]
  else if (r <? 2048)%N then bytes [192 + r / 64; 128 + r mod 64]%N
  else if (r <? 65536)%N then
    bytes [224 + r / 4096; 128 + (r / 64) mod 64; 128 + r mod 64]%N
  else bytes [240 + r / 262144; 128 + (r / 4096) mod 64;
              128 + (r / 64) mod 64; 128 + r mod 64]%N.

Definition replacementChar : N := 65533%N.
Definition isSurrogate (r : N) : bool := ((55296 <=? r) && (r <? 57344))%N.
Definition isHighSurrogate (r : N) : bool := ((55296 <=? r) && (r <? 56320))%N.
Definition isLowSurrogate (r : N) : bool := ((56320 <=? r) && (r <? 57344))%N.

(** The body of a string literal after its opening quote: the decoded
    bytes and what follows the closing quote.  Bytes above 127 are
    copied; [encoding/json] also replaces ill-formed UTF-8 by U+FFFD. *)
Fixpoint readString (s acc : string) : option (string * string) :=
  match s with
  | EmptyString => None
  | String c rest =>
      if Ascii.eqb c "034"%char then Some (acc, rest)
      else if Ascii.eqb c "\"%char then
        match rest with
        | String e rest1 =>
            if Ascii.eqb e "u"%char then
              match rest1 with
              | String h1 (String h2 (String h3 (String h4 rest2))) =>
                  match hex4 h1 h2 h3 h4 with
                  | None => None
                  | Some rr =>
                      if isSurrogate rr then
                        match rest2 with
                        | String b (String u (String g1 (String g2 (String g3 (String g4 rest3))))) =>
                            match (if Ascii.eqb b "\"%char && Ascii.eqb u "u"%char
                                   then hex4 g1 g2 g3 g4 else None) with
                            | Some rr1 =>
                                if isHighSurrogate rr && isLowSurrogate rr1 then
                                  readString rest3
                                    (acc +:+ utf8Encode
                                       ((rr - 55296) * 1024 + (rr1 - 56320) + 65536)%N)
                                else readString rest2 (acc +:+ utf8Encode replacementChar)
                            | None => readString rest2 (acc +:+ utf8Encode replacementChar)
                            end
                        | _ => readString rest2 (acc +:+ utf8Encode replacementChar)
                        end
                      else readString rest2 (acc +:+ utf8Encode rr)
                  end
              | _ => None
              end
            else
              match simpleEscape e with
              | Some b => readString rest1 (acc +:+ String b EmptyString)
              | None => None
              end
        | EmptyString => None
        end
      else if (nat_of_ascii c <? 32)%nat then None
      else readString rest (acc +:+ String c EmptyString)
  end.

Definition lowerHex (n : nat) : ascii :=
  if (n <? 10)%nat then ascii_of_nat (48 + n) else ascii_of_nat (87 + n).

(** What [json.Marshal] writes for one byte of a string: a backslash
    before a quote or a backslash, the short escapes, [\u00XX] for the
    other control bytes and for [<], [>] and [&], the byte itself
    otherwise.  Bytes above 127 are copied; [encoding/json] also escapes
    ill-formed UTF-8, U+2028 and U+2029. *)
Definition escapeByte (c : ascii) : string :=
  if Ascii.eqb c "034"%char || Ascii.eqb c "\"%char then String "\"%char (String c EmptyString)
  else if Ascii.eqb c "008"%char then "\b"
  else if Ascii.eqb c "012"%char then "\f"
  else if Ascii.eqb c "010"%char then "\n"
  else if Ascii.eqb c "013"%char then "\r"
  else if Ascii.eqb c "009"%char then "\t"
  else if (nat_of_ascii c <? 32)%nat
          || Ascii.eqb c "<"%char || Ascii.eqb c ">"%char || Ascii.eqb c "&"%char
  then "\u00" +:+ String (lowerHex (nat_of_ascii c / 16))
                    (String (lowerHex (nat_of_ascii c mod 16)) EmptyString)
  else String c EmptyString.

Fixpoint escapeBytes (s : string) : string :=
  match s with
  | EmptyString => EmptyString
  | String c rest => escapeByte c +:+ escapeBytes rest
  end.

Definition encodeString (s : string) : string := dq +:+ escapeBytes s +:+ dq.

(** *** Values *)

Fixpoint allSome {A} (l : list (option A)) : option (list A) :=
  match l with
  | [] => Some []
  | Some x :: rest =>
      match allSome rest with
      | Some xs => Some (x :: xs)
      | None => None
      end
  | None :: _ => None
  end.

Definition memberLe (a b : string * option string) : Prop := keyLe (fst a) (fst b).

#[global] Instance memberLe_dec a b : Decision (memberLe a b).
Proof. unfold memberLe. apply _. Defined.

Definition encodeMember (kv : string * option string) : option string :=
  match snd kv with
  | Some o => Some (encodeString (fst kv) +:+ ":" +:+ o)
  | None => None
  end.

(** [json.Marshal] on a tree: compact, the fields of an object in the
    byte order of their keys.  A number that is not a literal stands for
    a [float64] without one (NaN, an infinity): an error. *)
Fixpoint encode (v : JSON) : option string :=
  match v with
  | JNull => Some "null"
  | JBool true => Some "true"
  | JBool false => Some "false"
  | JNumber lit => if validNumber lit then Some lit else None
  | JString s => Some (encodeString s)
  | JArray l =>
      match allSome (encode <$> l) with
      | Some items => Some ("[" +:+ Join items "," +:+ "]")
      | None => None
      end
  | JObject m =>
      match allSome (encodeMember <$> merge_sort memberLe (map_to_list (encode <$> m))) with
      | Some members => Some ("{" +:+ Join members "," +:+ "}")
      | None => None
      end
  end.

(** The decoder of [json.Unmarshal] into an [interface{}]: one value at
    the head of [s] and what follows it.  [fuel] bounds the number of
    values and members read.  In an object a later duplicate of a key
    replaces the earlier one. *)
Fixpoint parseValue (fuel : nat) (s : string) : option (JSON * string) :=
  match fuel with
  | O => None
  | S fuel =>
      match skipWS s with
      | EmptyString => None
      | String c rest =>
          if Ascii.eqb c "{"%char then
            match skipWS rest with
            | String c' rest' =>
                if Ascii.eqb c' "}"%char then Some (JObject ∅, rest')
                else parseMembers fuel ∅ rest
            | EmptyString => None
            end
          else if Ascii.eqb c "["%char then
            match skipWS rest with
            | String c' rest' =>
                if Ascii.eqb c' "]"%char then Some (JArray [], rest')
                else parseElements fuel [] rest
            | EmptyString => None
            end
          else if Ascii.eqb c "034"%char then
            match readString rest EmptyString with
            | Some (str, rest') => Some (JString str, rest')
            | None => None
            end
          else if HasPrefix (String c rest) "null" then Some (JNull, dropBytes 4 (String c rest))
          else if HasPrefix (String c rest) "true" then Some (JBool true, dropBytes 4 (String c rest))
          else if HasPrefix (String c rest) "false" then Some (JBool false, dropBytes 5 (String c rest))
          else
            match scanNumber NStart (String c rest) with
            | Some (lit, rest') => Some (JNumber lit, rest')
            | None => None
            end
      end
  end
with parseElements (fuel : nat) (acc : list JSON) (s : string) : option (JSON * string) :=
  match fuel with
  | O => None
  | S fuel =>
      match parseValue fuel s with
      | None => None
      | Some (v, rest) =>
          match skipWS rest with
          | String c rest' =>
              if Ascii.eqb c ","%char then parseElements fuel (acc ++ [v])%list rest'
              else if Ascii.eqb c "]"%char then Some (JArray (acc ++ [v])%list, rest')
              else None
          | EmptyString => None
          end
      end
  end
with parseMembers (fuel : nat) (acc : gmap string JSON) (s : string) : option (JSON * string) :=
  match fuel with
  | O => None
  | S fuel =>
      match skipWS s with
      | String q rest =>
          if Ascii.eqb q "034"%char then
            match readString rest EmptyString with
            | None => None
            | Some (key, rest1) =>
                match skipWS rest1 with
                | String c rest2 =>
                    if Ascii.eqb c ":"%char then
                      match parseValue fuel rest2 with
                      | None => None
                      | Some (v, rest3) =>
                          match skipWS rest3 with
                          | String d rest4 =>
                              if Ascii.eqb d ","%char then parseMembers fuel (<[key := v]> acc) rest4
                              else if Ascii.eqb d "}"%char then Some (JObject (<[key := v]> acc), rest4)
                              else None
                          | EmptyString => None
                          end
                      end
                    else None
                | EmptyString => None
                end
            end
          else None
      | EmptyString => None
      end
  end.

(** The bytes that can follow a value inside an array or an object. *)
Definition isDelimiter (c : ascii) : bool :=
  Ascii.eqb c ","%char || Ascii.eqb c "]"%char || Ascii.eqb c "}"%char.

Definition delimited (rest : string) : Prop :=
  match rest with
  | EmptyString => True
  | String c _ => isDelimiter c = true
  end.

(** The bytes that can start the text of a value. *)
Definition valueStart (c : ascii) : bool :=
  Ascii.eqb c "n"%char || Ascii.eqb c "t"%char || Ascii.eqb c "f"%char
  || Ascii.eqb c "034"%char || Ascii.eqb c "["%char || Ascii.eqb c "{"%char
  || Ascii.eqb c "-"%char || isDigit c.

(** The text [item] is read as one value whatever delimiter follows it,
    with any fuel that is at least its length. *)
Definition parses (item : string) : Prop :=
  forall fuel rest,
    String.length item <= fuel -> delimited rest ->
    exists v, parseValue fuel (item +:+ rest) = Some (v, rest).

(** The text [member] is a quoted key, a colon and a value that is read. *)
Definition memberParses (member : string) : Prop :=
  exists key o, member = encodeString key +:+ ":" +:+ o /\ parses o.

(** A document is one value between optional white space. *)
Definition decode (s : string) : option JSON :=
  match parseValue (S (String.length s)) s with
  | Some (v, rest) =>
      match skipWS rest with
      | EmptyString => Some v
      | _ => None
      end
  | None => None
  end.

#[export] Instance codec : JSONCodec :=
  {| json_decode := decode; json_encode := encode |}.

End JsonRef.

Module QueryTests.
Import Config Rewriter.

(** The rewriter of [TestRewriteQuery] in rewriter_test.go. *)
Definition testConfig : Config :=
  {| TargetPrometheus := "http://localhost:9090";
     Mappings :=
       [ {| MDirection := DirectionQuery;
            Rules := [ {| SourceLabel := "instance"; TargetLabel := "host" |};
                       {| SourceLabel := "job"; TargetLabel := "service" |} ] |} ] |}.

Definition rw : Rewriter := New testConfig.

(** The URL of a case of [TestRewriteQueryURL]. *)
Definition testURL (path raw : string) : URL :=
  {| Scheme := "http"; Host := "localhost:8080"; Path := path; RawQuery := raw |}.

(** A table with two rules for [instance], after one for [job]. *)
Definition ruleJob : Rule := {| SourceLabel := "job"; TargetLabel := "service" |}.
Definition ruleHost : Rule := {| SourceLabel := "instance"; TargetLabel := "host" |}.

End QueryTests.

Module ResultTests.
Import Config Rewriter.

(** The rewriter of [TestRewriteResultJSON] in rewriter_test.go. *)
Definition testConfig : Config :=
  {| TargetPrometheus := "http://localhost:9090";
     Mappings :=
       [ {| MDirection := DirectionResult;
            Rules := [ {| SourceLabel := "instance"; TargetLabel := "host" |};
                       {| SourceLabel := "job"; TargetLabel := "service" |} ] |} ] |}.

Definition rw : Rewriter := New testConfig.

(** A rewriter whose only result rule maps [instance] to itself. *)
Definition sameLabelConfig : Config :=
  {| TargetPrometheus := "http://localhost:9090";
     Mappings :=
       [ {| MDirection := DirectionResult;
            Rules := [ {| SourceLabel := "instance"; TargetLabel := "instance" |} ] |} ] |}.

Definition rwSame : Rewriter := New sameLabelConfig.

(** The document with one label set, [label] bound to the string [x],
    as a tree and as text. *)
Definition metricTree (label x : string) : JSON :=
  JObject {[ "metric" := JObject {[ label := JString x ]} ]}.

Definition metricDoc (label x : string) : string :=
  "{" +:+ quoted "metric" +:+ ":{" +:+ quoted label +:+ ":" +:+ quoted x +:+ "}}".

(** The instant vector of the case [Prometheus API response]. *)
Definition apiResponse : string :=
  "{" +:+ quoted "status" +:+ ":" +:+ quoted "success" +:+ ","
  +:+ quoted "data" +:+ ":{" +:+ quoted "resultType" +:+ ":" +:+ quoted "vector" +:+ ","
  +:+ quoted "result" +:+ ":[{" +:+ quoted "metric" +:+ ":{"
  +:+ quoted "__name__" +:+ ":" +:+ quoted "up" +:+ ","
  +:+ quoted "instance" +:+ ":" +:+ quoted "localhost:9090" +:+ ","
  +:+ quoted "job" +:+ ":" +:+ quoted "prometheus" +:+ "},"
  +:+ quoted "value" +:+ ":[1677758935," +:+ quoted "1" +:+ "]}]}}".

(** A metric object with no label left, as a tree and as a document. *)
Definition emptyMetricTree : JSON := JObject {[ "metric" := JObject ∅ ]}.
Definition emptyMetricDoc : string := "{" +:+ quoted "metric" +:+ ":{}}".

End ResultTests.


Module PipelineTests.
Import GoStrings Config Rewriter Proxy.

(** A proxy whose one rule, from [instance] to [host], applies in both
    directions. *)
Definition bothConfig : Config :=
  {| TargetPrometheus := "http://localhost:9090";
     Mappings :=
       [ {| MDirection := DirectionBoth;
            Rules := [ {| SourceLabel := "instance"; TargetLabel := "host" |} ] |} ] |}.

Definition proxy : PrometheusProxy := {| rewriter := New bothConfig; debug := false |}.

(** A stand-in for [compress/gzip] that frames instead of compressing: a
    stream is the two magic bytes of gzip followed by the data.  Like
    [gzip.NewReader] it rejects a stream that does not start with the
    magic bytes; [writeFails] makes every [Write] return an error. *)
Definition gzipMagic : string := JsonRef.bytes [31%N; 139%N].

Definition framedGzip (writeFails : bool) : Gzip :=
  {| gunzip := fun b => if HasPrefix b gzipMagic then Some (dropBytes 2 b) else None;
     gzipWrite := fun b => if writeFails then None else Some (gzipMagic +:+ b) |}.

Definition jsonGzipHeader : Header :=
  {[ "Content-Type" := ["application/json"]; "Content-Encoding" := ["gzip"] ]}.

(** A chunked response (no [Content-Length], length unknown) that
    declares gzip and whose body is not a gzip stream. *)
Definition corruptGzipResponse : Response :=
  {| RespHeader := jsonGzipHeader; RespBody := Reader "abc" false;
     RespContentLength := (-1)%Z |}.

(** A chunked gzip response that carries a label set. *)
Definition gzipResponse : Response :=
  {| RespHeader := jsonGzipHeader;
     RespBody := Reader (gzipMagic +:+ ResultTests.metricDoc "instance" "x") false;
     RespContentLength := (-1)%Z |}.

Definition formType : string := "application/x-www-form-urlencoded".

(** The selector [up] with the matcher of [label] on the quoted value [a],
    percent-encoded as the value of the form field or URL parameter
    [query]. *)
Definition queryParam (label : string) : string :=
  "query=up%7B" +:+ label +:+ "%3D%22a%22%7D".

Definition request (method contentType : string) : Request :=
  {| Method := method;
     ReqURL := {| Scheme := "http"; Host := "localhost:9090"; Path := "/api/v1/query";
                  RawQuery := queryParam "instance" |};
     ReqHeader := {[ "Content-Type" := [contentType] ]};
     ReqBody := Reader (queryParam "instance") false;
     ReqContentLength := len (queryParam "instance") |}.

End PipelineTests.

(** ** The restricted matcher syntax

    The shapes of text on which the query rewriter is exact: label names
    made of letters, digits and underscores, and values and surrounding
    text free of the bytes that the rewriter gives a meaning to. *)

Module QuerySyntax.
Import GoStrings.

Fixpoint allBytes (ok : ascii -> bool) (s : string) : bool :=
  match s with
  | EmptyString => true
  | String c rest => ok c && allBytes ok rest
  end.

Definition isBrace (c : ascii) : bool := Ascii.eqb c "{"%char || Ascii.eqb c "}"%char.

Definition isOperatorByte (c : ascii) : bool :=
  Ascii.eqb c "="%char || Ascii.eqb c "!"%char || Ascii.eqb c "~"%char.

Definition isLabelByte (c : ascii) : bool :=
  let n := nat_of_ascii c in
  ((48 <=? n) && (n <=? 57) || (65 <=? n) && (n <=? 90)
   || (97 <=? n) && (n <=? 122) || (n =? 95))%nat.

(** No brace: the text lies outside every selector group. *)
Definition noBrace (s : string) : bool := allBytes (fun c => negb (isBrace c)) s.

(** No byte of an operator. *)
Definition operatorFree (s : string) : bool := allBytes (fun c => negb (isOperatorByte c)) s.

(** A label name: not empty, letters, digits and underscores. *)
Definition labelName (s : string) : bool :=
  negb (String.eqb s EmptyString) && allBytes isLabelByte s.

(** The text of a quoted value that the rewriter keeps: no comma, no
    brace, no byte of an operator. *)
Definition plainValue (s : string) : bool :=
  allBytes (fun c => negb (Ascii.eqb c ","%char) && negb (isBrace c)
                     && negb (isOperatorByte c)) s.

Definition operators : list string := ["="; "=~"; "!="; "!~"].

(** A byte of ASCII that is not white space: [TrimSpace] stops at it. *)
Definition isPlainByte (c : ascii) : bool :=
  (nat_of_ascii c <? 128)%nat && negb (isSpace1 c).

End QuerySyntax.

(** ** Selectors, matcher by matcher

    The groups that the label pattern matches in a query, and selectors
    written in the restricted syntax: a list of matchers, each a label, an
    operator and a quoted value, separated by commas. *)

Module Selectors.
Import GoStrings Config Rewriter QuerySyntax.

(** The texts between the braces of the matches of the label pattern in
    [s], from left to right: the scan of [scanGroups], which collects the
    groups where [scanGroups] replaces them. *)
Fixpoint groupsOf (pending : option string) (s : string) : list string :=
  match s with
  | EmptyString => []
  | String c s' =>
      match pending with
      | None =>
          if Ascii.eqb c "{"%char then groupsOf (Some EmptyString) s'
          else groupsOf None s'
      | Some inner =>
          if Ascii.eqb c "}"%char then inner :: groupsOf None s'
          else if Ascii.eqb c "{"%char then groupsOf (Some EmptyString) s'
          else groupsOf (Some (inner +:+ String c EmptyString)) s'
      end
  end.

(** No rule of the table matches any fragment of any group of the query. *)
Definition noMatch (rules : list Rule) (query : string) : bool :=
  forallb
    (fun inner =>
       forallb (fun part => forallb (fun rule => negb (matchesRule rule part)) rules)
               (Split inner ","%char))
    (groupsOf None query).

Record Matcher := { MLabel : string; MOp : string; MValue : string }.

(** The text of a matcher and of a selector. *)
Definition matcherText (m : Matcher) : string := MLabel m +:+ MOp m +:+ quoted (MValue m).

Definition selector (ms : list Matcher) : string :=
  "{" +:+ Join (map matcherText ms) "," +:+ "}".

(** A matcher of the restricted syntax. *)
Definition wellFormed (m : Matcher) : bool :=
  labelName (MLabel m) && existsb (String.eqb (MOp m)) operators && plainValue (MValue m).

(** The target label of the first rule of the table whose source label is
    [label]; [label] itself when there is none. *)
Fixpoint renameLabel (rules : list Rule) (label : string) : string :=
  match rules with
  | [] => label
  | rule :: rest =>
      if String.eqb (SourceLabel rule) label then TargetLabel rule
      else renameLabel rest label
  end.

Definition renameMatcher (rules : list Rule) (m : Matcher) : Matcher :=
  {| MLabel := renameLabel rules (MLabel m); MOp := MOp m; MValue := MValue m |}.

(** Whether the table has a rule for [label]. *)
Definition hasRule (rules : list Rule) (label : string) : bool :=
  existsb (fun rule => String.eqb (SourceLabel rule) label) rules.

(** White space of ASCII. *)
Definition spaces (s : string) : bool := allBytes isSpace1 s.

End Selectors.

(** ** Result trees without label sets *)

Module Trees.
Import Rewriter.

(** No object of the tree has a field [metric] whose value is an object:
    the test of the first half of the object case of [processJSONData]
    fails everywhere. *)
Fixpoint noMetricObject (v : JSON) : bool :=
  match v with
  | JArray l => forallb id (noMetricObject <$> l)
  | JObject m =>
      match m !! "metric" with
      | Some (JObject _) => false
      | _ => forallb id ((map_to_list (noMetricObject <$> m)).*2)
      end
  | _ => true
  end.

End Trees.

(** ** Sample configurations and traffic *)

Module Samples.
Import GoStrings Config Rewriter Proxy QuerySyntax Selectors.

Definition nl : string := String "010"%char EmptyString.

Definition ruleHost : Rule := {| SourceLabel := "instance"; TargetLabel := "host" |}.
Definition ruleService : Rule := {| SourceLabel := "job"; TargetLabel := "service" |}.

(** The example configuration of the README, as the text of a file and
    as the structure it is decoded to. *)
Definition exampleYaml : string :=
  Join [ "target_prometheus: http://localhost:9090";
         "mappings:";
         "  - direction: query";
         "    rules:";
         "      - source_label: instance";
         "        target_label: host";
         "      - source_label: job";
         "        target_label: service";
         "  - direction: result";
         "    rules:";
         "      - source_label: instance";
         "        target_label: host";
         "      - source_label: job";
         "        target_label: service";
         EmptyString ] nl.

Definition exampleConfig : Config :=
  {| TargetPrometheus := "http://localhost:9090";
     Mappings := [ {| MDirection := DirectionQuery; Rules := [ruleHost; ruleService] |};
                   {| MDirection := DirectionResult; Rules := [ruleHost; ruleService] |} ] |}.

(** A stand-in for the file system and for the YAML decoder: one file,
    and a decoder that knows the document in it. *)
Definition oneFile : ConfigSource :=
  {| ReadFile := fun path =>
       if String.eqb path "configs/config.yaml" then inl exampleYaml
       else inr ("open " +:+ path +:+ ": no such file or directory");
     YamlUnmarshal := fun data =>
       if String.eqb data exampleYaml then inl exampleConfig
       else inr "yaml: unmarshal errors" |}.

(** A configuration whose second mapping has an unknown direction, and
    one whose first mapping has a second rule without target label. *)
Definition queryMapping : Mapping :=
  {| MDirection := DirectionQuery; Rules := [ruleHost; ruleService] |}.

Definition sidewaysMapping : Mapping := {| MDirection := "sideways"; Rules := [ruleHost] |}.

Definition misdirected : Config :=
  {| TargetPrometheus := "http://localhost:9090";
     Mappings := [queryMapping; sidewaysMapping] |}.

Definition noTarget : Rule := {| SourceLabel := "job"; TargetLabel := EmptyString |}.

Definition unlabelledMapping : Mapping :=
  {| MDirection := DirectionResult; Rules := [ruleHost; noTarget] |}.

Definition unlabelled : Config :=
  {| TargetPrometheus := "http://localhost:9090"; Mappings := [unlabelledMapping] |}.

(** The matchers of [instance], of [foo] and of [job]. *)
Definition onInstance : Matcher := {| MLabel := "instance"; MOp := "="; MValue := "a" |}.
Definition onFoo : Matcher := {| MLabel := "foo"; MOp := "!="; MValue := "b" |}.
Definition onJob : Matcher := {| MLabel := "job"; MOp := "=~"; MValue := "c.*" |}.

(** A form whose second field has a percent sign that starts no escape. *)
Definition badForm : Request :=
  {| Method := "POST";
     ReqURL := {| Scheme := "http"; Host := "localhost:9090"; Path := "/api/v1/query";
                  RawQuery := EmptyString |};
     ReqHeader := {[ "Content-Type" := ["application/x-www-form-urlencoded"] ]};
     ReqBody := Reader "query=up&time=%zz" false;
     ReqContentLength := 17 |}.

(** A response that declares JSON and carries the page of a gateway. *)
Definition gatewayPage : Response :=
  {| RespHeader := {[ "Content-Type" := ["application/json"] ]};
     RespBody := Reader "<html>502 Bad Gateway</html>" false;
     RespContentLength := (-1)%Z |}.

(** A label set with the two source labels of the example, and a
    response document without any label set. *)
Definition twoLabels : gmap string JSON :=
  {[ "instance" := JString "a"; "job" := JString "b" ]}.

Definition labelNames : JSON :=
  JObject {[ "status" := JString "success";
             "data" := JArray [JString "__name__"; JString "instance"; JString "job"] ]}.

End Samples.

(** ** Shared state: the rewriter under concurrent requests and a reload

    [net/http] serves every request on a goroutine of its own, and all of
    them use the one [Rewriter] of the proxy.  A program is the sequence of
    its accesses to that shared rewriter and of its operations on the
    [sync.RWMutex] of a configuration, in program order; what lies between
    two accesses is local to the goroutine.  Goroutines interleave between
    accesses. *)

Module Concurrent.
Import GoStrings Config Rewriter.

Inductive Prog (A : Type) : Type :=
  | Ret (a : A)
  | RLock (k : Prog A)
  | RUnlock (k : Prog A)
  | Lock (k : Prog A)
  | Unlock (k : Prog A)
  | LoadQueryRules (k : list Rule -> Prog A)
  | LoadResultRules (k : list Rule -> Prog A)
  | StoreQueryRules (rules : list Rule) (k : Prog A)
  | StoreResultRules (rules : list Rule) (k : Prog A).

Arguments Ret {A} a.
Arguments RLock {A} k.
Arguments RUnlock {A} k.
Arguments Lock {A} k.
Arguments Unlock {A} k.
Arguments LoadQueryRules {A} k.
Arguments LoadResultRules {A} k.
Arguments StoreQueryRules {A} rules k.
Arguments StoreResultRules {A} rules k.

Fixpoint bind {A B} (p : Prog A) (f : A -> Prog B) : Prog B :=
  match p with
  | Ret a => f a
  | RLock k => RLock (bind k f)
  | RUnlock k => RUnlock (bind k f)
  | Lock k => Lock (bind k f)
  | Unlock k => Unlock (bind k f)
  | LoadQueryRules k => LoadQueryRules (fun rules => bind (k rules) f)
  | LoadResultRules k => LoadResultRules (fun rules => bind (k rules) f)
  | StoreQueryRules rules k => StoreQueryRules rules (bind k f)
  | StoreResultRules rules k => StoreResultRules rules (bind k f)
  end.

Fixpoint mapP {A B} (f : A -> Prog B) (l : list A) : Prog (list B) :=
  match l with
  | [] => Ret []
  | x :: rest => bind (f x) (fun y => bind (mapP f rest) (fun ys => Ret (y :: ys)))
  end.




(** The inner loop of [RewriteQuery] on one part: the range expression
    [r.queryRules] is read when the loop starts, once for every part. *)
Definition rewritePartP (part : string) : Prog string :=
  LoadQueryRules (fun rules => Ret (rewritePart rules part)).

Definition rewriteGroupP (m : string) : Prog string :=
  let inner := slice m 1 (len m - 1) in
  let parts := Split inner ","%char in
  bind (mapP rewritePartP parts) (fun parts' => Ret ("{" +:+ Join parts' "," +:+ "}")).

(** [ReplaceAllStringFunc] calls the function on the matches from left to
    right. *)
Fixpoint scanGroupsP (f : string -> Prog string) (pending : option string) (s : string)
  : Prog string :=
  match s with
  | EmptyString =>
      Ret (match pending with
           | None => EmptyString
           | Some inner => "{" +:+ inner
           end)
  | String c s' =>
      match pending with
      | None =>
          if Ascii.eqb c "{"%char then scanGroupsP f (Some EmptyString) s'
          else bind (scanGroupsP f None s') (fun t => Ret (String c t))
      | Some inner =>
          if Ascii.eqb c "}"%char then
            bind (f ("{" +:+ inner +:+ "}")) (fun g =>
            bind (scanGroupsP f None s') (fun t => Ret (g +:+ t)))
          else if Ascii.eqb c "{"%char then
            bind (scanGroupsP f (Some EmptyString) s') (fun t => Ret ("{" +:+ inner +:+ t))
          else scanGroupsP f (Some (inner +:+ String c EmptyString)) s'
      end
  end.

(** [RewriteQuery]: [len(r.queryRules)] is the first read. *)
Definition RewriteQueryP (query : string) : Prog string :=
  LoadQueryRules (fun rules =>
    match rules with
    | [] => Ret query
    | _ => scanGroupsP rewriteGroupP None query
    end).




Inductive Event :=
  | EvRLock | EvRUnlock | EvLock | EvUnlock
  | EvLoadQueryRules | EvLoadResultRules
  | EvStoreQueryRules | EvStoreResultRules.

(** The shared rewriter and the state of the mutex. *)
Record Machine := { shared : Rewriter; readers : nat; writer : bool }.

Definition start (r : Rewriter) : Machine := {| shared := r; readers := 0; writer := false |}.

(** One access of a goroutine: the machine and the program after it and
    the event, or [None] when the goroutine is blocked on the mutex or has
    returned. *)
Definition step {A} (m : Machine) (p : Prog A) : option (Machine * Prog A * Event) :=
  match p with
  | Ret _ => None
  | RLock k =>
      if writer m then None
      else Some ({| shared := shared m; readers := S (readers m); writer := false |}, k, EvRLock)
  | RUnlock k =>
      Some ({| shared := shared m; readers := pred (readers m); writer := writer m |}, k,
            EvRUnlock)
  | Lock k =>
      if writer m || negb (Nat.eqb (readers m) 0) then None
      else Some ({| shared := shared m; readers := 0; writer := true |}, k, EvLock)
  | Unlock k =>
      Some ({| shared := shared m; readers := readers m; writer := false |}, k, EvUnlock)
  | LoadQueryRules k => Some (m, k (queryRules (shared m)), EvLoadQueryRules)
  | LoadResultRules k => Some (m, k (resultRules (shared m)), EvLoadResultRules)
  | StoreQueryRules rules k =>
      Some ({| shared := {| queryRules := rules; resultRules := resultRules (shared m) |};
               readers := readers m; writer := writer m |}, k, EvStoreQueryRules)
  | StoreResultRules rules k =>
      Some ({| shared := {| queryRules := queryRules (shared m); resultRules := rules |};
               readers := readers m; writer := writer m |}, k, EvStoreResultRules)
  end.

(** A goroutine that runs alone until it returns: the machine it leaves,
    its result and its events; [None] when it blocks. *)
Fixpoint runSolo {A} (m : Machine) (p : Prog A) : option (Machine * A * list Event) :=
  match p with
  | Ret a => Some (m, a, [])
  | RLock k =>
      if writer m then None
      else match runSolo {| shared := shared m; readers := S (readers m); writer := false |} k with
           | Some (m', a, t) => Some (m', a, EvRLock :: t)
           | None => None
           end
  | RUnlock k =>
      match runSolo {| shared := shared m; readers := pred (readers m); writer := writer m |} k with
      | Some (m', a, t) => Some (m', a, EvRUnlock :: t)
      | None => None
      end
  | Lock k =>
      if writer m || negb (Nat.eqb (readers m) 0) then None
      else match runSolo {| shared := shared m; readers := 0; writer := true |} k with
           | Some (m', a, t) => Some (m', a, EvLock :: t)
           | None => None
           end
  | Unlock k =>
      match runSolo {| shared := shared m; readers := readers m; writer := false |} k with
      | Some (m', a, t) => Some (m', a, EvUnlock :: t)
      | None => None
      end
  | LoadQueryRules k =>
      match runSolo m (k (queryRules (shared m))) with
      | Some (m', a, t) => Some (m', a, EvLoadQueryRules :: t)
      | None => None
      end
  | LoadResultRules k =>
      match runSolo m (k (resultRules (shared m))) with
      | Some (m', a, t) => Some (m', a, EvLoadResultRules :: t)
      | None => None
      end
  | StoreQueryRules rules k =>
      match runSolo {| shared := {| queryRules := rules; resultRules := resultRules (shared m) |};
                       readers := readers m; writer := writer m |} k with
      | Some (m', a, t) => Some (m', a, EvStoreQueryRules :: t)
      | None => None
      end
  | StoreResultRules rules k =>
      match runSolo {| shared := {| queryRules := queryRules (shared m); resultRules := rules |};
                       readers := readers m; writer := writer m |} k with
      | Some (m', a, t) => Some (m', a, EvStoreResultRules :: t)
      | None => None
      end
  end.

(** Two goroutines under a schedule: [true] lets the first one make its
    next access, [false] the second one; a goroutine that cannot move keeps
    its turn unused. *)
Fixpoint runPair {A B} (schedule : list bool) (m : Machine) (p1 : Prog A) (p2 : Prog B)
  : Machine * Prog A * Prog B :=
  match schedule with
  | [] => (m, p1, p2)
  | true :: rest =>
      match step m p1 with
      | Some (m', p1', _) => runPair rest m' p1' p2
      | None => runPair rest m p1 p2
      end
  | false :: rest =>
      match step m p2 with
      | Some (m', p2', _) => runPair rest m' p1 p2'
      | None => runPair rest m p1 p2
      end
  end.

(** A program reads the table and nothing else: alone, it leaves the
    machine as it is, returns [a], and takes no lock. *)
Definition readsOnly {A} (m : Machine) (p : Prog A) (a : A) : Prop :=
  exists t, runSolo m p = Some (m, a, t)
            /\ Forall (fun e => e = EvLoadQueryRules) t.






End Concurrent.

(** * Properties *)

(** ** The tests of the repository

    The cases of rewriter_test.go, run on the model; the URL and JSON
    cases use the reference codecs. *)

Section RepositoryTests.
Import GoStrings Config Rewriter.

Example TestRewriteQuery_simple :
  RewriteQuery QueryTests.rw ("up{instance=" +:+ quoted "localhost:9090" +:+ "}")
  = "up{host=" +:+ quoted "localhost:9090" +:+ "}".
Proof. reflexivity. Qed.

Example TestRewriteQuery_multiple_labels :
  RewriteQuery QueryTests.rw
    ("up{instance=" +:+ quoted "localhost:9090" +:+ ",job=" +:+ quoted "prometheus" +:+ "}")
  = "up{host=" +:+ quoted "localhost:9090" +:+ ",service=" +:+ quoted "prometheus" +:+ "}".
Proof. reflexivity. Qed.

Example TestRewriteQuery_regex_matcher :
  RewriteQuery QueryTests.rw ("up{instance=~" +:+ quoted "localhost.*" +:+ "}")
  = "up{host=~" +:+ quoted "localhost.*" +:+ "}".
Proof. reflexivity. Qed.

Example TestRewriteQuery_not_equal_matcher :
  RewriteQuery QueryTests.rw ("up{instance!=" +:+ quoted "localhost:9090" +:+ "}")
  = "up{host!=" +:+ quoted "localhost:9090" +:+ "}".
Proof. reflexivity. Qed.

Example TestRewriteQuery_not_regex_matcher :
  RewriteQuery QueryTests.rw ("up{instance!~" +:+ quoted "localhost.*" +:+ "}")
  = "up{host!~" +:+ quoted "localhost.*" +:+ "}".
Proof. reflexivity. Qed.

Example TestRewriteQuery_no_labels : RewriteQuery QueryTests.rw "up" = "up".
Proof. reflexivity. Qed.

Example TestRewriteQuery_unmapped_labels :
  RewriteQuery QueryTests.rw ("up{foo=" +:+ quoted "bar" +:+ "}")
  = "up{foo=" +:+ quoted "bar" +:+ "}".
Proof. reflexivity. Qed.

Example TestRewriteQueryURL_query_parameter :
  RawQuery (@RewriteQueryURL UrlRef.codec QueryTests.rw
              (QueryTests.testURL "/api/v1/query"
                 ("query=up{instance=" +:+ quoted "localhost:9090" +:+ "}")))
  = "query=up%7Bhost%3D%22localhost%3A9090%22%7D".
Proof. vm_compute. reflexivity. Qed.

Example TestRewriteQueryURL_match_parameter :
  RawQuery (@RewriteQueryURL UrlRef.codec QueryTests.rw
              (QueryTests.testURL "/api/v1/series"
                 ("match[]=up{instance=" +:+ quoted "localhost:9090" +:+ "}")))
  = "match%5B%5D=up%7Bhost%3D%22localhost%3A9090%22%7D".
Proof. vm_compute. reflexivity. Qed.

Example TestRewriteResultJSON_simple :
  @Unmarshal JsonRef.codec
    (@RewriteResultJSON JsonRef.codec ResultTests.rw
       (ResultTests.metricDoc "instance" "localhost:9090"))
  = Some (ResultTests.metricTree "host" "localhost:9090").
Proof. vm_compute. reflexivity. Qed.

Example TestRewriteResultJSON_multiple_metrics :
  @Unmarshal JsonRef.codec
    (@RewriteResultJSON JsonRef.codec ResultTests.rw
       ("{" +:+ quoted "result" +:+ ":["
        +:+ ResultTests.metricDoc "instance" "localhost:9090" +:+ ","
        +:+ ResultTests.metricDoc "instance" "localhost:9091" +:+ "]}"))
  = Some (JObject {[ "result" :=
            JArray [ ResultTests.metricTree "host" "localhost:9090";
                     ResultTests.metricTree "host" "localhost:9091" ] ]}).
Proof. vm_compute. reflexivity. Qed.

Example TestRewriteResultJSON_api_response :
  @Unmarshal JsonRef.codec
    (@RewriteResultJSON JsonRef.codec ResultTests.rw ResultTests.apiResponse)
  = Some (JObject
            {[ "status" := JString "success";
               "data" := JObject
                 {[ "resultType" := JString "vector";
                    "result" := JArray
                      [ JObject
                          {[ "metric" := JObject
                               {[ "__name__" := JString "up";
                                  "host" := JString "localhost:9090";
                                  "service" := JString "prometheus" ]};
                             "value" := JArray [ JNumber "1677758935"; JString "1" ] ]} ] ]} ]}).
Proof. vm_compute. reflexivity. Qed.

End RepositoryTests.

(** ** Facts about strings *)

Section StringFacts.

Lemma append_cons (c : ascii) (s t : string) : String c s +:+ t = String c (s +:+ t).
Proof. reflexivity. Qed.

Lemma append_nil_l (s : string) : EmptyString +:+ s = s.
Proof. reflexivity. Qed.

Lemma append_nil_r (s : string) : s +:+ EmptyString = s.
Proof. induction s as [|c s IH]; [done|]. rewrite append_cons. by f_equal. Qed.

Lemma append_assoc (s1 s2 s3 : string) : (s1 +:+ s2) +:+ s3 = s1 +:+ (s2 +:+ s3).
Proof. induction s1 as [|c s1 IH]; [done|]. rewrite !append_cons. by f_equal. Qed.

Lemma length_append (s1 s2 : string) :
  String.length (s1 +:+ s2) = String.length s1 + String.length s2.
Proof. induction s1 as [|c s1 IH]; [done|]. rewrite append_cons. simpl. by f_equal. Qed.

End StringFacts.

(** ** The resolved rule table *)

Section ResolvedTable.
Import Config.

(** The loop of [GetRules] concatenates the rules of the selected
    mappings, mappings in order, rules in order within a mapping. *)
Lemma GetRules_resolved (c : Config) (d : Direction) :
  GetRules c d
  = flat_map Rules
      (List.filter
         (fun m => String.eqb (MDirection m) d || String.eqb (MDirection m) DirectionBoth)
         (Mappings c)).
Proof.
  unfold GetRules.
  assert (Hgen : forall ms acc,
    fold_left
      (fun rules mapping =>
         if String.eqb (MDirection mapping) d
            || String.eqb (MDirection mapping) DirectionBoth
         then (rules ++ Rules mapping)%list else rules) ms acc
    = (acc ++ flat_map Rules
         (List.filter
            (fun m => String.eqb (MDirection m) d
                      || String.eqb (MDirection m) DirectionBoth) ms))%list).
  { induction ms as [|m ms IH]; intros acc; simpl.
    - by rewrite List.app_nil_r.
    - rewrite IH. destruct (_ || _); simpl; [by rewrite <- List.app_assoc | done]. }
  by rewrite Hgen.
Qed.

End ResolvedTable.

(** ** Query rewriting *)

Section QueryRewriting.
Import GoStrings Config Rewriter QueryTests.

Lemma rewritePart_no_match (rules : list Rule) (part : string) :
  Forall (fun r => matchesRule r part = false) rules ->
  rewritePart rules part = part.
Proof.
  induction 1 as [|r rules Hr _ IH]; simpl; [done|]. by rewrite Hr.
Qed.

Lemma rewritePart_app_no_match (pre rules : list Rule) (part : string) :
  Forall (fun r => matchesRule r part = false) pre ->
  rewritePart (pre ++ rules) part = rewritePart rules part.
Proof.
  induction 1 as [|r pre Hr _ IH]; simpl; [done|]. by rewrite Hr.
Qed.


Lemma rewritePart_first_match
    (pre post : list Rule) (rule : Rule) (part : string) :
  Forall (fun r => matchesRule r part = false) pre ->
  matchesRule rule part = true ->
  rewritePart (pre ++ rule :: post) part = replacePart rule part.
Proof.
  intros Hpre Hrule. rewrite rewritePart_app_no_match by done. simpl. by rewrite Hrule.
Qed.



(** C2.  The operator is looked for anywhere in the fragment, and the
    value starts after its first occurrence: on a matcher whose value
    contains the text of another operator, the operator is replaced and the
    value is cut.  Here the matcher of [instance] with operator [=] and the
    quoted value [a=~b] becomes a matcher of [host] with operator [=~]
    and the text [b] followed by a lone quote. *)
Theorem RewriteQuery_operator_inside_value :
  RewriteQuery QueryTests.rw ("up{instance=" +:+ quoted "a=~b" +:+ "}")
  = "up{host=~b" +:+ dq +:+ "}"
  /\ RewriteQuery QueryTests.rw ("up{instance=" +:+ quoted "a=~b" +:+ "}")
     <> "up{host=" +:+ quoted "a=~b" +:+ "}".
Proof. split; [reflexivity | discriminate]. Qed.

End QueryRewriting.

(** ** Queries with one matcher in the restricted syntax *)

Section SingleMatcher.
Import GoStrings Config Rewriter QuerySyntax.

Lemma allBytes_app (ok : ascii -> bool) (a b : string) :
  allBytes ok (a +:+ b) = allBytes ok a && allBytes ok b.
Proof.
  induction a as [|c a IH]; [done|]. rewrite append_cons. cbn [allBytes].
  by rewrite IH, andb_assoc.
Qed.

Lemma allBytes_weaken (ok ok' : ascii -> bool) (s : string) :
  (forall c, ok c = true -> ok' c = true) -> allBytes ok s = true -> allBytes ok' s = true.
Proof.
  intros Hok. induction s as [|c s IH]; [done|]. cbn [allBytes].
  intros [Hc Hs]%andb_true_iff. by rewrite (Hok c Hc), IH.
Qed.

Lemma scanGroups_pending (f : string -> string) (s : string) :
  forall inner,
    noBrace s = true ->
    scanGroups f (Some inner) s = "{" +:+ inner +:+ s.
Proof.
  induction s as [|c s IH]; intros inner Hs.
  - by rewrite append_nil_r.
  - cbn [noBrace allBytes] in Hs. apply andb_true_iff in Hs as [Hc Hs].
    unfold isBrace in Hc. apply negb_true_iff, orb_false_iff in Hc as [Ho Hcl].
    cbn [scanGroups]. rewrite Hcl, Ho, (IH _ Hs).
    by rewrite append_assoc.
Qed.

Lemma scanGroups_outside (f : string -> string) (s : string) :
  noBrace s = true -> scanGroups f None s = s.
Proof.
  induction s as [|c s IH]; [done|]. intros Hs.
  cbn [noBrace allBytes] in Hs. apply andb_true_iff in Hs as [Hc Hs].
  unfold isBrace in Hc. apply negb_true_iff, orb_false_iff in Hc as [Ho Hcl].
  cbn [scanGroups]. by rewrite Ho, (IH Hs).
Qed.

Lemma scanGroups_prefix (f : string -> string) (pre rest : string) :
  noBrace pre = true ->
  scanGroups f None (pre +:+ rest) = pre +:+ scanGroups f None rest.
Proof.
  induction pre as [|c pre IH]; [done|]. intros Hs.
  cbn [noBrace allBytes] in Hs. apply andb_true_iff in Hs as [Hc Hs].
  unfold isBrace in Hc. apply negb_true_iff, orb_false_iff in Hc as [Ho Hcl].
  rewrite !append_cons. cbn [scanGroups]. by rewrite Ho, (IH Hs).
Qed.

Lemma scanGroups_close (f : string -> string) (s rest : string) :
  forall inner,
    noBrace s = true ->
    scanGroups f (Some inner) (s +:+ String "}"%char rest)
    = f ("{" +:+ inner +:+ s +:+ "}") +:+ scanGroups f None rest.
Proof.
  induction s as [|c s IH]; intros inner Hs.
  - done.
  - cbn [noBrace allBytes] in Hs. apply andb_true_iff in Hs as [Hc Hs].
    unfold isBrace in Hc. apply negb_true_iff, orb_false_iff in Hc as [Ho Hcl].
    rewrite append_cons. cbn [scanGroups]. rewrite Hcl, Ho, (IH _ Hs).
    by rewrite !append_assoc.
Qed.

(** One group between text without braces: the function is applied to the
    group and everything else is kept. *)
Lemma ReplaceAllGroups_one_group (f : string -> string) (pre inner post : string) :
  noBrace pre = true -> noBrace inner = true -> noBrace post = true ->
  ReplaceAllGroups f (pre +:+ "{" +:+ inner +:+ "}" +:+ post)
  = pre +:+ f ("{" +:+ inner +:+ "}") +:+ post.
Proof.
  intros Hpre Hinner Hpost. unfold ReplaceAllGroups.
  rewrite (scanGroups_prefix _ _ _ Hpre). f_equal.
  rewrite append_cons, append_nil_l. cbn [scanGroups Ascii.eqb Bool.eqb].
  rewrite (append_cons "}"), append_nil_l.
  rewrite (scanGroups_close f inner post EmptyString Hinner).
  by rewrite (scanGroups_outside _ _ Hpost).
Qed.

Lemma substring_app (a b : string) : String.substring 0 (String.length a) (a +:+ b) = a.
Proof.
  induction a as [|c a IH]; [by destruct b|].
  rewrite append_cons. cbn [String.length String.substring]. by rewrite IH.
Qed.

Lemma rewriteGroup_braced (rules : list Rule) (inner : string) :
  rewriteGroup rules ("{" +:+ inner +:+ "}")
  = "{" +:+ Join (map (rewritePart rules) (Split inner ","%char)) "," +:+ "}".
Proof.
  assert (Hs : slice ("{" +:+ inner +:+ "}") 1 (len ("{" +:+ inner +:+ "}") - 1) = inner).
  { unfold slice, len.
    change ("{" +:+ inner +:+ "}") with (String "{"%char (inner +:+ "}")).
    cbn [String.length]. rewrite length_append. cbn [String.length].
    replace (Z.to_nat (Z.of_nat (S (String.length inner + 1)) - 1 - 1))
      with (String.length inner) by lia.
    change (Z.to_nat 1) with 1. cbn [String.substring]. apply substring_app. }
  unfold rewriteGroup. by rewrite Hs.
Qed.

Lemma Split_no_separator (s : string) (sep : ascii) :
  allBytes (fun c => negb (Ascii.eqb c sep)) s = true -> Split s sep = [s].
Proof.
  induction s as [|c s IH]; [done|]. cbn [allBytes Split].
  intros [Hc Hs]%andb_true_iff. apply negb_true_iff in Hc. by rewrite Hc, (IH Hs).
Qed.

Lemma HasPrefix_app_same (a b x : string) : HasPrefix (a +:+ b) (a +:+ x) = HasPrefix b x.
Proof.
  induction a as [|c a IH]; [done|]. rewrite !append_cons. cbn [HasPrefix].
  by rewrite Ascii.eqb_refl, IH.
Qed.

Lemma operator_byte_differs (a c : ascii) :
  isOperatorByte a = true -> isOperatorByte c = false -> Ascii.eqb a c = false.
Proof.
  intros Ha Hc. destruct (Ascii.eqb_spec a c) as [->|]; [|done]. congruence.
Qed.

(** A label followed by an operator does not start with another label
    followed by an operator. *)
Lemma HasPrefix_other_label (label : string) :
  forall src a b rest x,
    operatorFree label = true -> operatorFree src = true -> src <> label ->
    isOperatorByte a = true -> isOperatorByte b = true ->
    HasPrefix (label +:+ String a rest) (src +:+ String b x) = false.
Proof.
  induction label as [|c label IH]; intros src a b rest x Hl Hs Hne Ha Hb.
  - destruct src as [|d src]; [done|]. rewrite append_cons, append_nil_l. cbn [HasPrefix].
    cbn [operatorFree allBytes] in Hs. apply andb_true_iff in Hs as [Hd _].
    apply negb_true_iff in Hd.
    by rewrite Ascii.eqb_sym, (operator_byte_differs a d Ha Hd).
  - cbn [operatorFree allBytes] in Hl. apply andb_true_iff in Hl as [Hc Hl].
    apply negb_true_iff in Hc.
    destruct src as [|d src].
    + rewrite append_cons, append_nil_l. cbn [HasPrefix].
      by rewrite (operator_byte_differs b c Hb Hc).
    + cbn [operatorFree allBytes] in Hs. apply andb_true_iff in Hs as [_ Hs].
      rewrite !append_cons. cbn [HasPrefix].
      destruct (Ascii.eqb_spec d c) as [->|]; [|done]. cbn [andb].
      apply IH; try done. congruence.
Qed.

Lemma indexOf_operatorFree (s : string) (a : ascii) (x : string) :
  operatorFree s = true -> isOperatorByte a = true -> indexOf s (String a x) = None.
Proof.
  intros Hs Ha. induction s as [|c s IH]; [done|].
  cbn [operatorFree allBytes] in Hs. apply andb_true_iff in Hs as [Hc Hs].
  apply negb_true_iff in Hc. cbn [indexOf HasPrefix].
  by rewrite (operator_byte_differs a c Ha Hc), (IH Hs).
Qed.

Lemma indexOf_after_label (label rest : string) (a : ascii) (x : string) :
  operatorFree label = true -> isOperatorByte a = true ->
  indexOf (label +:+ rest) (String a x)
  = (fun n => String.length label + n) <$> indexOf rest (String a x).
Proof.
  intros Hl Ha. induction label as [|c label IH].
  - rewrite append_nil_l. by destruct (indexOf rest _).
  - cbn [operatorFree allBytes] in Hl. apply andb_true_iff in Hl as [Hc Hl].
    apply negb_true_iff in Hc. rewrite append_cons. cbn [indexOf HasPrefix].
    rewrite (operator_byte_differs a c Ha Hc), (IH Hl). cbn [andb].
    by destruct (indexOf rest _).
Qed.

Lemma dropBytes_app (a b : string) : dropBytes (String.length a) (a +:+ b) = b.
Proof. induction a as [|c a IH]; [done|]. by rewrite append_cons. Qed.

Lemma plain_byte (c : ascii) :
  isPlainByte c = true -> nat_of_ascii c < 128 /\ isSpace1 c = false.
Proof.
  unfold isPlainByte. intros [Hlt Hsp]%andb_true_iff.
  apply Nat.ltb_lt in Hlt. by apply negb_true_iff in Hsp.
Qed.

Lemma trimLeft_plain (c : ascii) (s : string) :
  isPlainByte c = true -> trimLeft (String c s) = String c s.
Proof.
  intros [Hlt Hsp]%plain_byte. cbn [trimLeft]. rewrite Hsp.
  destruct s as [|c2 s2]; [done|].
  assert (H2 : isSpace2 c c2 = false).
  { unfold isSpace2. destruct (Nat.eqb_spec (nat_of_ascii c) 194); [lia|done]. }
  rewrite H2. destruct s2 as [|c3 s3]; [done|].
  assert (H3 : isSpace3 c c2 c3 = false).
  { unfold isSpace3.
    destruct (Nat.eqb_spec (nat_of_ascii c) 225); [lia|].
    destruct (Nat.eqb_spec (nat_of_ascii c) 226); [lia|].
    destruct (Nat.eqb_spec (nat_of_ascii c) 227); [lia|done]. }
  by rewrite H3.
Qed.

Lemma trimLeftRev_plain (c : ascii) (s : string) :
  isPlainByte c = true -> trimLeftRev (String c s) = String c s.
Proof.
  intros [Hlt Hsp]%plain_byte. cbn [trimLeftRev]. rewrite Hsp.
  destruct s as [|c2 s2]; [done|].
  assert (H2 : isSpace2 c2 c = false).
  { unfold isSpace2.
    destruct (Nat.eqb_spec (nat_of_ascii c) 133); [lia|].
    destruct (Nat.eqb_spec (nat_of_ascii c) 160); [lia|]. apply andb_false_r. }
  rewrite H2. destruct s2 as [|c3 s3]; [done|].
  assert (H3 : isSpace3 c3 c2 c = false).
  { unfold isSpace3.
    destruct (Nat.eqb_spec (nat_of_ascii c) 128); [lia|].
    destruct (Nat.eqb_spec (nat_of_ascii c) 159); [lia|].
    destruct (Nat.eqb_spec (nat_of_ascii c) 168); [lia|].
    destruct (Nat.eqb_spec (nat_of_ascii c) 169); [lia|].
    destruct (Nat.eqb_spec (nat_of_ascii c) 175); [lia|].
    destruct (Nat.leb_spec 128 (nat_of_ascii c)); [lia|].
    by rewrite !andb_false_r. }
  by rewrite H3.
Qed.

Lemma list_ascii_of_append (a b : string) :
  list_ascii_of_string (a +:+ b) = (list_ascii_of_string a ++ list_ascii_of_string b)%list.
Proof.
  induction a as [|c a IH]; [done|]. rewrite append_cons. cbn [list_ascii_of_string].
  by rewrite IH.
Qed.

Lemma rev_last (s : string) (c : ascii) :
  GoStrings.rev (s +:+ String c EmptyString) = String c (GoStrings.rev s).
Proof.
  unfold GoStrings.rev. rewrite list_ascii_of_append. cbn [list_ascii_of_string].
  by rewrite List.rev_app_distr.
Qed.

Lemma rev_rev (s : string) : GoStrings.rev (GoStrings.rev s) = s.
Proof.
  unfold GoStrings.rev.
  by rewrite list_ascii_of_string_of_list_ascii, List.rev_involutive,
    string_of_list_ascii_of_string.
Qed.

(** [TrimSpace] leaves a text alone that starts and ends with a byte of
    ASCII that is not white space. *)
Lemma TrimSpace_plain_ends (c d : ascii) (body : string) :
  isPlainByte c = true -> isPlainByte d = true ->
  TrimSpace (String c body +:+ String d EmptyString) = String c body +:+ String d EmptyString.
Proof.
  intros Hc Hd. unfold TrimSpace.
  rewrite append_cons, (trimLeft_plain _ _ Hc), <- append_cons.
  by rewrite rev_last, (trimLeftRev_plain _ _ Hd), <- rev_last, rev_rev.
Qed.

Lemma label_byte_plain (c : ascii) : isLabelByte c = true -> isPlainByte c = true.
Proof. destruct c as [[] [] [] [] [] [] [] []]; done. Qed.

Lemma label_byte_not_operator (c : ascii) :
  isLabelByte c = true -> isOperatorByte c = false.
Proof. destruct c as [[] [] [] [] [] [] [] []]; done. Qed.

Lemma labelName_operatorFree (s : string) : labelName s = true -> operatorFree s = true.
Proof.
  unfold labelName. intros [_ Hs]%andb_true_iff.
  apply (allBytes_weaken isLabelByte); [|done].
  intros c Hc. by rewrite (label_byte_not_operator c Hc).
Qed.

(** The matcher of [label] with operator [op] on the quoted value [v]. *)
Lemma matcher_trimmed (label op v : string) :
  labelName label = true ->
  TrimSpace (label +:+ op +:+ quoted v) = label +:+ op +:+ quoted v.
Proof.
  intros Hl. unfold labelName in Hl. apply andb_true_iff in Hl as [Hne Hl].
  destruct label as [|c label]; [done|].
  cbn [allBytes] in Hl. apply andb_true_iff in Hl as [Hc _].
  replace (String c label +:+ op +:+ quoted v)
    with (String c (label +:+ op +:+ dq +:+ v) +:+ String "034"%char EmptyString).
  - apply TrimSpace_plain_ends; [by apply label_byte_plain|done].
  - unfold quoted, dq. by rewrite !append_cons, !append_assoc.
Qed.

Lemma operator_head (op : string) :
  In op operators -> exists a op', op = String a op' /\ isOperatorByte a = true.
Proof.
  intros [<-|[<-|[<-|[<-|[]]]]]; eauto.
Qed.

Lemma matchesRule_own_label (rule : Rule) (op v : string) :
  labelName (SourceLabel rule) = true -> In op operators ->
  matchesRule rule (SourceLabel rule +:+ op +:+ quoted v) = true.
Proof.
  intros Hl Hop. unfold matchesRule. rewrite (matcher_trimmed _ _ _ Hl).
  rewrite !HasPrefix_app_same.
  destruct Hop as [<-|[<-|[<-|[<-|[]]]]]; reflexivity.
Qed.

Lemma matchesRule_other_label (rule : Rule) (label op v : string) :
  labelName label = true -> In op operators ->
  operatorFree (SourceLabel rule) = true -> SourceLabel rule <> label ->
  matchesRule rule (label +:+ op +:+ quoted v) = false.
Proof.
  intros Hl Hop Hs Hne. unfold matchesRule. rewrite (matcher_trimmed _ _ _ Hl).
  destruct (operator_head op Hop) as (a & op' & -> & Ha).
  rewrite append_cons.
  pose proof (labelName_operatorFree _ Hl) as Hfree.
  by rewrite !(HasPrefix_other_label label (SourceLabel rule) a _ _ _ Hfree Hs Hne Ha).
Qed.

Lemma quoted_operatorFree (v : string) :
  operatorFree v = true -> operatorFree (v +:+ dq) = true.
Proof. intros Hv. unfold operatorFree in *. by rewrite allBytes_app, Hv. Qed.

(** On such a matcher the operator that is detected is the operator of
    the matcher and it is found right after the label. *)
Lemma detectOperator_exact (label op v : string) :
  operatorFree label = true -> operatorFree v = true -> In op operators ->
  detectOperator (label +:+ op +:+ quoted v) = op
  /\ indexOf (label +:+ op +:+ quoted v) op = Some (String.length label).
Proof.
  intros Hl Hv Hop. apply quoted_operatorFree in Hv.
  unfold detectOperator, Contains, Index, quoted.
  change (dq +:+ v +:+ dq) with (String "034"%char (v +:+ dq)).
  destruct Hop as [<-|[<-|[<-|[<-|[]]]]];
    rewrite !(indexOf_after_label label) by done;
    rewrite ?append_cons, ?append_nil_l;
    cbn [indexOf HasPrefix Ascii.eqb Bool.eqb andb];
    rewrite ?(indexOf_operatorFree (v +:+ dq)) by done;
    cbn [fmap option_fmap option_map Z.leb Z.compare Z.of_nat];
    rewrite ?Nat.add_0_r; split; try reflexivity.
  all: destruct (String.length label); reflexivity.
Qed.

Lemma replacePart_exact (rule : Rule) (label op v : string) :
  operatorFree label = true -> operatorFree v = true -> In op operators ->
  replacePart rule (label +:+ op +:+ quoted v) = TargetLabel rule +:+ op +:+ quoted v.
Proof.
  intros Hl Hv Hop. unfold replacePart.
  destruct (detectOperator_exact label op v Hl Hv Hop) as [-> Hidx].
  unfold Index, sliceFrom, len. rewrite Hidx.
  replace (Z.to_nat (Z.of_nat (String.length label) + Z.of_nat (String.length op)))
    with (String.length label + String.length op) by lia.
  rewrite <- (length_append label op), <- (append_assoc label op).
  by rewrite dropBytes_app.
Qed.

Lemma plainValue_parts (v : string) :
  plainValue v = true ->
  operatorFree v = true /\ noBrace v = true
  /\ allBytes (fun c => negb (Ascii.eqb c ","%char)) v = true.
Proof.
  intros Hv. repeat split; (eapply allBytes_weaken; [|exact Hv]); intros c Hc;
    apply andb_true_iff in Hc as [[H1 H2]%andb_true_iff H3]; done.
Qed.

Lemma label_byte_facts (c : ascii) :
  isLabelByte c = true -> isBrace c = false /\ Ascii.eqb c ","%char = false.
Proof. destruct c as [[] [] [] [] [] [] [] []]; done. Qed.

(** The text of such a matcher has no brace and no comma. *)
Lemma matcher_one_part (label op v : string) :
  labelName label = true -> In op operators -> plainValue v = true ->
  noBrace (label +:+ op +:+ quoted v) = true
  /\ Split (label +:+ op +:+ quoted v) ","%char = [label +:+ op +:+ quoted v].
Proof.
  intros Hl Hop Hv. destruct (plainValue_parts v Hv) as (_ & Hb & Hc).
  unfold labelName in Hl. apply andb_true_iff in Hl as [_ Hl].
  assert (Hlb : noBrace label = true).
  { eapply allBytes_weaken; [|exact Hl]. intros c [-> _]%label_byte_facts. done. }
  assert (Hlc : allBytes (fun c => negb (Ascii.eqb c ","%char)) label = true).
  { eapply allBytes_weaken; [|exact Hl]. intros c [_ ->]%label_byte_facts. done. }
  split.
  - unfold noBrace, quoted in *. rewrite !allBytes_app, Hlb, Hb.
    by destruct Hop as [<-|[<-|[<-|[<-|[]]]]].
  - apply Split_no_separator. unfold quoted. rewrite !allBytes_app, Hlc, Hc.
    by destruct Hop as [<-|[<-|[<-|[<-|[]]]]].
Qed.

(** X1.  One group, one matcher on a configured source label: only the
    label name changes.  The query is any text without braces around one group
    that holds the matcher of [SourceLabel rule] with one of the four
    operators on a quoted value without comma, brace or operator byte;
    [rule] is the first rule of the table for that label. *)
Theorem RewriteQuery_single_matcher
    (r : Rewriter) (before after : list Rule) (rule : Rule) (pre post op v : string) :
  queryRules r = (before ++ rule :: after)%list ->
  labelName (SourceLabel rule) = true ->
  Forall (fun r' => operatorFree (SourceLabel r') = true
                    /\ SourceLabel r' <> SourceLabel rule) before ->
  In op operators ->
  plainValue v = true ->
  noBrace pre = true -> noBrace post = true ->
  RewriteQuery r (pre +:+ "{" +:+ (SourceLabel rule +:+ op +:+ quoted v) +:+ "}" +:+ post)
  = pre +:+ "{" +:+ (TargetLabel rule +:+ op +:+ quoted v) +:+ "}" +:+ post.
Proof.
  intros Hrules Hl Hbefore Hop Hv Hpre Hpost.
  destruct (matcher_one_part _ op v Hl Hop Hv) as [Hbrace Hsplit].
  destruct (plainValue_parts v Hv) as (Hfree & _ & _).
  assert (Hq : forall q, RewriteQuery r q = ReplaceAllGroups (rewriteGroup (queryRules r)) q).
  { intros q. unfold RewriteQuery. rewrite Hrules. by destruct before. }
  rewrite Hq, Hrules.
  rewrite (ReplaceAllGroups_one_group _ _ _ _ Hpre Hbrace Hpost).
  rewrite rewriteGroup_braced, Hsplit. cbn [map Join].
  assert (Hno : Forall (fun r' => matchesRule r' (SourceLabel rule +:+ op +:+ quoted v) = false)
                  before).
  { eapply Forall_impl; [exact Hbefore|]. intros r' [Hf Hne].
    by apply matchesRule_other_label. }
  rewrite (rewritePart_first_match before after rule _ Hno
             (matchesRule_own_label rule op v Hl Hop)).
  rewrite (replacePart_exact rule _ op v (labelName_operatorFree _ Hl) Hfree Hop).
  by rewrite !append_assoc.
Qed.

(** The regex matcher of the test [Regex matcher]. *)
Lemma RewriteQuery_single_matcher_witness :
  queryRules QueryTests.rw
  = ([] ++ QueryTests.ruleHost :: [QueryTests.ruleJob])%list
  /\ labelName (SourceLabel QueryTests.ruleHost) = true
  /\ In "=~" operators
  /\ plainValue "localhost.*" = true
  /\ RewriteQuery QueryTests.rw
       ("up" +:+ "{" +:+ ("instance" +:+ "=~" +:+ quoted "localhost.*") +:+ "}" +:+ EmptyString)
     = "up" +:+ "{" +:+ ("host" +:+ "=~" +:+ quoted "localhost.*") +:+ "}" +:+ EmptyString.
Proof.
  assert (H1 : queryRules QueryTests.rw
               = ([] ++ QueryTests.ruleHost :: [QueryTests.ruleJob])%list) by reflexivity.
  assert (H2 : labelName (SourceLabel QueryTests.ruleHost) = true) by reflexivity.
  assert (H3 : In "=~" operators) by (right; left; reflexivity).
  assert (H4 : plainValue "localhost.*" = true) by reflexivity.
  repeat (split; [assumption|]).
  exact (RewriteQuery_single_matcher QueryTests.rw [] [QueryTests.ruleJob]
           QueryTests.ruleHost "up" EmptyString "=~" "localhost.*"
           H1 H2 (List.Forall_nil _) H3 H4 eq_refl eq_refl).
Defined.

(** X2.  A query without a brace is returned as it is. *)
Theorem RewriteQuery_no_brace (r : Rewriter) (query : string) :
  noBrace query = true -> RewriteQuery r query = query.
Proof.
  intros Hq. unfold RewriteQuery, ReplaceAllGroups.
  destruct (queryRules r); [done|]. by apply scanGroups_outside.
Qed.

(** A query with brackets and parentheses but no brace. *)
Lemma RewriteQuery_no_brace_witness :
  noBrace "rate(http_requests_total[5m])" = true
  /\ RewriteQuery QueryTests.rw "rate(http_requests_total[5m])"
     = "rate(http_requests_total[5m])".
Proof.
  assert (H : noBrace "rate(http_requests_total[5m])" = true) by reflexivity.
  split; [exact H|]. exact (RewriteQuery_no_brace QueryTests.rw _ H).
Defined.

End SingleMatcher.

(** ** The result tree *)

Section ResultTree.
Import GoStrings Config Rewriter.

Lemma max_list_bound (l : list nat) (n : nat) :
  Forall (fun x => x <= n) l -> max_list l <= n.
Proof. induction 1; simpl; lia. Qed.

Lemma depth_elem (l : list JSON) (x : JSON) :
  x ∈ l -> depth x < depth (JArray l).
Proof.
  intros Hx. simpl. apply Nat.lt_succ_r, max_list_elem_of_le.
  apply list_elem_of_fmap. by exists x.
Qed.

Lemma depth_field (m : gmap string JSON) (k : string) (x : JSON) :
  m !! k = Some x -> depth x < depth (JObject m).
Proof.
  intros Hk. simpl. apply Nat.lt_succ_r, max_list_elem_of_le.
  apply list_elem_of_fmap. exists (k, depth x). split; [done|].
  apply elem_of_map_to_list. by rewrite lookup_fmap, Hk.
Qed.

Lemma depth_object_bound (m : gmap string JSON) (n : nat) :
  (forall k x, m !! k = Some x -> depth x <= n) -> depth (JObject m) <= S n.
Proof.
  intros Hm. simpl. apply le_n_S, max_list_bound.
  apply Forall_forall. intros d Hd.
  apply list_elem_of_fmap in Hd as [[k d'] [-> Hkd]].
  apply elem_of_map_to_list in Hkd. rewrite lookup_fmap in Hkd.
  destruct (m !! k) as [x|] eqn:Hk; simplify_eq/=. by eapply Hm.
Qed.

(** What one turn of the relabelling loop leaves under each key. *)
Lemma relabelStep_lookup (metric : gmap string JSON) (rule : Rule) (val : JSON) (k : string) :
  metric !! SourceLabel rule = Some val ->
  relabelStep metric rule !! k
  = if decide (k = SourceLabel rule) then None
    else if decide (k = TargetLabel rule) then Some val
    else metric !! k.
Proof.
  intros Hsrc. unfold relabelStep. rewrite Hsrc.
  repeat case_decide; subst; simplify_map_eq; done.
Qed.

Lemma relabelStep_absent (metric : gmap string JSON) (rule : Rule) :
  metric !! SourceLabel rule = None -> relabelStep metric rule = metric.
Proof. intros Hsrc. unfold relabelStep. by rewrite Hsrc. Qed.

(** Relabelling moves values between keys: it creates none. *)
Lemma relabelStep_values (metric : gmap string JSON) (rule : Rule) (k : string) (x : JSON) :
  relabelStep metric rule !! k = Some x -> exists k', metric !! k' = Some x.
Proof.
  destruct (metric !! SourceLabel rule) as [val|] eqn:Hsrc.
  - rewrite (relabelStep_lookup _ _ val) by done.
    repeat case_decide; intros; simplify_eq; eauto.
  - rewrite relabelStep_absent by done. eauto.
Qed.

Lemma relabel_values (rules : list Rule) (metric : gmap string JSON) (k : string) (x : JSON) :
  relabel rules metric !! k = Some x -> exists k', metric !! k' = Some x.
Proof.
  revert metric k. induction rules as [|rule rules IH]; intros metric k; simpl; [eauto|].
  intros Hk. apply IH in Hk as [k1 Hk1]. by eapply relabelStep_values.
Qed.

Lemma depth_relabel (rules : list Rule) (metric : gmap string JSON) :
  depth (JObject (relabel rules metric)) <= depth (JObject metric).
Proof.
  destruct (depth (JObject metric)) as [|n] eqn:Hd; [done|].
  apply depth_object_bound. intros k x Hk.
  apply relabel_values in Hk as [k' Hk']. apply depth_field in Hk'. lia.
Qed.

Lemma relabelMetric_depth (rules : list Rule) (v : gmap string JSON) (k : string) (x : JSON) :
  relabelMetric rules v !! k = Some x -> depth x < depth (JObject v).
Proof.
  unfold relabelMetric.
  destruct (v !! "metric") as [[| | | | |metric]|] eqn:Hm; try apply depth_field.
  destruct (decide (k = "metric")) as [->|Hne].
  - rewrite lookup_insert_eq. intros [= <-].
    pose proof (depth_relabel rules metric). apply depth_field in Hm. lia.
  - rewrite lookup_insert_ne by done. apply depth_field.
Qed.

(** Enough fuel: once the bound reaches the depth of the tree the result
    no longer depends on it. *)
Lemma processJSONDataN_stable (rules : list Rule) (f1 f2 : nat) (data : JSON) :
  depth data <= f1 -> depth data <= f2 ->
  processJSONDataN rules f1 data = processJSONDataN rules f2 data.
Proof.
  revert f2 data. induction f1 as [|f1 IH]; intros f2 data H1 H2.
  - destruct data; simpl in H1; try lia; by destruct f2.
  - destruct f2 as [|f2]; [destruct data; simpl in H2; try lia; done|].
    destruct data as [| | | |l|m]; simpl; try done.
    + f_equal. apply list_fmap_ext. intros i x Hx.
      apply list_elem_of_lookup_2, depth_elem in Hx. apply IH; lia.
    + f_equal. apply map_fmap_ext. intros k x Hx.
      apply relabelMetric_depth in Hx. apply IH; lia.
Qed.

Lemma processJSONData_fuel (r : Rewriter) (fuel : nat) (data : JSON) :
  depth data <= fuel ->
  processJSONDataN (resultRules r) fuel data = processJSONData r data.
Proof. intros Hf. unfold processJSONData. apply processJSONDataN_stable; lia. Qed.

(** A label set whose values are scalars is left as it is by the
    recursion into it. *)
Lemma processJSONData_scalars (r : Rewriter) (metric : gmap string JSON) :
  (forall k x, metric !! k = Some x -> isScalar x = true) ->
  processJSONData r (JObject metric) = JObject metric.
Proof.
  intros Hs. unfold processJSONData. cbn [processJSONDataN]. f_equal.
  assert (Hm : relabelMetric (resultRules r) metric = metric).
  { unfold relabelMetric. destruct (metric !! "metric") as [x|] eqn:Hx; [|done].
    apply Hs in Hx. by destruct x. }
  rewrite Hm. apply map_eq. intros k. rewrite lookup_fmap.
  destruct (metric !! k) as [x|] eqn:Hk; [|done]. simpl. f_equal.
  apply Hs in Hk. destruct x; try done; by destruct (depth _).
Qed.

Lemma processJSONData_array (r : Rewriter) (l : list JSON) :
  processJSONData r (JArray l) = JArray (processJSONData r <$> l).
Proof.
  unfold processJSONData at 1. cbn [processJSONDataN]. f_equal.
  apply list_fmap_ext. intros i x Hx.
  apply processJSONData_fuel.
  apply list_elem_of_lookup_2, depth_elem in Hx. lia.
Qed.

(** C3.  On an object with a field [metric] whose value is an object, the
    label set is rewritten by the result rules in table order, one rule
    after the other, and then visited like every other field; the
    elements of an array are visited one by one.  One rule whose source
    label is present puts the value under the target label and leaves
    nothing under the source label; a rule whose source label is absent
    changes nothing.  The document whose label set binds [instance] to
    [x] becomes, under the rule from [instance] to [host], the document
    whose label set binds [host] to [x] and has no [instance]. *)
Theorem processJSONData_relabels_metric :
  (forall (r : Rewriter) (v metric : gmap string JSON),
      v !! "metric" = Some (JObject metric) ->
      exists v',
        processJSONData r (JObject v) = JObject v'
        /\ v' !! "metric"
           = Some (processJSONData r (JObject (fold_left relabelStep (resultRules r) metric)))
        /\ (forall k, k <> "metric" -> v' !! k = processJSONData r <$> v !! k)
        /\ ((forall k x, metric !! k = Some x -> isScalar x = true) ->
            v' !! "metric" = Some (JObject (fold_left relabelStep (resultRules r) metric))))
  /\ (forall (r : Rewriter) (l : list JSON),
        processJSONData r (JArray l) = JArray (processJSONData r <$> l))
  /\ (forall (metric : gmap string JSON) (rule : Rule) (val : JSON) (k : string),
        metric !! SourceLabel rule = Some val ->
        relabelStep metric rule !! k
        = if decide (k = SourceLabel rule) then None
          else if decide (k = TargetLabel rule) then Some val
          else metric !! k)
  /\ (forall (metric : gmap string JSON) (rule : Rule),
        metric !! SourceLabel rule = None -> relabelStep metric rule = metric)
  /\ processJSONData ResultTests.rw (ResultTests.metricTree "instance" "x")
     = ResultTests.metricTree "host" "x"
  /\ @RewriteResultJSON JsonRef.codec ResultTests.rw (ResultTests.metricDoc "instance" "x")
     = ResultTests.metricDoc "host" "x"
  /\ match processJSONData ResultTests.rw (ResultTests.metricTree "instance" "x") with
     | JObject v' =>
         match v' !! "metric" with
         | Some (JObject labels) =>
             labels !! "instance" = None /\ labels !! "host" = Some (JString "x")
         | _ => False
         end
     | _ => False
     end.
Proof.
  split; [|split; [|split; [|split; [|split; [|split]]]]].
  - intros r v metric Hm.
    exists (processJSONDataN (resultRules r) (depth (JObject v))
              <$> <["metric" := JObject (relabel (resultRules r) metric)]> v).
    assert (Hmetric :
      (processJSONDataN (resultRules r) (depth (JObject v))
         <$> <["metric" := JObject (relabel (resultRules r) metric)]> v) !! "metric"
      = Some (processJSONData r (JObject (relabel (resultRules r) metric)))).
    { rewrite lookup_fmap, lookup_insert_eq. cbn [fmap option_fmap option_map]. f_equal.
      apply processJSONData_fuel.
      pose proof (depth_relabel (resultRules r) metric).
      apply depth_field in Hm. lia. }
    split; [|split; [|split]].
    + unfold processJSONData. cbn [processJSONDataN]. unfold relabelMetric.
      by rewrite Hm.
    + exact Hmetric.
    + intros k Hk. rewrite lookup_fmap, lookup_insert_ne by done.
      destruct (v !! k) as [x|] eqn:Hx; [|done].
      cbn [fmap option_fmap option_map]. f_equal.
      apply processJSONData_fuel. apply depth_field in Hx. lia.
    + intros Hs. rewrite Hmetric. f_equal. apply processJSONData_scalars.
      intros k x Hk. apply relabel_values in Hk as [k' Hk']. by eapply Hs.
  - apply processJSONData_array.
  - apply relabelStep_lookup.
  - apply relabelStep_absent.
  - vm_compute. reflexivity.
  - vm_compute. reflexivity.
  - vm_compute. split; reflexivity.
Qed.

(** C3 on the document of the test [Simple JSON]. *)
Lemma processJSONData_relabels_metric_witness :
  ({[ "metric" := JObject {[ "instance" := JString "x" ]} ]} : gmap string JSON) !! "metric"
  = Some (JObject {[ "instance" := JString "x" ]})
  /\ exists v',
      processJSONData ResultTests.rw
        (JObject {[ "metric" := JObject {[ "instance" := JString "x" ]} ]}) = JObject v'
      /\ v' !! "metric"
         = Some (processJSONData ResultTests.rw
                   (JObject (fold_left relabelStep (resultRules ResultTests.rw)
                               {[ "instance" := JString "x" ]}))).
Proof.
  assert (H : ({[ "metric" := JObject {[ "instance" := JString "x" ]} ]}
                 : gmap string JSON) !! "metric"
              = Some (JObject {[ "instance" := JString "x" ]})) by reflexivity.
  split; [exact H|].
  destruct (proj1 processJSONData_relabels_metric ResultTests.rw _ _ H)
    as (v' & H1 & H2 & _).
  exists v'. split; [exact H1 | exact H2].
Defined.

(** C4.  A rule whose source and target are the same label does not leave
    the label set unchanged: the value is stored under the label and the
    label is then deleted, so the label is gone.  Under the rule from
    [instance] to [instance] the document whose label set binds
    [instance] to [x] comes out with an empty label set. *)
Theorem relabel_same_label_drops_label :
  (forall (metric : gmap string JSON) (label : string) (val : JSON),
      relabelStep (<[label := val]> metric) {| SourceLabel := label; TargetLabel := label |}
      = delete label metric)
  /\ processJSONData ResultTests.rwSame (ResultTests.metricTree "instance" "x")
     = ResultTests.emptyMetricTree
  /\ processJSONData ResultTests.rwSame (ResultTests.metricTree "instance" "x")
     <> ResultTests.metricTree "instance" "x"
  /\ @RewriteResultJSON JsonRef.codec ResultTests.rwSame
       (ResultTests.metricDoc "instance" "x")
     = ResultTests.emptyMetricDoc.
Proof.
  split; [|split; [|split]].
  - intros metric label val. unfold relabelStep. simpl.
    rewrite lookup_insert_eq. apply map_eq. intros k.
    destruct (decide (k = label)) as [->|Hne]; by simplify_map_eq.
  - vm_compute. reflexivity.
  - vm_compute. discriminate.
  - vm_compute. reflexivity.
Qed.

End ResultTree.

(** ** RewriteResultJSON *)

Section ResultJSON.
Import GoStrings Config Rewriter.
Context {codec : JSONCodec}.

Lemma RewriteResultJSON_no_rules (r : Rewriter) (jsonData : string) :
  resultRules r = [] -> RewriteResultJSON r jsonData = jsonData.
Proof. intros Hr. unfold RewriteResultJSON. by rewrite Hr. Qed.

Lemma RewriteResultJSON_unmarshal_error (r : Rewriter) (jsonData : string) :
  Unmarshal jsonData = None -> RewriteResultJSON r jsonData = jsonData.
Proof.
  intros Hu. unfold RewriteResultJSON. rewrite Hu. by destruct (resultRules r).
Qed.

Lemma RewriteResultJSON_marshal_error (r : Rewriter) (jsonData : string) (data : JSON) :
  Unmarshal jsonData = Some data ->
  Marshal (processJSONData r data) = None ->
  RewriteResultJSON r jsonData = jsonData.
Proof.
  intros Hu Hm. unfold RewriteResultJSON. rewrite Hu, Hm. by destruct (resultRules r).
Qed.

Lemma RewriteResultJSON_success (r : Rewriter) (jsonData result : string) (data : JSON) :
  resultRules r <> [] ->
  Unmarshal jsonData = Some data ->
  Marshal (processJSONData r data) = Some result ->
  RewriteResultJSON r jsonData = result.
Proof.
  intros Hr Hu Hm. unfold RewriteResultJSON. rewrite Hu, Hm. by destruct (resultRules r).
Qed.

(** C5.  Fail open: when [json.Unmarshal] returns an error, and when
    [json.Marshal] of the rewritten tree returns one, the input comes
    back byte for byte; the function has no error result.  When both
    succeed the output is what [json.Marshal] wrote, which is a JSON
    document, given that the encoder writes only documents that the
    decoder reads. *)
Theorem RewriteResultJSON_fail_open (r : Rewriter) (jsonData : string) :
  (forall v out, json_encode v = Some out -> is_Some (json_decode out)) ->
  (Unmarshal jsonData = None -> RewriteResultJSON r jsonData = jsonData)
  /\ (forall data,
        Unmarshal jsonData = Some data ->
        Marshal (processJSONData r data) = None ->
        RewriteResultJSON r jsonData = jsonData)
  /\ (forall data result,
        resultRules r <> [] ->
        Unmarshal jsonData = Some data ->
        Marshal (processJSONData r data) = Some result ->
        RewriteResultJSON r jsonData = result
        /\ is_Some (json_decode (RewriteResultJSON r jsonData))).
Proof.
  intros Hvalid. split; [|split].
  - apply RewriteResultJSON_unmarshal_error.
  - apply RewriteResultJSON_marshal_error.
  - intros data result Hr Hu Hm.
    rewrite (RewriteResultJSON_success r jsonData result data) by done.
    split; [done|]. by eapply Hvalid.
Qed.

Lemma processJSONData_scalar (r : Rewriter) (data : JSON) :
  isScalar data = true -> processJSONData r data = data.
Proof. by destruct data. Qed.

(** C10, amended.  A document whose top-level value is an array, a
    string, a number or a boolean makes [json.Unmarshal] into the map
    return an error, and the input comes back byte for byte.  The
    document [null] is not an error: the map stays nil and, with a rule
    table that is not empty, the output is what [json.Marshal] writes for
    a nil map. *)
Theorem RewriteResultJSON_top_level_not_object
    (r : Rewriter) (jsonData : string) (v : JSON) :
  json_decode jsonData = Some v ->
  (forall m, v <> JObject m) ->
  (v <> JNull -> Unmarshal jsonData = None /\ RewriteResultJSON r jsonData = jsonData)
  /\ (v = JNull -> resultRules r <> [] ->
      forall out, json_encode JNull = Some out -> RewriteResultJSON r jsonData = out).
Proof.
  intros Hd Hobj. split.
  - intros Hnull.
    assert (Hu : Unmarshal jsonData = None).
    { unfold Unmarshal. rewrite Hd. destruct v; try done. by destruct (Hobj fields). }
    split; [done|]. by apply RewriteResultJSON_unmarshal_error.
  - intros -> Hr out Hout.
    apply (RewriteResultJSON_success r jsonData out JNull); [done| |done].
    unfold Unmarshal. by rewrite Hd.
Qed.

End ResultJSON.

(** ** The reference JSON codec reads what it writes *)

Section JsonRefLaws.
Import GoStrings Config Rewriter UrlRef JsonRef.

Lemma numStep_delimiter (st : numState) (c : ascii) :
  isDelimiter c = true -> numStep st c = None.
Proof.
  destruct c as [[] [] [] [] [] [] [] []]; try discriminate; by destruct st.
Qed.

Lemma scanNumber_append (lit : string) :
  forall st l rest,
    scanNumber st lit = Some (l, EmptyString) ->
    delimited rest ->
    scanNumber st (lit +:+ rest) = Some (l, rest).
Proof.
  induction lit as [|c lit IH]; intros st l rest Hscan Hrest;
    rewrite ?append_cons, ?append_nil_l; simpl in *.
  - destruct (numAccept st) eqn:Hacc; [|done]. simplify_eq.
    destruct rest as [|d rest]; simpl; [by rewrite Hacc|].
    by rewrite (numStep_delimiter st d Hrest), Hacc.
  - destruct (numStep st c) as [st'|].
    + destruct (scanNumber st' lit) as [[l' r']|] eqn:Hl; [|done]. simplify_eq.
      by rewrite (IH st' l' rest Hl Hrest).
    + by destruct (numAccept st).
Qed.

Lemma readString_escapeByte (c : ascii) (tail acc : string) :
  readString (escapeByte c +:+ tail) acc = readString tail (acc +:+ String c EmptyString).
Proof. destruct c as [[] [] [] [] [] [] [] []]; reflexivity. Qed.

Lemma readString_escapeBytes (s : string) :
  forall acc rest,
    readString (escapeBytes s +:+ String "034"%char rest) acc = Some (acc +:+ s, rest).
Proof.
  induction s as [|c s IH]; intros acc rest.
  - by rewrite append_nil_r.
  - cbn [escapeBytes].
    rewrite append_assoc, readString_escapeByte, IH. by rewrite append_assoc.
Qed.

Lemma valueStart_not_space (c : ascii) :
  valueStart c = true ->
  isWS c = false /\ Ascii.eqb c "]"%char = false /\ Ascii.eqb c "}"%char = false.
Proof. destruct c as [[] [] [] [] [] [] [] []]; try discriminate; done. Qed.

Lemma numStep_start (c : ascii) (st : numState) :
  numStep NStart c = Some st -> valueStart c = true.
Proof. destruct c as [[] [] [] [] [] [] [] []]; try discriminate; done. Qed.

Lemma validNumber_head (lit : string) :
  validNumber lit = true ->
  exists c lit' st, lit = String c lit' /\ numStep NStart c = Some st.
Proof.
  unfold validNumber. destruct lit as [|c lit]; [done|]. cbn [scanNumber].
  destruct (numStep NStart c) as [st|] eqn:Hst; [eauto 10|done].
Qed.

Lemma encode_head (v : JSON) (out : string) :
  encode v = Some out -> exists c out', out = String c out' /\ valueStart c = true.
Proof.
  destruct v as [|[]|lit|str|l|m]; simpl; intros Henc; simplify_eq; eauto.
  - destruct (validNumber lit) eqn:Hv; [|done]. simplify_eq.
    apply validNumber_head in Hv as (c & lit' & st & -> & Hst).
    apply numStep_start in Hst. eauto.
  - destruct (allSome _); simplify_eq; eauto.
  - destruct (allSome _); simplify_eq; eauto.
Qed.

Lemma skipWS_head (c : ascii) (s : string) :
  isWS c = false -> skipWS (String c s) = String c s.
Proof. intros H. simpl. by rewrite H. Qed.

Lemma parseElements_step (fuel : nat) (acc : list JSON) (s : string) :
  parseElements (S fuel) acc s
  = match parseValue fuel s with
    | None => None
    | Some (v, rest) =>
        match skipWS rest with
        | String c rest' =>
            if Ascii.eqb c ","%char then parseElements fuel (acc ++ [v])%list rest'
            else if Ascii.eqb c "]"%char then Some (JArray (acc ++ [v])%list, rest')
            else None
        | EmptyString => None
        end
    end.
Proof. reflexivity. Qed.

Lemma parseMembers_step (fuel : nat) (acc : gmap string JSON) (key rest : string) :
  parseMembers (S fuel) acc (encodeString key +:+ rest)
  = match skipWS rest with
    | String c rest2 =>
        if Ascii.eqb c ":"%char then
          match parseValue fuel rest2 with
          | None => None
          | Some (v, rest3) =>
              match skipWS rest3 with
              | String d rest4 =>
                  if Ascii.eqb d ","%char then parseMembers fuel (<[key := v]> acc) rest4
                  else if Ascii.eqb d "}"%char then Some (JObject (<[key := v]> acc), rest4)
                  else None
              | EmptyString => None
              end
          end
        else None
    | EmptyString => None
    end.
Proof.
  unfold encodeString, dq. rewrite !append_assoc, append_cons, append_nil_l.
  cbn [parseMembers skipWS isWS Ascii.eqb Bool.eqb orb].
  rewrite ?append_cons, ?append_nil_l.
  rewrite readString_escapeBytes. by rewrite append_nil_l.
Qed.

Lemma parseElements_items (items : list string) :
  items <> [] -> Forall parses items ->
  forall fuel acc rest,
    String.length (Join items ",") < fuel ->
    exists v, parseElements fuel acc (Join items "," +:+ String "]"%char rest) = Some (v, rest).
Proof.
  induction items as [|item items IH]; [done|]. intros _ HF fuel acc rest Hfuel.
  apply Forall_cons in HF as [Hitem HF].
  destruct fuel as [|fuel]; [lia|]. rewrite parseElements_step.
  destruct items as [|item2 more].
  - cbn [Join] in *.
    destruct (Hitem fuel (String "]"%char rest)) as [v Hv]; [lia|done|].
    rewrite Hv. eauto.
  - change (Join (item :: item2 :: more) ",")
      with (item +:+ "," +:+ Join (item2 :: more) ",") in *.
    rewrite !length_append in Hfuel. change (String.length ",") with 1 in Hfuel.
    rewrite !append_assoc.
    destruct (Hitem fuel ("," +:+ Join (item2 :: more) "," +:+ String "]"%char rest))
      as [v Hv]; [lia|done|].
    rewrite Hv. rewrite append_cons, append_nil_l.
    cbn [skipWS isWS Ascii.eqb Bool.eqb orb].
    apply IH; [done|done|lia].
Qed.

Lemma parseMembers_members (members : list string) :
  members <> [] -> Forall memberParses members ->
  forall fuel acc rest,
    String.length (Join members ",") < fuel ->
    exists v, parseMembers fuel acc (Join members "," +:+ String "}"%char rest) = Some (v, rest).
Proof.
  induction members as [|member members IH]; [done|]. intros _ HF fuel acc rest Hfuel.
  apply Forall_cons in HF as [(key & o & -> & Ho) HF].
  destruct fuel as [|fuel]; [lia|].
  destruct members as [|member2 more].
  - cbn [Join] in *. rewrite !append_assoc, parseMembers_step.
    rewrite append_cons, append_nil_l.
    cbn [skipWS isWS Ascii.eqb Bool.eqb orb].
    rewrite !length_append in Hfuel.
    destruct (Ho fuel (String "}"%char rest)) as [v Hv]; [lia|done|].
    rewrite Hv. eauto.
  - change (Join ((encodeString key +:+ ":" +:+ o) :: member2 :: more) ",")
      with ((encodeString key +:+ ":" +:+ o) +:+ "," +:+ Join (member2 :: more) ",") in *.
    rewrite !length_append in Hfuel.
    change (String.length ",") with 1 in Hfuel.
    rewrite !append_assoc, parseMembers_step.
    rewrite append_cons, append_nil_l.
    cbn [skipWS isWS Ascii.eqb Bool.eqb orb].
    destruct (Ho fuel ("," +:+ Join (member2 :: more) "," +:+ String "}"%char rest))
      as [v Hv]; [lia|done|].
    rewrite Hv. rewrite append_cons, append_nil_l.
    cbn [skipWS isWS Ascii.eqb Bool.eqb orb].
    apply IH; [done|done|lia].
Qed.

Lemma parseValue_array (fuel : nat) (s : string) :
  parseValue (S fuel) (String "["%char s)
  = match skipWS s with
    | String c rest =>
        if Ascii.eqb c "]"%char then Some (JArray [], rest) else parseElements fuel [] s
    | EmptyString => None
    end.
Proof. reflexivity. Qed.

Lemma parseValue_object (fuel : nat) (s : string) :
  parseValue (S fuel) (String "{"%char s)
  = match skipWS s with
    | String c rest =>
        if Ascii.eqb c "}"%char then Some (JObject ∅, rest) else parseMembers fuel ∅ s
    | EmptyString => None
    end.
Proof. reflexivity. Qed.

Lemma parseValue_string (fuel : nat) (s : string) :
  parseValue (S fuel) (String "034"%char s)
  = match readString s EmptyString with
    | Some (str, rest) => Some (JString str, rest)
    | None => None
    end.
Proof. reflexivity. Qed.

Lemma parseValue_number (fuel : nat) (c : ascii) (s : string) (st : numState) :
  numStep NStart c = Some st ->
  parseValue (S fuel) (String c s)
  = match scanNumber NStart (String c s) with
    | Some (lit, rest) => Some (JNumber lit, rest)
    | None => None
    end.
Proof. destruct c as [[] [] [] [] [] [] [] []]; try discriminate; reflexivity. Qed.

Lemma allSome_Some {A} (l : list (option A)) (xs : list A) :
  allSome l = Some xs -> l = Some <$> xs.
Proof.
  revert xs. induction l as [|[x|] l IH]; intros xs; simpl; [by intros [= <-]| |done].
  destruct (allSome l) as [ys|]; [|done]. intros [= <-]. simpl. f_equal. by apply IH.
Qed.

Lemma Join_head (item : string) (items : list string) (c : ascii) (item' : string) :
  item = String c item' ->
  exists tail, Join (item :: items) "," = String c tail.
Proof. intros ->. destruct items; simpl; eauto. Qed.

(** Every text that the encoder writes is read back as one value. *)
Lemma encode_parses (n : nat) :
  forall v out, depth v <= n -> encode v = Some out -> parses out.
Proof.
  induction n as [n IHn] using lt_wf_ind.
  intros v out Hd Henc fuel rest Hfuel Hrest.
  destruct (encode_head v out Henc) as (c0 & out0 & Hout & Hc0).
  destruct fuel as [|fuel]; [subst out; simpl in Hfuel; lia|]. clear c0 out0 Hout Hc0.
  destruct v as [|[]|lit|str|l|m]; simpl in Henc.
  - simplify_eq. exists JNull. reflexivity.
  - simplify_eq. exists (JBool true). reflexivity.
  - simplify_eq. exists (JBool false). reflexivity.
  - destruct (validNumber lit) eqn:Hv; [|done]. simplify_eq.
    destruct (validNumber_head _ Hv) as (c & lit' & st & -> & Hst).
    rewrite append_cons, (parseValue_number fuel c _ st Hst), <- append_cons.
    unfold validNumber in Hv.
    destruct (scanNumber NStart (String c lit')) as [[l [|]]|] eqn:Hscan; try done.
    rewrite (scanNumber_append _ _ _ _ Hscan Hrest). eauto.
  - simplify_eq. unfold encodeString, dq.
    rewrite !append_assoc, append_cons, append_nil_l, parseValue_string.
    rewrite ?append_cons, ?append_nil_l, readString_escapeBytes. eauto.
  - destruct (allSome (encode <$> l)) as [items|] eqn:Hitems; [|done]. simplify_eq.
    apply allSome_Some in Hitems.
    rewrite !append_assoc, append_cons, append_nil_l, parseValue_array.
    rewrite (append_cons "]"), append_nil_l.
    destruct l as [|x l]; destruct items as [|item items]; try done.
    + exists (JArray []). reflexivity.
    + assert (HF : Forall parses (item :: items)).
      { apply Forall_forall. intros o Ho.
        assert (Ho' : Some o ∈ encode <$> (x :: l))
          by (rewrite Hitems; apply list_elem_of_fmap; eauto).
        apply list_elem_of_fmap in Ho' as (y & Hy & Hin).
        apply depth_elem in Hin.
        apply (IHn (depth y)) with (v := y); [lia|lia|done]. }
      assert (Hx : encode x = Some item) by (by simplify_eq/=).
      destruct (encode_head _ _ Hx) as (c & item' & Hitem & Hc).
      destruct (Join_head item items c item' Hitem) as [tail Htail].
      destruct (valueStart_not_space c Hc) as (Hws & Hclose & _).
      rewrite Htail, append_cons, (skipWS_head _ _ Hws), Hclose.
      rewrite <- append_cons, <- Htail.
      apply parseElements_items; [done|done|].
      rewrite !length_append in Hfuel.
      change (String.length "[") with 1 in Hfuel.
      change (String.length "]") with 1 in Hfuel. lia.
  - destruct (allSome _) as [members|] eqn:Hmembers; [|done]. simplify_eq.
    apply allSome_Some in Hmembers.
    rewrite !append_assoc, append_cons, append_nil_l, parseValue_object.
    rewrite (append_cons "}"), append_nil_l.
    destruct members as [|member members]; [exists (JObject ∅); reflexivity|].
    assert (HF : Forall memberParses (member :: members)).
    { apply Forall_forall. intros o Ho.
      assert (Ho' : Some o ∈ encodeMember <$> merge_sort memberLe (map_to_list (encode <$> m)))
        by (rewrite Hmembers; apply list_elem_of_fmap; eauto).
      apply list_elem_of_fmap in Ho' as ([key [o'|]] & Hy & Hin); [|done].
      rewrite merge_sort_Permutation in Hin.
      apply elem_of_map_to_list in Hin. rewrite lookup_fmap in Hin.
      destruct (m !! key) as [y|] eqn:Hkey; [|done]. simpl in Hin.
      apply depth_field in Hkey.
      cbv [encodeMember fst snd] in Hy. injection Hy as ->. injection Hin as Henc.
      exists key, o'. split; [done|].
      apply (IHn (depth y)) with (v := y); [lia|lia|done]. }
    pose proof HF as HF'. apply Forall_cons in HF' as [(key & o & Hm & _) _].
    assert (Hhead : exists tail, Join (member :: members) "," = String "034"%char tail).
    { apply (Join_head member members "034"%char (escapeBytes key +:+ dq +:+ ":" +:+ o)).
      rewrite Hm. unfold encodeString, dq.
      by rewrite !append_assoc, append_cons, append_nil_l. }
    destruct Hhead as [tail Htail].
    rewrite Htail, append_cons. cbn [skipWS isWS Ascii.eqb Bool.eqb orb].
    rewrite <- append_cons, <- Htail.
    apply parseMembers_members; [done|done|].
    rewrite !length_append in Hfuel.
    change (String.length "{") with 1 in Hfuel.
    change (String.length "}") with 1 in Hfuel. lia.
Qed.

(** The law of the interface that the fail-open property relies on:
    the reference encoder writes only documents that the reference decoder
    reads. *)
Lemma JsonRef_encode_decodes (v : JSON) (out : string) :
  encode v = Some out -> is_Some (decode out).
Proof.
  intros Henc.
  destruct (encode_parses (depth v) v out (le_n _) Henc (S (String.length out)) EmptyString)
    as [v' Hv']; [lia|done|].
  unfold decode. rewrite append_nil_r in Hv'. by rewrite Hv'.
Qed.

End JsonRefLaws.

(** ** The interception pipeline *)

Section Pipeline.
Import GoStrings Config Rewriter Proxy.
Context {urlCodec : UrlCodec} {jsonCodec : JSONCodec} {gz : Gzip}.

Lemma HeaderGet_Set (h : Header) (key value : string) :
  HeaderGet (HeaderSet h key value) key = value.
Proof. unfold HeaderGet, HeaderSet. by rewrite lookup_insert_eq. Qed.

(** The response path when nothing fails before the body is rebuilt. *)
Lemma rewriteResponse_rebuilt (p : PrometheusProxy) (resp : Response) (body plain : string) :
  isJSON resp = true ->
  ReadAll (RespBody resp) = Some body ->
  plainBody resp body = Some plain ->
  let newBody := RewriteResultJSON (rewriter p) plain in
  let final :=
    if isGzip resp then default newBody (gzipWrite newBody) else newBody in
  let header :=
    if isGzip resp then
      match gzipWrite newBody with
      | Some _ => RespHeader resp
      | None => HeaderDel (RespHeader resp) "Content-Encoding"
      end
    else RespHeader resp in
  rewriteResponse p resp
  = ({| RespHeader := HeaderSet header "Content-Length" (Itoa (len final));
        RespBody := bodyOf final;
        RespContentLength := len final |}, false).
Proof.
  unfold plainBody, isJSON, isGzip, rewriteResponse. intros -> -> Hplain.
  cbn [negb]. destruct (String.eqb _ "gzip"); [|by simplify_eq].
  rewrite Hplain. by destruct (gzipWrite _).
Qed.

(** The response path when decompression fails. *)
Lemma rewriteResponse_gunzip_error (p : PrometheusProxy) (resp : Response) (body : string) :
  isJSON resp = true ->
  ReadAll (RespBody resp) = Some body ->
  plainBody resp body = None ->
  rewriteResponse p resp
  = ({| RespHeader := RespHeader resp; RespBody := bodyOf body;
        RespContentLength := RespContentLength resp |}, false).
Proof.
  unfold plainBody, isJSON, isGzip, rewriteResponse. intros -> -> Hplain.
  cbn [negb]. destruct (String.eqb _ "gzip"); [by rewrite Hplain | done].
Qed.

(** C7.  When a gzip-encoded JSON response is decompressed and the
    rewritten bytes cannot be compressed again, the body that is sent is
    the rewritten bytes, uncompressed, and the response no longer has a
    [Content-Encoding] header. *)
Theorem rewriteResponse_recompression_failure
    (p : PrometheusProxy) (resp : Response) (body plain : string) :
  isJSON resp = true ->
  HeaderGet (RespHeader resp) "Content-Encoding" = "gzip" ->
  ReadAll (RespBody resp) = Some body ->
  gunzip body = Some plain ->
  gzipWrite (RewriteResultJSON (rewriter p) plain) = None ->
  exists resp',
    rewriteResponse p resp = (resp', false)
    /\ RespBody resp' = bodyOf (RewriteResultJSON (rewriter p) plain)
    /\ RespHeader resp' !! "Content-Encoding" = None
    /\ HeaderGet (RespHeader resp') "Content-Encoding" = EmptyString
    /\ RespContentLength resp' = len (RewriteResultJSON (rewriter p) plain)
    /\ HeaderGet (RespHeader resp') "Content-Length"
       = Itoa (len (RewriteResultJSON (rewriter p) plain)).
Proof.
  intros HJ HE HR HG HW.
  assert (Hgz : isGzip resp = true) by (unfold isGzip; by rewrite HE).
  assert (Hplain : plainBody resp body = Some plain)
    by (unfold plainBody; by rewrite Hgz).
  eexists. split.
  { rewrite (rewriteResponse_rebuilt p resp body plain HJ HR Hplain).
    rewrite Hgz, HW. reflexivity. }
  cbn [RespBody RespHeader RespContentLength default].
  assert (Hdel : HeaderSet (HeaderDel (RespHeader resp) "Content-Encoding") "Content-Length"
                   (Itoa (len (RewriteResultJSON (rewriter p) plain))) !! "Content-Encoding"
                 = None).
  { unfold HeaderSet, HeaderDel. rewrite lookup_insert_ne by done. apply lookup_delete_eq. }
  repeat split; try done.
  - unfold HeaderGet. by rewrite Hdel.
  - apply HeaderGet_Set.
Qed.

(** C1, amended.  On every path of [rewriteResponse] that rebuilds the
    body, the recompression-failure path included, the body sent is
    [final], the field [ContentLength] is its byte length and the header
    [Content-Length] is that length in decimal.  When decompression
    fails the original bytes are put back and neither the header nor the
    field is touched.  When [rewriteRequest] rewrites a form body, the
    field and the header are the length of the new body. *)
Theorem content_length_matches_body :
  (forall (p : PrometheusProxy) (resp : Response) (body plain : string),
      isJSON resp = true ->
      ReadAll (RespBody resp) = Some body ->
      plainBody resp body = Some plain ->
      exists resp' final,
        rewriteResponse p resp = (resp', false)
        /\ final = (let newBody := RewriteResultJSON (rewriter p) plain in
                    if isGzip resp then default newBody (gzipWrite newBody) else newBody)
        /\ RespBody resp' = bodyOf final
        /\ RespContentLength resp' = Z.of_nat (String.length final)
        /\ RespHeader resp' !! "Content-Length"
           = Some [Itoa (Z.of_nat (String.length final))])
  /\ (forall (p : PrometheusProxy) (resp : Response) (body : string),
        isJSON resp = true ->
        ReadAll (RespBody resp) = Some body ->
        plainBody resp body = None ->
        rewriteResponse p resp
        = ({| RespHeader := RespHeader resp; RespBody := bodyOf body;
              RespContentLength := RespContentLength resp |}, false))
  /\ (forall (p : PrometheusProxy) (req : Request) (body : string)
             (form : gmap string (list string)),
        Method req = "POST" ->
        HeaderGet (ReqHeader req) "Content-Type" = "application/x-www-form-urlencoded" ->
        ReadAll (ReqBody req) = Some body ->
        ParseQuery body = (form, false) ->
        let newBody := Encode (rewriteForm p form) in
        ReqBody (rewriteRequest p req) = bodyOf newBody
        /\ ReqContentLength (rewriteRequest p req) = Z.of_nat (String.length newBody)
        /\ ReqHeader (rewriteRequest p req) !! "Content-Length"
           = Some [Itoa (Z.of_nat (String.length newBody))]).
Proof.
  split; [|split].
  - intros p resp body plain HJ HR Hplain. eexists. eexists. split.
    { apply (rewriteResponse_rebuilt p resp body plain HJ HR Hplain). }
    cbn [RespBody RespHeader RespContentLength].
    repeat split. unfold HeaderSet. apply lookup_insert_eq.
  - apply rewriteResponse_gunzip_error.
  - intros p req body form HM HC HR HP newBody. unfold rewriteRequest.
    assert (Hb : hasBody (ReqBody req) = true) by (by destruct (ReqBody req)).
    rewrite HM, HC, HR, HP, Hb. cbn [String.eqb Ascii.eqb Bool.eqb andb].
    cbn [ReqBody ReqContentLength ReqHeader].
    repeat split. unfold HeaderSet. apply lookup_insert_eq.
Qed.

(** Unless the gate of [rewriteRequest] opens, only the URL changes. *)
Lemma rewriteRequest_gate_closed (p : PrometheusProxy) (req : Request) :
  Method req <> "POST"
  \/ HeaderGet (ReqHeader req) "Content-Type" <> "application/x-www-form-urlencoded" ->
  rewriteRequest p req = urlOnly p req.
Proof.
  intros Hgate. unfold rewriteRequest, urlOnly.
  destruct (String.eqb_spec (Method req) "POST") as [HM|HM]; [|done].
  destruct (hasBody (ReqBody req)); [|done]. cbn [andb].
  destruct (String.eqb_spec (HeaderGet (ReqHeader req) "Content-Type")
              "application/x-www-form-urlencoded") as [HC|HC]; [|done].
  by destruct Hgate.
Qed.

(** C9.  The URL query is rewritten for every request.  Unless the method
    is [POST] and the [Content-Type] header is exactly
    [application/x-www-form-urlencoded], nothing else changes: the body,
    the headers and the content length are those of the request.  So a
    request whose body was changed is a [POST] with exactly that content
    type. *)
Theorem rewriteRequest_body_gate (p : PrometheusProxy) (req : Request) :
  Method req <> "POST"
  \/ HeaderGet (ReqHeader req) "Content-Type" <> "application/x-www-form-urlencoded" ->
  rewriteRequest p req = urlOnly p req
  /\ ReqBody (rewriteRequest p req) = ReqBody req
  /\ ReqHeader (rewriteRequest p req) = ReqHeader req
  /\ ReqContentLength (rewriteRequest p req) = ReqContentLength req
  /\ ReqURL (rewriteRequest p req) = RewriteQueryURL (rewriter p) (ReqURL req).
Proof.
  intros Hgate. by rewrite (rewriteRequest_gate_closed p req Hgate).
Qed.

Lemma rewriteRequest_url (p : PrometheusProxy) (req : Request) :
  ReqURL (rewriteRequest p req) = RewriteQueryURL (rewriter p) (ReqURL req).
Proof.
  unfold rewriteRequest.
  destruct (String.eqb _ "POST" && _); [|done].
  destruct (String.eqb _ _); [|done].
  destruct (ReadAll _); [|done]. by destruct (ParseQuery _) as [? []].
Qed.

Lemma rewriteRequest_body_changed (p : PrometheusProxy) (req : Request) :
  ReqBody (rewriteRequest p req) <> ReqBody req ->
  Method req = "POST"
  /\ HeaderGet (ReqHeader req) "Content-Type" = "application/x-www-form-urlencoded".
Proof.
  intros Hchanged.
  destruct (decide (Method req = "POST")) as [HM|HM];
    [|destruct Hchanged; rewrite rewriteRequest_gate_closed; [done|by left]].
  destruct (decide (HeaderGet (ReqHeader req) "Content-Type"
                    = "application/x-www-form-urlencoded")) as [HC|HC];
    [done|destruct Hchanged; rewrite rewriteRequest_gate_closed; [done|by right]].
Qed.

End Pipeline.

(** ** Empty rule tables *)

Section EmptyTables.
Import GoStrings Config Rewriter.
Context {codec : JSONCodec}.

(** X3.  With no rule for a direction, the rewriter of that direction returns
    its input: the query as it is, the response bytes without parsing
    them. *)
Theorem empty_table_is_identity (r : Rewriter) :
  (queryRules r = [] -> forall query, RewriteQuery r query = query)
  /\ (resultRules r = [] -> forall jsonData, RewriteResultJSON r jsonData = jsonData).
Proof.
  split.
  - intros Hq query. unfold RewriteQuery. by rewrite Hq.
  - intros Hr jsonData. by apply RewriteResultJSON_no_rules.
Qed.

End EmptyTables.

(** The rewriter of the result tests has no query rule, the rewriter of the
    query tests no result rule. *)
Lemma empty_table_is_identity_witness :
  Rewriter.queryRules ResultTests.rw = []
  /\ Rewriter.RewriteQuery ResultTests.rw ("up{instance=" +:+ quoted "a" +:+ "}")
     = "up{instance=" +:+ quoted "a" +:+ "}"
  /\ Rewriter.resultRules QueryTests.rw = []
  /\ @Rewriter.RewriteResultJSON JsonRef.codec QueryTests.rw "up 1" = "up 1".
Proof.
  assert (H1 : Rewriter.queryRules ResultTests.rw = []) by reflexivity.
  assert (H2 : Rewriter.resultRules QueryTests.rw = []) by reflexivity.
  split; [exact H1|]. split.
  - exact (proj1 (@empty_table_is_identity JsonRef.codec ResultTests.rw) H1 _).
  - split; [exact H2|].
    exact (proj2 (@empty_table_is_identity JsonRef.codec QueryTests.rw) H2 _).
Defined.

(** ** Runs on the reference instances *)

Section ReferenceRuns.
Import GoStrings Config Rewriter Proxy PipelineTests.

(** C7 on a gzip response when every [Write] of the compressor fails: the
    23 rewritten bytes leave uncompressed and without [Content-Encoding]. *)
Lemma rewriteResponse_recompression_failure_witness :
  isJSON gzipResponse = true
  /\ HeaderGet (RespHeader gzipResponse) "Content-Encoding" = "gzip"
  /\ ReadAll (RespBody gzipResponse)
     = Some (gzipMagic +:+ ResultTests.metricDoc "instance" "x")
  /\ @gunzip (framedGzip true) (gzipMagic +:+ ResultTests.metricDoc "instance" "x")
     = Some (ResultTests.metricDoc "instance" "x")
  /\ @gzipWrite (framedGzip true)
       (@RewriteResultJSON JsonRef.codec (rewriter proxy) (ResultTests.metricDoc "instance" "x"))
     = None
  /\ exists resp',
      @rewriteResponse JsonRef.codec (framedGzip true) proxy gzipResponse = (resp', false)
      /\ RespBody resp' = bodyOf (ResultTests.metricDoc "host" "x")
      /\ RespHeader resp' !! "Content-Encoding" = None
      /\ RespContentLength resp' = 23%Z
      /\ HeaderGet (RespHeader resp') "Content-Length" = "23".
Proof.
  assert (H1 : isJSON gzipResponse = true) by reflexivity.
  assert (H2 : HeaderGet (RespHeader gzipResponse) "Content-Encoding" = "gzip")
    by reflexivity.
  assert (H3 : ReadAll (RespBody gzipResponse)
               = Some (gzipMagic +:+ ResultTests.metricDoc "instance" "x"))
    by reflexivity.
  assert (H4 : @gunzip (framedGzip true)
                 (gzipMagic +:+ ResultTests.metricDoc "instance" "x")
               = Some (ResultTests.metricDoc "instance" "x")) by reflexivity.
  assert (H5 : @gzipWrite (framedGzip true)
                 (@RewriteResultJSON JsonRef.codec (rewriter proxy)
                    (ResultTests.metricDoc "instance" "x")) = None) by reflexivity.
  repeat (split; [assumption|]).
  destruct (@rewriteResponse_recompression_failure JsonRef.codec (framedGzip true)
              proxy gzipResponse _ _ H1 H2 H3 H4 H5)
    as (resp' & E1 & E2 & E3 & _ & E5 & E6).
  exists resp'.
  split; [exact E1|]. split; [rewrite E2; vm_compute; reflexivity|].
  split; [exact E3|]. split; [rewrite E5; vm_compute; reflexivity|].
  rewrite E6. vm_compute. reflexivity.
Defined.

(** C1, as stated, fails on the decompression-failure path: a chunked
    response that declares gzip and whose body is not a gzip stream
    leaves with its three bytes as body, no [Content-Length] header and
    the field [ContentLength] still at [-1]. *)
Lemma content_length_not_set_on_gunzip_error :
  isJSON corruptGzipResponse = true
  /\ RespBody (fst (@rewriteResponse JsonRef.codec (framedGzip false) proxy
                      corruptGzipResponse)) = bodyOf "abc"
  /\ RespHeader (fst (@rewriteResponse JsonRef.codec (framedGzip false) proxy
                        corruptGzipResponse)) !! "Content-Length" = None
  /\ RespContentLength (fst (@rewriteResponse JsonRef.codec (framedGzip false) proxy
                               corruptGzipResponse)) <> len "abc".
Proof.
  split; [reflexivity|]. split; [reflexivity|]. split; [reflexivity|].
  vm_compute. discriminate.
Qed.

(** C1, amended, on a gzip response that is decompressed, rewritten and
    compressed again: 25 bytes leave and 25 is declared. *)
Lemma content_length_matches_body_witness :
  isJSON gzipResponse = true
  /\ ReadAll (RespBody gzipResponse)
     = Some (gzipMagic +:+ ResultTests.metricDoc "instance" "x")
  /\ @plainBody (framedGzip false) gzipResponse
       (gzipMagic +:+ ResultTests.metricDoc "instance" "x")
     = Some (ResultTests.metricDoc "instance" "x")
  /\ exists resp' final,
      @rewriteResponse JsonRef.codec (framedGzip false) proxy gzipResponse = (resp', false)
      /\ final = gzipMagic +:+ ResultTests.metricDoc "host" "x"
      /\ RespBody resp' = bodyOf final
      /\ RespContentLength resp' = Z.of_nat (String.length final)
      /\ RespHeader resp' !! "Content-Length" = Some ["25"].
Proof.
  assert (H1 : isJSON gzipResponse = true) by reflexivity.
  assert (H2 : ReadAll (RespBody gzipResponse)
               = Some (gzipMagic +:+ ResultTests.metricDoc "instance" "x"))
    by reflexivity.
  assert (H3 : @plainBody (framedGzip false) gzipResponse
                 (gzipMagic +:+ ResultTests.metricDoc "instance" "x")
               = Some (ResultTests.metricDoc "instance" "x")) by reflexivity.
  repeat (split; [assumption|]).
  destruct (proj1 (@content_length_matches_body UrlRef.codec JsonRef.codec
                     (framedGzip false)) proxy gzipResponse _ _ H1 H2 H3)
    as (resp' & final & E1 & E2 & E3 & E4 & E5).
  exists resp', final.
  split; [exact E1|]. split; [rewrite E2; vm_compute; reflexivity|].
  split; [exact E3|]. split; [exact E4|].
  rewrite E5, E2. vm_compute. reflexivity.
Defined.

(** C9 on a [PUT] with the form content type and on a [POST] whose content
    type carries a charset: the body is kept and the URL is rewritten; the
    same [POST] with the bare content type has its body rewritten. *)
Lemma rewriteRequest_body_gate_witness :
  (Method (request "PUT" formType) <> "POST"
   \/ HeaderGet (ReqHeader (request "PUT" formType)) "Content-Type"
      <> "application/x-www-form-urlencoded")
  /\ ReqBody (@rewriteRequest UrlRef.codec proxy (request "PUT" formType))
     = Reader (queryParam "instance") false
  /\ RawQuery (ReqURL (@rewriteRequest UrlRef.codec proxy (request "PUT" formType)))
     = queryParam "host"
  /\ ReqBody (@rewriteRequest UrlRef.codec proxy
                (request "POST" "application/x-www-form-urlencoded; charset=utf-8"))
     = Reader (queryParam "instance") false
  /\ ReqBody (@rewriteRequest UrlRef.codec proxy (request "POST" formType))
     = Reader (queryParam "host") false.
Proof.
  assert (H1 : Method (request "PUT" formType) <> "POST"
               \/ HeaderGet (ReqHeader (request "PUT" formType)) "Content-Type"
                  <> "application/x-www-form-urlencoded")
    by (left; discriminate).
  assert (H2 : Method (request "POST" "application/x-www-form-urlencoded; charset=utf-8")
               <> "POST"
               \/ HeaderGet (ReqHeader (request "POST"
                               "application/x-www-form-urlencoded; charset=utf-8"))
                    "Content-Type"
                  <> "application/x-www-form-urlencoded")
    by (right; discriminate).
  split; [exact H1|].
  destruct (@rewriteRequest_body_gate UrlRef.codec proxy _ H1) as (_ & E1 & _ & _ & E2).
  destruct (@rewriteRequest_body_gate UrlRef.codec proxy _ H2) as (_ & E3 & _).
  split; [exact E1|]. split; [rewrite E2; vm_compute; reflexivity|].
  split; [exact E3|]. vm_compute. reflexivity.
Defined.

(** C10, as stated, fails on a document that is the literal [null] with
    white space around it: it is valid JSON, its top-level value is not an
    object, [json.Unmarshal] returns no error, and the output is the four
    bytes [null], not the input. *)
Lemma RewriteResultJSON_null_is_reencoded :
  @json_decode JsonRef.codec " null" = Some JNull
  /\ @Unmarshal JsonRef.codec " null" = Some JNull
  /\ @RewriteResultJSON JsonRef.codec ResultTests.rw " null" = "null"
  /\ @RewriteResultJSON JsonRef.codec ResultTests.rw " null" <> " null".
Proof.
  split; [reflexivity|]. split; [reflexivity|]. split; [reflexivity|].
  vm_compute. discriminate.
Qed.

(** C10, amended, on a document that is an array. *)
Lemma RewriteResultJSON_top_level_not_object_witness :
  @json_decode JsonRef.codec "[1, 2]" = Some (JArray [JNumber "1"; JNumber "2"])
  /\ (forall m, JArray [JNumber "1"; JNumber "2"] <> JObject m)
  /\ @Unmarshal JsonRef.codec "[1, 2]" = None
  /\ @RewriteResultJSON JsonRef.codec ResultTests.rw "[1, 2]" = "[1, 2]".
Proof.
  assert (H1 : @json_decode JsonRef.codec "[1, 2]"
               = Some (JArray [JNumber "1"; JNumber "2"])) by reflexivity.
  assert (H2 : forall m, JArray [JNumber "1"; JNumber "2"] <> JObject m)
    by discriminate.
  split; [exact H1|]. split; [exact H2|].
  apply (proj1 (@RewriteResultJSON_top_level_not_object JsonRef.codec ResultTests.rw
                  _ _ H1 H2)).
  discriminate.
Defined.

(** C5 with the reference codec: text that is not JSON comes back as it
    is, and the rewriting of a document parses. *)
Lemma RewriteResultJSON_fail_open_witness :
  @Unmarshal JsonRef.codec "up 1" = None
  /\ @RewriteResultJSON JsonRef.codec ResultTests.rw "up 1" = "up 1"
  /\ @Unmarshal JsonRef.codec (ResultTests.metricDoc "instance" "x")
     = Some (ResultTests.metricTree "instance" "x")
  /\ @Marshal JsonRef.codec
       (processJSONData ResultTests.rw (ResultTests.metricTree "instance" "x"))
     = Some (ResultTests.metricDoc "host" "x")
  /\ @RewriteResultJSON JsonRef.codec ResultTests.rw (ResultTests.metricDoc "instance" "x")
     = ResultTests.metricDoc "host" "x"
  /\ is_Some (@json_decode JsonRef.codec
                (@RewriteResultJSON JsonRef.codec ResultTests.rw
                   (ResultTests.metricDoc "instance" "x"))).
Proof.
  assert (H1 : @Unmarshal JsonRef.codec "up 1" = None) by reflexivity.
  assert (H2 : @Unmarshal JsonRef.codec (ResultTests.metricDoc "instance" "x")
               = Some (ResultTests.metricTree "instance" "x"))
    by (vm_compute; reflexivity).
  assert (H3 : @Marshal JsonRef.codec
                 (processJSONData ResultTests.rw (ResultTests.metricTree "instance" "x"))
               = Some (ResultTests.metricDoc "host" "x"))
    by (vm_compute; reflexivity).
  assert (H4 : resultRules ResultTests.rw <> []) by discriminate.
  split; [exact H1|]. split.
  { exact (proj1 (@RewriteResultJSON_fail_open JsonRef.codec ResultTests.rw "up 1"
                    JsonRef_encode_decodes) H1). }
  split; [exact H2|]. split; [exact H3|].
  exact (proj2 (proj2 (@RewriteResultJSON_fail_open JsonRef.codec ResultTests.rw
                         (ResultTests.metricDoc "instance" "x") JsonRef_encode_decodes))
           _ _ H4 H2 H3).
Defined.

End ReferenceRuns.

(** ** Reload and concurrent rewrites *)

Section Reload.
Import GoStrings Config Rewriter Concurrent.

Lemma runSolo_bind {A B} (p : Prog A) (f : A -> Prog B) :
  forall m,
    runSolo m (bind p f)
    = match runSolo m p with
      | Some (m', a, t) =>
          match runSolo m' (f a) with
          | Some (m'', b, t') => Some (m'', b, (t ++ t')%list)
          | None => None
          end
      | None => None
      end.
Proof.
  induction p as [a|k IH|k IH|k IH|k IH|k IH|k IH|rules k IH|rules k IH]; intros m;
    cbn [bind runSolo].
  - by destruct (runSolo m (f a)) as [[[m'' b] t']|].
  - destruct (writer m); [done|]. rewrite IH.
    destruct (runSolo _ k) as [[[m' a] t]|]; [|done].
    by destruct (runSolo m' (f a)) as [[[m'' b] t']|].
  - rewrite IH. destruct (runSolo _ k) as [[[m' a] t]|]; [|done].
    by destruct (runSolo m' (f a)) as [[[m'' b] t']|].
  - destruct (_ || _); [done|]. rewrite IH.
    destruct (runSolo _ k) as [[[m' a] t]|]; [|done].
    by destruct (runSolo m' (f a)) as [[[m'' b] t']|].
  - rewrite IH. destruct (runSolo _ k) as [[[m' a] t]|]; [|done].
    by destruct (runSolo m' (f a)) as [[[m'' b] t']|].
  - rewrite IH. destruct (runSolo _ (k _)) as [[[m' a] t]|]; [|done].
    by destruct (runSolo m' (f a)) as [[[m'' b] t']|].
  - rewrite IH. destruct (runSolo _ (k _)) as [[[m' a] t]|]; [|done].
    by destruct (runSolo m' (f a)) as [[[m'' b] t']|].
  - rewrite IH. destruct (runSolo _ k) as [[[m' a] t]|]; [|done].
    by destruct (runSolo m' (f a)) as [[[m'' b] t']|].
  - rewrite IH. destruct (runSolo _ k) as [[[m' a] t]|]; [|done].
    by destruct (runSolo m' (f a)) as [[[m'' b] t']|].
Qed.

Lemma readsOnly_bind {A B} (m : Machine) (p : Prog A) (f : A -> Prog B) (a : A) (b : B) :
  readsOnly m p a -> readsOnly m (f a) b -> readsOnly m (bind p f) b.
Proof.
  intros (t & Hp & Ht) (t' & Hf & Ht'). exists (t ++ t')%list. split.
  - by rewrite runSolo_bind, Hp, Hf.
  - by apply Forall_app.
Qed.

Lemma readsOnly_ret {A} (m : Machine) (a : A) : readsOnly m (Ret a) a.
Proof. by exists []. Qed.

Lemma readsOnly_rewritePart (m : Machine) (part : string) :
  readsOnly m (rewritePartP part) (rewritePart (queryRules (shared m)) part).
Proof. exists [EvLoadQueryRules]. split; [done|]. by repeat constructor. Qed.

Lemma readsOnly_mapP (m : Machine) (parts : list string) :
  readsOnly m (mapP rewritePartP parts) (map (rewritePart (queryRules (shared m))) parts).
Proof.
  induction parts as [|part parts IH]; [apply readsOnly_ret|]. cbn [mapP map].
  eapply readsOnly_bind; [apply readsOnly_rewritePart|].
  eapply readsOnly_bind; [apply IH|]. apply readsOnly_ret.
Qed.

Lemma readsOnly_rewriteGroup (m : Machine) (g : string) :
  readsOnly m (rewriteGroupP g) (rewriteGroup (queryRules (shared m)) g).
Proof.
  unfold rewriteGroupP, rewriteGroup.
  eapply readsOnly_bind; [apply readsOnly_mapP|]. apply readsOnly_ret.
Qed.

Lemma readsOnly_scanGroups (m : Machine) (s : string) :
  forall pending,
    readsOnly m (scanGroupsP rewriteGroupP pending s)
      (scanGroups (rewriteGroup (queryRules (shared m))) pending s).
Proof.
  induction s as [|c s IH]; intros pending; cbn [scanGroupsP scanGroups].
  - apply readsOnly_ret.
  - destruct pending as [inner|].
    + destruct (Ascii.eqb c "}"%char).
      * eapply readsOnly_bind; [apply readsOnly_rewriteGroup|].
        eapply readsOnly_bind; [apply IH|]. apply readsOnly_ret.
      * destruct (Ascii.eqb c "{"%char); [|apply IH].
        eapply readsOnly_bind; [apply IH|]. apply readsOnly_ret.
    + destruct (Ascii.eqb c "{"%char); [apply IH|].
      eapply readsOnly_bind; [apply IH|]. apply readsOnly_ret.
Qed.

(** A rewrite that no reload overlaps uses one table: it is the function
    [RewriteQuery] of the rewriter it finds. *)
Lemma RewriteQueryP_alone (m : Machine) (query : string) :
  exists t,
    runSolo m (RewriteQueryP query) = Some (m, RewriteQuery (shared m) query, t)
    /\ Forall (fun e => e = EvLoadQueryRules) t.
Proof.
  unfold RewriteQueryP, RewriteQuery, ReplaceAllGroups. cbn [runSolo].
  destruct (queryRules (shared m)) as [|rule rules] eqn:Hq.
  - exists [EvLoadQueryRules]. split; [done|]. by repeat constructor.
  - destruct (readsOnly_scanGroups m query None) as (t & Ht & HF).
    rewrite Hq in Ht. rewrite Ht.
    exists (EvLoadQueryRules :: t). split; [done|]. by constructor.
Qed.

Context {codec : JSONCodec}.

















End Reload.

(** ** Validation and loading of the configuration *)

Section Validation.
Import GoStrings Config Rewriter.

Lemma invalidDirection_false (d : Direction) :
  invalidDirection d = false
  <-> d = DirectionQuery \/ d = DirectionResult \/ d = DirectionBoth.
Proof.
  unfold invalidDirection.
  destruct (String.eqb_spec d DirectionQuery) as [Hq|Hq];
    destruct (String.eqb_spec d DirectionResult) as [Hr|Hr];
    destruct (String.eqb_spec d DirectionBoth) as [Hb|Hb];
    cbn [negb andb]; split; intros H; try done; auto.
  by destruct H as [H|[H|H]].
Qed.

Lemma validateRules_None (i j : Z) (rules : list Rule) :
  validateRules i j rules = None <-> Forall validRule rules.
Proof.
  revert j. induction rules as [|rule rules IH]; intros j; cbn [validateRules].
  - split; [constructor | done].
  - destruct (String.eqb_spec (SourceLabel rule) EmptyString) as [Hs|Hs].
    { split; [done|]. inversion 1 as [|? ? [Hs' _] _]. done. }
    destruct (String.eqb_spec (TargetLabel rule) EmptyString) as [Ht|Ht].
    { split; [done|]. inversion 1 as [|? ? [_ Ht'] _]. done. }
    rewrite IH. split; [by constructor | by inversion 1].
Qed.

Lemma len_rules_zero (rules : list Rule) : (len_rules rules =? 0)%Z = true <-> rules = [].
Proof.
  unfold len_rules. destruct rules; cbn [length]; split; done.
Qed.

Lemma validateMappings_None (i : Z) (ms : list Mapping) :
  validateMappings i ms = None <-> Forall validMapping ms.
Proof.
  revert i. induction ms as [|m ms IH]; intros i; cbn [validateMappings].
  - split; [constructor | done].
  - destruct (invalidDirection (MDirection m)) eqn:Hd.
    { split; [done|]. inversion 1 as [|? ? [Hd' _] _].
      apply invalidDirection_false in Hd'. congruence. }
    apply invalidDirection_false in Hd.
    destruct (len_rules (Rules m) =? 0)%Z eqn:Hn.
    { apply len_rules_zero in Hn. split; [done|].
      inversion 1 as [|? ? [_ [Hn' _]] _]. done. }
    assert (Hne : Rules m <> []).
    { intros Hnil. apply len_rules_zero in Hnil. congruence. }
    destruct (validateRules i 0 (Rules m)) as [e|] eqn:Hr.
    { split; [done|]. inversion 1 as [|? ? [_ [_ Hr']] _].
      apply (validateRules_None i 0) in Hr'. congruence. }
    apply validateRules_None in Hr. rewrite IH.
    split; [by constructor | by inversion 1].
Qed.

Lemma Validate_None (c : Config) :
  Validate c = None
  <-> TargetPrometheus c <> EmptyString /\ Forall validMapping (Mappings c).
Proof.
  unfold Validate.
  destruct (String.eqb_spec (TargetPrometheus c) EmptyString) as [Ht|Ht].
  - split; [done | by intros [? _]].
  - rewrite validateMappings_None. split; [done | by intros [_ ?]].
Qed.

(** X4.  [Validate] accepts a configuration exactly when the target is
    not empty and every mapping has one of the three directions, at least
    one rule, and no rule with an empty source or target label.  An empty
    target is the first error, whatever the mappings are. *)
Theorem Validate_accepts_iff (c : Config) :
  (Validate c = None
   <-> TargetPrometheus c <> EmptyString /\ Forall validMapping (Mappings c))
  /\ (TargetPrometheus c = EmptyString
      -> Validate c = Some "target_prometheus is required").
Proof.
  split; [apply Validate_None|].
  unfold Validate. by intros ->.
Qed.

Lemma validateRules_skip (i j : Z) (pre rest : list Rule) :
  Forall validRule pre ->
  validateRules i j (pre ++ rest)%list = validateRules i (j + Z.of_nat (length pre)) rest.
Proof.
  intros Hpre. revert j. induction Hpre as [|rule pre [Hs Ht] _ IH]; intros j.
  - cbn [app length]. f_equal. lia.
  - cbn [app length validateRules].
    apply String.eqb_neq in Hs, Ht. rewrite Hs, Ht, IH. f_equal. lia.
Qed.

Lemma validateMappings_skip (i : Z) (pre rest : list Mapping) :
  Forall validMapping pre ->
  validateMappings i (pre ++ rest)%list
  = validateMappings (i + Z.of_nat (length pre)) rest.
Proof.
  intros Hpre. revert i. induction Hpre as [|m pre Hm _ IH]; intros i.
  - cbn [app length]. f_equal. lia.
  - cbn [app length validateMappings].
    destruct Hm as (Hd & Hne & Hr).
    apply invalidDirection_false in Hd. rewrite Hd.
    destruct (len_rules (Rules m) =? 0)%Z eqn:Hn; [by apply len_rules_zero in Hn|].
    apply (validateRules_None i 0) in Hr. rewrite Hr, IH. f_equal. lia.
Qed.

(** X5.  [Validate] reports the first offence in the order of the file,
    with its position: for the first mapping that is not valid, at index
    [i], an unknown direction, then an empty rule list, then, for its
    first rule that is not valid, at index [j], an empty source label
    before an empty target label. *)
Theorem Validate_reports_first_error
    (c : Config) (before after : list Mapping) (m : Mapping) :
  TargetPrometheus c <> EmptyString ->
  Mappings c = (before ++ m :: after)%list ->
  Forall validMapping before ->
  let i := Z.of_nat (length before) in
  (invalidDirection (MDirection m) = true ->
   Validate c
   = Some ("invalid direction in mapping " +:+ Itoa i +:+ ": " +:+ MDirection m))
  /\ (invalidDirection (MDirection m) = false -> Rules m = [] ->
      Validate c = Some ("no rules defined in mapping " +:+ Itoa i))
  /\ (forall (rbefore rafter : list Rule) (rule : Rule),
        invalidDirection (MDirection m) = false ->
        Rules m = (rbefore ++ rule :: rafter)%list ->
        Forall validRule rbefore ->
        let j := Z.of_nat (length rbefore) in
        (SourceLabel rule = EmptyString ->
         Validate c
         = Some ("source_label is required in mapping " +:+ Itoa i
                 +:+ ", rule " +:+ Itoa j))
        /\ (SourceLabel rule <> EmptyString -> TargetLabel rule = EmptyString ->
            Validate c
            = Some ("target_label is required in mapping " +:+ Itoa i
                    +:+ ", rule " +:+ Itoa j))).
Proof.
  intros Ht Hms Hbefore i.
  assert (Hv : Validate c = validateMappings i (m :: after)).
  { unfold Validate. apply String.eqb_neq in Ht. rewrite Ht, Hms.
    by rewrite validateMappings_skip. }
  rewrite Hv. cbn [validateMappings]. split; [|split].
  - by intros ->.
  - intros -> ->. done.
  - intros rbefore rafter rule -> Hrules Hrbefore.
    assert (Hn : (len_rules (Rules m) =? 0)%Z = false).
    { destruct (len_rules (Rules m) =? 0)%Z eqn:Hn; [|done].
      apply len_rules_zero in Hn. rewrite Hn in Hrules. by destruct rbefore. }
    rewrite Hn, Hrules, validateRules_skip by done. cbn [validateRules].
    rewrite Z.add_0_l. split.
    + by intros ->.
    + intros Hs%String.eqb_neq ->. by rewrite Hs.
Qed.

Lemma GetRules_In (c : Config) (d : Direction) (rule : Rule) :
  In rule (GetRules c d)
  <-> exists m, In m (Mappings c)
                /\ (MDirection m = d \/ MDirection m = DirectionBoth)
                /\ In rule (Rules m).
Proof.
  rewrite GetRules_resolved, in_flat_map. split.
  - intros (m & Hm & Hrule). apply filter_In in Hm as [Hm Hd].
    exists m. split; [done|]. split; [|done].
    apply orb_true_iff in Hd as [Hd|Hd]; apply String.eqb_eq in Hd; auto.
  - intros (m & Hm & Hd & Hrule). exists m. split; [|done].
    apply filter_In. split; [done|]. apply orb_true_iff.
    destruct Hd as [Hd|Hd]; rewrite Hd, String.eqb_refl; auto.
Qed.

(** X6.  The table of a direction holds exactly the rules of the mappings
    whose direction is that direction or [both], in the order of the
    mappings: the table of a list of mappings is the table of its first
    part followed by the table of the rest.  So a rule of a [both] mapping
    is in the query table and in the result table of the rewriter. *)
Theorem GetRules_selects_mappings (c : Config) (d : Direction) :
  (forall rule,
      In rule (GetRules c d)
      <-> exists m, In m (Mappings c)
                    /\ (MDirection m = d \/ MDirection m = DirectionBoth)
                    /\ In rule (Rules m))
  /\ (forall (ms1 ms2 : list Mapping) (t1 t2 : string),
        Mappings c = (ms1 ++ ms2)%list ->
        GetRules c d
        = (GetRules {| TargetPrometheus := t1; Mappings := ms1 |} d
           ++ GetRules {| TargetPrometheus := t2; Mappings := ms2 |} d)%list)
  /\ (forall m rule,
        In m (Mappings c) -> MDirection m = DirectionBoth -> In rule (Rules m) ->
        In rule (queryRules (New c)) /\ In rule (resultRules (New c))).
Proof.
  split; [|split].
  - apply GetRules_In.
  - intros ms1 ms2 t1 t2 Hms. rewrite !GetRules_resolved, Hms. cbn [Mappings].
    by rewrite List.filter_app, flat_map_app.
  - intros m rule Hm Hd Hrule.
    split; apply GetRules_In; exists m; auto.
Qed.

Lemma GetRules_valid (c : Config) (d : Direction) :
  Forall validMapping (Mappings c) -> Forall validRule (GetRules c d).
Proof.
  intros Hms. apply List.Forall_forall. intros rule Hrule.
  apply GetRules_In in Hrule as (m & Hm & _ & Hrule).
  pose proof (proj1 (List.Forall_forall _ _) Hms m Hm) as (_ & _ & Hrules).
  exact (proj1 (List.Forall_forall _ _) Hrules rule Hrule).
Qed.

Context {files : ConfigSource}.

(** X7.  A configuration that [LoadFromFile] returns was read from the
    file, parsed, and accepted by [Validate]: its target is not empty,
    and no rule of the two tables of the rewriter made from it has an
    empty source or target label. *)
Theorem LoadFromFile_rules_have_labels (path : string) (cfg : Config) :
  LoadFromFile path = inl cfg ->
  (exists data, ReadFile path = inl data /\ YamlUnmarshal data = inl cfg)
  /\ Validate cfg = None
  /\ GetTargetPrometheus cfg <> EmptyString
  /\ Forall validRule (queryRules (New cfg))
  /\ Forall validRule (resultRules (New cfg)).
Proof.
  unfold LoadFromFile. intros Hload.
  destruct (ReadFile path) as [data|e] eqn:Hread; [|done].
  destruct (YamlUnmarshal data) as [cfg'|e] eqn:Hyaml; [|done].
  destruct (Validate cfg') as [e|] eqn:Hv; [done|].
  injection Hload as ->.
  apply Validate_None in Hv as [Ht Hms].
  split; [by exists data|]. split; [by apply Validate_None|].
  split; [done|]. split; by apply GetRules_valid.
Qed.

End Validation.

(** ** Queries, group by group *)

Section Groups.
Import GoStrings Config Rewriter QuerySyntax Selectors.

Lemma Split_nonempty (s : string) (sep : ascii) : Split s sep <> [].
Proof.
  induction s as [|c s IH]; cbn [Split]; [done|].
  destruct (Ascii.eqb c sep); [done|]. by destruct (Split s sep).
Qed.

Lemma Join_cons_head (c : ascii) (h : string) (t : list string) (sep : string) :
  Join (String c h :: t) sep = String c (Join (h :: t) sep).
Proof. by destruct t. Qed.

(** Joining the pieces of a split with the separator gives the text back. *)
Lemma Join_Split (s : string) (sep : ascii) :
  Join (Split s sep) (String sep EmptyString) = s.
Proof.
  induction s as [|c s IH]; [done|]. cbn [Split].
  pose proof (Split_nonempty s sep) as Hne.
  destruct (Ascii.eqb_spec c sep) as [->|Hc].
  - destruct (Split s sep) as [|h t]; [done|].
    change (Join (EmptyString :: h :: t) (String sep EmptyString))
      with (String sep (Join (h :: t) (String sep EmptyString))).
    by rewrite IH.
  - destruct (Split s sep) as [|h t]; [done|].
    by rewrite Join_cons_head, IH.
Qed.

Lemma Split_app_sep (p rest : string) (sep : ascii) :
  allBytes (fun c => negb (Ascii.eqb c sep)) p = true ->
  Split (p +:+ String sep rest) sep = p :: Split rest sep.
Proof.
  induction p as [|c p IH]; intros Hp.
  - rewrite append_nil_l. cbn [Split]. by rewrite Ascii.eqb_refl.
  - cbn [allBytes] in Hp. apply andb_true_iff in Hp as [Hc Hp].
    apply negb_true_iff in Hc. rewrite append_cons. cbn [Split].
    by rewrite Hc, (IH Hp).
Qed.

(** Splitting a joined list of pieces without separator gives the pieces. *)
Lemma Split_Join (parts : list string) (sep : ascii) :
  parts <> [] ->
  Forall (fun p => allBytes (fun c => negb (Ascii.eqb c sep)) p = true) parts ->
  Split (Join parts (String sep EmptyString)) sep = parts.
Proof.
  intros Hne Hparts. induction Hparts as [|p parts Hp Hrest IH]; [done|].
  destruct parts as [|q parts].
  - by apply Split_no_separator.
  - change (Join (p :: q :: parts) (String sep EmptyString))
      with (p +:+ String sep (Join (q :: parts) (String sep EmptyString))).
    rewrite (Split_app_sep _ _ _ Hp). f_equal. by apply IH.
Qed.

(** The scan with the identity for function gives the text back. *)
Lemma scanGroups_id (s : string) :
  forall pending,
    scanGroups (fun g => g) pending s
    = match pending with
      | None => s
      | Some inner => "{" +:+ inner +:+ s
      end.
Proof.
  induction s as [|c s IH]; intros [inner|]; cbn [scanGroups].
  - by rewrite append_nil_r.
  - done.
  - destruct (Ascii.eqb_spec c "}"%char) as [->|Hcl].
    { rewrite IH. by rewrite !append_assoc. }
    destruct (Ascii.eqb_spec c "{"%char) as [->|Hop].
    { rewrite IH. by rewrite append_nil_l. }
    rewrite IH. by rewrite !append_assoc.
  - destruct (Ascii.eqb_spec c "{"%char) as [->|Hop]; by rewrite IH.
Qed.

(** The scan applies its function to the groups of the text and to
    nothing else. *)
Lemma scanGroups_ext (f g : string -> string) (s : string) :
  forall pending,
    Forall (fun inner => f ("{" +:+ inner +:+ "}") = g ("{" +:+ inner +:+ "}"))
           (groupsOf pending s) ->
    scanGroups f pending s = scanGroups g pending s.
Proof.
  induction s as [|c s IH]; intros [inner|]; cbn [scanGroups groupsOf]; try done.
  - destruct (Ascii.eqb c "}"%char).
    { inversion 1 as [|? ? Hfg Hrest]. by rewrite Hfg, (IH None). }
    destruct (Ascii.eqb c "{"%char); intros H; by rewrite (IH _ H).
  - destruct (Ascii.eqb c "{"%char); intros H; by rewrite (IH _ H).
Qed.

Lemma rewriteGroup_no_match (rules : list Rule) (inner : string) :
  Forall (fun part => Forall (fun rule => matchesRule rule part = false) rules)
         (Split inner ","%char) ->
  rewriteGroup rules ("{" +:+ inner +:+ "}") = "{" +:+ inner +:+ "}".
Proof.
  intros Hparts. rewrite rewriteGroup_braced.
  assert (Hmap : map (rewritePart rules) (Split inner ","%char) = Split inner ","%char).
  { induction Hparts as [|part parts Hpart _ IH]; [done|]. cbn [map].
    by rewrite (rewritePart_no_match _ _ Hpart), IH. }
  by rewrite Hmap, Join_Split.
Qed.

(** [RewriteQuery] is the scan of the query with the rewriting of a group,
    also when the table is empty. *)
Lemma RewriteQuery_scan (r : Rewriter) (query : string) :
  RewriteQuery r query = ReplaceAllGroups (rewriteGroup (queryRules r)) query.
Proof.
  unfold RewriteQuery, ReplaceAllGroups.
  destruct (queryRules r) as [|rule rules]; [|done].
  rewrite (scanGroups_ext (rewriteGroup []) (fun g => g)).
  - by rewrite scanGroups_id.
  - apply List.Forall_forall. intros inner _. apply rewriteGroup_no_match.
    apply List.Forall_forall. intros part _. constructor.
Qed.

Lemma ReplaceAllGroups_first_group (f : string -> string) (pre inner rest : string) :
  noBrace pre = true -> noBrace inner = true ->
  ReplaceAllGroups f (pre +:+ "{" +:+ inner +:+ "}" +:+ rest)
  = pre +:+ f ("{" +:+ inner +:+ "}") +:+ ReplaceAllGroups f rest.
Proof.
  intros Hpre Hinner. unfold ReplaceAllGroups.
  rewrite (scanGroups_prefix _ _ _ Hpre). f_equal.
  rewrite append_cons, append_nil_l. cbn [scanGroups Ascii.eqb Bool.eqb].
  rewrite (append_cons "}"), append_nil_l.
  by rewrite (scanGroups_close f inner rest EmptyString Hinner).
Qed.

Lemma RewriteQuery_first_group (r : Rewriter) (pre inner rest : string) :
  noBrace pre = true -> noBrace inner = true ->
  RewriteQuery r (pre +:+ "{" +:+ inner +:+ "}" +:+ rest)
  = pre +:+ ("{" +:+ Join (map (rewritePart (queryRules r)) (Split inner ","%char)) ","
             +:+ "}")
    +:+ RewriteQuery r rest.
Proof.
  intros Hpre Hinner. rewrite !RewriteQuery_scan.
  by rewrite (ReplaceAllGroups_first_group _ _ _ _ Hpre Hinner), rewriteGroup_braced.
Qed.

(** X8.  The query is rewritten group by group.  The text before the
    first group is kept; the group is split at its commas, every fragment
    is rewritten by the first rule that matches it, and the fragments are
    joined with commas between the braces; what follows the group is
    rewritten in the same way. *)
Theorem RewriteQuery_group_by_group (r : Rewriter) (pre inner rest : string) :
  noBrace pre = true -> noBrace inner = true ->
  RewriteQuery r (pre +:+ "{" +:+ inner +:+ "}" +:+ rest)
  = pre +:+ ("{" +:+ Join (map (rewritePart (queryRules r)) (Split inner ","%char)) ","
             +:+ "}")
    +:+ RewriteQuery r rest.
Proof. apply RewriteQuery_first_group. Qed.

(** X9.  A query in which no fragment of any group is matched by any rule
    comes back byte for byte: selectors on labels without a rule, empty
    selectors, and braces that do not form a group are all left alone. *)
Theorem RewriteQuery_unmatched_unchanged (r : Rewriter) (query : string) :
  noMatch (queryRules r) query = true -> RewriteQuery r query = query.
Proof.
  intros Hno. rewrite RewriteQuery_scan. unfold ReplaceAllGroups.
  rewrite (scanGroups_ext _ (fun g => g)); [by rewrite scanGroups_id|].
  apply List.Forall_forall. intros inner Hinner. apply rewriteGroup_no_match.
  unfold noMatch in Hno.
  pose proof (proj1 (forallb_forall _ _) Hno inner Hinner) as Hparts.
  apply List.Forall_forall. intros part Hpart.
  pose proof (proj1 (forallb_forall _ _) Hparts part Hpart) as Hrules.
  apply List.Forall_forall. intros rule Hrule.
  by apply negb_true_iff, (proj1 (forallb_forall _ _) Hrules rule Hrule).
Qed.

End Groups.

(** ** Selectors in the restricted syntax *)

Section Matchers.
Import GoStrings Config Rewriter QuerySyntax Selectors.

Lemma string_of_list_app (a b : list ascii) :
  string_of_list_ascii (a ++ b)%list = string_of_list_ascii a +:+ string_of_list_ascii b.
Proof.
  induction a as [|c a IH]; [done|]. cbn [app string_of_list_ascii].
  by rewrite append_cons, IH.
Qed.

Lemma rev_app (a b : string) : GoStrings.rev (a +:+ b) = GoStrings.rev b +:+ GoStrings.rev a.
Proof.
  unfold GoStrings.rev. by rewrite list_ascii_of_append, List.rev_app_distr, string_of_list_app.
Qed.

Lemma allBytes_rev (ok : ascii -> bool) (s : string) :
  allBytes ok (GoStrings.rev s) = allBytes ok s.
Proof.
  induction s as [|c s IH]; [done|].
  replace (GoStrings.rev (String c s)) with (GoStrings.rev s +:+ String c EmptyString)
    by (symmetry; apply (rev_app (String c EmptyString) s)).
  rewrite allBytes_app, IH. cbn [allBytes]. rewrite andb_true_r. apply andb_comm.
Qed.

Lemma trimLeft_spaces (ws x : string) :
  spaces ws = true -> trimLeft (ws +:+ x) = trimLeft x.
Proof.
  unfold spaces. induction ws as [|c ws IH]; [done|]. cbn [allBytes].
  intros [Hc Hws]%andb_true_iff. rewrite append_cons. cbn [trimLeft].
  rewrite Hc. by apply IH.
Qed.

Lemma trimLeftRev_spaces (ws x : string) :
  spaces ws = true -> trimLeftRev (ws +:+ x) = trimLeftRev x.
Proof.
  unfold spaces. induction ws as [|c ws IH]; [done|]. cbn [allBytes].
  intros [Hc Hws]%andb_true_iff. rewrite append_cons. cbn [trimLeftRev].
  rewrite Hc. by apply IH.
Qed.

(** [TrimSpace] removes white space of ASCII on both sides of a text that
    starts and ends with a byte of ASCII that is not white space. *)
Lemma TrimSpace_spaced (c d : ascii) (body ws1 ws2 : string) :
  isPlainByte c = true -> isPlainByte d = true ->
  spaces ws1 = true -> spaces ws2 = true ->
  TrimSpace (ws1 +:+ (String c body +:+ String d EmptyString) +:+ ws2)
  = String c body +:+ String d EmptyString.
Proof.
  intros Hc Hd H1 H2. unfold TrimSpace.
  rewrite (trimLeft_spaces _ _ H1).
  assert (Hleft : trimLeft ((String c body +:+ String d EmptyString) +:+ ws2)
                  = (String c body +:+ String d EmptyString) +:+ ws2).
  { rewrite !append_cons. by apply trimLeft_plain. }
  rewrite Hleft, rev_app.
  rewrite trimLeftRev_spaces by (unfold spaces in *; by rewrite allBytes_rev).
  by rewrite rev_last, (trimLeftRev_plain _ _ Hd), <- rev_last, rev_rev.
Qed.

Lemma matcher_ends (label op v : string) :
  labelName label = true ->
  exists c body,
    label +:+ op +:+ quoted v = String c body +:+ String "034"%char EmptyString
    /\ isPlainByte c = true.
Proof.
  intros Hl. unfold labelName in Hl. apply andb_true_iff in Hl as [Hne Hl].
  destruct label as [|c label]; [done|].
  cbn [allBytes] in Hl. apply andb_true_iff in Hl as [Hc _].
  exists c, (label +:+ op +:+ dq +:+ v). split; [|by apply label_byte_plain].
  unfold quoted, dq. by rewrite !append_cons, !append_assoc.
Qed.

Lemma matcher_spaced_trimmed (label op v ws1 ws2 : string) :
  labelName label = true -> spaces ws1 = true -> spaces ws2 = true ->
  TrimSpace (ws1 +:+ (label +:+ op +:+ quoted v) +:+ ws2) = label +:+ op +:+ quoted v.
Proof.
  intros Hl H1 H2. destruct (matcher_ends label op v Hl) as (c & body & -> & Hc).
  by apply TrimSpace_spaced.
Qed.

Lemma matchesRule_spaced (rule : Rule) (label op v ws1 ws2 : string) :
  labelName label = true -> spaces ws1 = true -> spaces ws2 = true ->
  matchesRule rule (ws1 +:+ (label +:+ op +:+ quoted v) +:+ ws2)
  = matchesRule rule (label +:+ op +:+ quoted v).
Proof.
  intros Hl H1 H2. unfold matchesRule.
  by rewrite (matcher_spaced_trimmed _ _ _ _ _ Hl H1 H2), (matcher_trimmed _ _ _ Hl).
Qed.

Lemma space_byte_facts (c : ascii) :
  isSpace1 c = true ->
  isOperatorByte c = false /\ isBrace c = false /\ Ascii.eqb c ","%char = false.
Proof. destruct c as [[] [] [] [] [] [] [] []]; done. Qed.

Lemma spaces_facts (ws : string) :
  spaces ws = true ->
  operatorFree ws = true /\ noBrace ws = true
  /\ allBytes (fun c => negb (Ascii.eqb c ","%char)) ws = true.
Proof.
  intros Hws. repeat split; (eapply allBytes_weaken; [|exact Hws]); intros c Hc;
    destruct (space_byte_facts c Hc) as (H1 & H2 & H3); by rewrite ?H1, ?H2, ?H3.
Qed.

(** The operator that is detected in a text made of a part without
    operator byte, an operator, a quote and a rest without operator byte. *)
Lemma detectOperator_quote (label op w : string) :
  operatorFree label = true -> operatorFree w = true -> In op operators ->
  detectOperator (label +:+ op +:+ String "034"%char w) = op
  /\ indexOf (label +:+ op +:+ String "034"%char w) op = Some (String.length label).
Proof.
  intros Hl Hw Hop. unfold detectOperator, Contains, Index.
  destruct Hop as [<-|[<-|[<-|[<-|[]]]]];
    rewrite !(indexOf_after_label label) by done;
    rewrite ?append_cons, ?append_nil_l;
    cbn [indexOf HasPrefix Ascii.eqb Bool.eqb andb];
    rewrite ?(indexOf_operatorFree w) by done;
    cbn [fmap option_fmap option_map Z.leb Z.compare Z.of_nat];
    rewrite ?Nat.add_0_r; split; try reflexivity.
  all: destruct (String.length label); reflexivity.
Qed.

Lemma replacePart_quote (rule : Rule) (label op w : string) :
  operatorFree label = true -> operatorFree w = true -> In op operators ->
  replacePart rule (label +:+ op +:+ String "034"%char w)
  = TargetLabel rule +:+ op +:+ String "034"%char w.
Proof.
  intros Hl Hw Hop. unfold replacePart.
  destruct (detectOperator_quote label op w Hl Hw Hop) as [-> Hidx].
  unfold Index, sliceFrom, len. rewrite Hidx.
  replace (Z.to_nat (Z.of_nat (String.length label) + Z.of_nat (String.length op)))
    with (String.length label + String.length op) by lia.
  rewrite <- (length_append label op), <- (append_assoc label op).
  by rewrite dropBytes_app.
Qed.

Lemma wellFormed_parts (m : Matcher) :
  wellFormed m = true ->
  labelName (MLabel m) = true /\ In (MOp m) operators /\ plainValue (MValue m) = true.
Proof.
  unfold wellFormed. intros [[Hl Hop]%andb_true_iff Hv]%andb_true_iff.
  split; [done|]. split; [|done].
  apply existsb_exists in Hop as (op & Hin & Heq). apply String.eqb_eq in Heq. by subst.
Qed.

(** A fragment that is one matcher of the restricted syntax between white
    space of ASCII: the first rule for its label, when there is one,
    replaces the label and the white space before it; without a rule the
    fragment is kept. *)
Lemma rewritePart_matcher (rules : list Rule) (ws1 ws2 : string) (m : Matcher) :
  Forall (fun rule => operatorFree (SourceLabel rule) = true) rules ->
  wellFormed m = true -> spaces ws1 = true -> spaces ws2 = true ->
  rewritePart rules (ws1 +:+ matcherText m +:+ ws2)
  = if hasRule rules (MLabel m)
    then matcherText (renameMatcher rules m) +:+ ws2
    else ws1 +:+ matcherText m +:+ ws2.
Proof.
  intros Hrules Hm H1 H2.
  destruct (wellFormed_parts m Hm) as (Hl & Hop & Hv).
  destruct (plainValue_parts _ Hv) as (Hfree & _ & _).
  destruct (spaces_facts _ H1) as (Hf1 & _ & _).
  destruct (spaces_facts _ H2) as (Hf2 & _ & _).
  unfold matcherText. cbn [renameMatcher MLabel MOp MValue].
  induction Hrules as [|rule rules Hrule _ IH]; [done|].
  cbn [rewritePart hasRule existsb renameLabel].
  rewrite (matchesRule_spaced _ _ _ _ _ _ Hl H1 H2).
  destruct (String.eqb_spec (SourceLabel rule) (MLabel m)) as [Heq|Hne].
  - rewrite <- Heq at 1. rewrite matchesRule_own_label by (by rewrite ?Heq).
    cbn [orb].
    replace (ws1 +:+ (MLabel m +:+ MOp m +:+ quoted (MValue m)) +:+ ws2)
      with ((ws1 +:+ MLabel m) +:+ MOp m +:+ String "034"%char (MValue m +:+ dq +:+ ws2))
      by (unfold quoted, dq; by rewrite !append_assoc).
    rewrite replacePart_quote; try done.
    + unfold quoted, dq. by rewrite !append_assoc.
    + pose proof (labelName_operatorFree _ Hl) as Hlf.
      unfold operatorFree in *. by rewrite allBytes_app, Hf1, Hlf.
    + unfold operatorFree in *. by rewrite !allBytes_app, Hfree, Hf2.
  - rewrite matchesRule_other_label by done. cbn [orb]. apply IH.
Qed.

Lemma rewritePart_matcherText (rules : list Rule) (m : Matcher) :
  Forall (fun rule => operatorFree (SourceLabel rule) = true) rules ->
  wellFormed m = true ->
  rewritePart rules (matcherText m) = matcherText (renameMatcher rules m).
Proof.
  intros Hrules Hm.
  pose proof (rewritePart_matcher rules EmptyString EmptyString m Hrules Hm eq_refl eq_refl)
    as Hpart.
  rewrite append_nil_l, !append_nil_r in Hpart. rewrite Hpart.
  destruct (hasRule rules (MLabel m)) eqn:Hhas; [done|].
  unfold matcherText, renameMatcher. cbn [MLabel MOp MValue]. f_equal.
  clear Hpart Hrules. induction rules as [|rule rules IH]; [done|].
  cbn [hasRule existsb] in Hhas. apply orb_false_iff in Hhas as [Hne Hhas].
  cbn [renameLabel]. rewrite Hne. by apply IH.
Qed.

Lemma matcherText_facts (m : Matcher) :
  wellFormed m = true ->
  noBrace (matcherText m) = true
  /\ allBytes (fun c => negb (Ascii.eqb c ","%char)) (matcherText m) = true.
Proof.
  intros Hm. destruct (wellFormed_parts m Hm) as (Hl & Hop & Hv).
  destruct (matcher_one_part _ _ _ Hl Hop Hv) as [Hb Hs]. split; [done|].
  destruct (plainValue_parts _ Hv) as (_ & _ & Hc).
  unfold labelName in Hl. apply andb_true_iff in Hl as [_ Hl].
  assert (Hlc : allBytes (fun c => negb (Ascii.eqb c ","%char)) (MLabel m) = true).
  { eapply allBytes_weaken; [|exact Hl]. intros c [_ ->]%label_byte_facts. done. }
  unfold matcherText, quoted. rewrite !allBytes_app, Hlc, Hc.
  by destruct Hop as [<-|[<-|[<-|[<-|[]]]]].
Qed.

Lemma rewritePart_empty (rules : list Rule) : rewritePart rules EmptyString = EmptyString.
Proof.
  apply rewritePart_no_match, List.Forall_forall. intros rule _.
  unfold matchesRule. change (TrimSpace EmptyString) with EmptyString.
  by destruct (SourceLabel rule).
Qed.

Lemma noBrace_Join (parts : list string) :
  Forall (fun p => noBrace p = true) parts -> noBrace (Join parts ",") = true.
Proof.
  induction 1 as [|p parts Hp Hparts IH]; [done|].
  destruct parts as [|q parts]; [done|].
  change (Join (p :: q :: parts) ",") with (p +:+ "," +:+ Join (q :: parts) ",").
  unfold noBrace in *. by rewrite !allBytes_app, Hp, IH.
Qed.

(** X10.  A selector of the restricted syntax is rewritten matcher by
    matcher.  When the source labels of the table hold no byte of an
    operator, the selector that lists the matchers [ms], each a label
    name, one of the four operators and a quoted value without comma,
    brace or operator byte, becomes the selector of the same matchers in
    the same order, each with its operator and value and with the target
    label of the first rule for its label, or with its own label when the
    table has no rule for it; the text before the selector is kept and
    what follows it is rewritten in the same way. *)
Theorem RewriteQuery_renames_matchers
    (r : Rewriter) (pre rest : string) (ms : list Matcher) :
  Forall (fun rule => operatorFree (SourceLabel rule) = true) (queryRules r) ->
  forallb wellFormed ms = true ->
  noBrace pre = true ->
  RewriteQuery r (pre +:+ selector ms +:+ rest)
  = pre +:+ selector (map (renameMatcher (queryRules r)) ms) +:+ RewriteQuery r rest.
Proof.
  intros Hrules Hms Hpre.
  assert (Hall : Forall (fun m => wellFormed m = true) ms).
  { apply List.Forall_forall. intros m Hm. exact (proj1 (forallb_forall _ _) Hms m Hm). }
  assert (Hbrace : noBrace (Join (map matcherText ms) ",") = true).
  { apply noBrace_Join, List.Forall_forall. intros p Hp.
    apply in_map_iff in Hp as (m & <- & Hm).
    exact (proj1 (matcherText_facts m (proj1 (List.Forall_forall _ _) Hall m Hm))). }
  unfold selector at 1.
  replace (pre +:+ ("{" +:+ Join (map matcherText ms) "," +:+ "}") +:+ rest)
    with (pre +:+ "{" +:+ Join (map matcherText ms) "," +:+ "}" +:+ rest)
    by (by rewrite !append_assoc).
  rewrite (RewriteQuery_first_group r _ _ _ Hpre Hbrace). f_equal. f_equal.
  unfold selector. f_equal. f_equal.
  destruct ms as [|m ms]; [cbn [map Join Split]; by rewrite rewritePart_empty|].
  rewrite Split_Join.
  - f_equal. rewrite !map_map. apply map_ext_in. intros m' Hm'.
    apply rewritePart_matcherText; [done|].
    exact (proj1 (List.Forall_forall _ _) Hall m' Hm').
  - done.
  - apply List.Forall_forall. intros p Hp. apply in_map_iff in Hp as (m' & <- & Hm').
    exact (proj2 (matcherText_facts m' (proj1 (List.Forall_forall _ _) Hall m' Hm'))).
Qed.

(** X11.  White space around a matcher.  When the source labels of the
    table hold no byte of an operator, in a selector that holds one
    matcher of the restricted syntax between white space of ASCII, after
    text without braces, a rule for the label of the matcher replaces the
    label together with the white space before it, and keeps the operator,
    the value and the white space after the value; without a rule for the
    label the selector is kept, white space included.  What follows the
    selector is rewritten in the same way.  The condition on the source
    labels is needed: a source label that ends with a byte of an operator
    can match a matcher of another label. *)
Theorem RewriteQuery_surrounding_space
    (r : Rewriter) (pre rest ws1 ws2 : string) (m : Matcher) :
  Forall (fun rule => operatorFree (SourceLabel rule) = true) (queryRules r) ->
  wellFormed m = true -> spaces ws1 = true -> spaces ws2 = true ->
  noBrace pre = true ->
  RewriteQuery r (pre +:+ "{" +:+ (ws1 +:+ matcherText m +:+ ws2) +:+ "}" +:+ rest)
  = pre +:+ "{"
    +:+ (if hasRule (queryRules r) (MLabel m)
         then matcherText (renameMatcher (queryRules r) m) +:+ ws2
         else ws1 +:+ matcherText m +:+ ws2)
    +:+ "}" +:+ RewriteQuery r rest.
Proof.
  intros Hrules Hm H1 H2 Hpre.
  destruct (matcherText_facts m Hm) as [Hb Hc].
  destruct (spaces_facts _ H1) as (_ & Hb1 & Hc1).
  destruct (spaces_facts _ H2) as (_ & Hb2 & Hc2).
  assert (Hbrace : noBrace (ws1 +:+ matcherText m +:+ ws2) = true).
  { unfold noBrace in *. by rewrite !allBytes_app, Hb1, Hb, Hb2. }
  rewrite (RewriteQuery_first_group r _ _ _ Hpre Hbrace).
  rewrite Split_no_separator by (by rewrite !allBytes_app, Hc1, Hc, Hc2).
  cbn [map Join]. rewrite (rewritePart_matcher _ _ _ _ Hrules Hm H1 H2).
  by rewrite !append_assoc.
Qed.

End Matchers.

(** ** Parameters, requests and responses *)

Section Traffic.
Import GoStrings Config Rewriter Proxy.
Context {urlCodec : UrlCodec} {jsonCodec : JSONCodec} {gz : Gzip}.

Lemma rewriteParams_at (r : Rewriter) (q : gmap string (list string)) (k : string) :
  rewriteParams r q !! k
  = if String.eqb k "query" || String.eqb k "match[]"
    then map (RewriteQuery r) <$> q !! k
    else q !! k.
Proof.
  unfold rewriteParams. cbn [fold_left].
  destruct (String.eqb_spec k "query") as [->|Hq];
    [|destruct (String.eqb_spec k "match[]") as [->|Hm]]; cbn [orb].
  - destruct (q !! "query") as [values|] eqn:Hquery.
    + rewrite lookup_insert_ne by done.
      destruct (q !! "match[]");
        rewrite ?lookup_insert_ne by done; by rewrite lookup_insert_eq.
    + destruct (q !! "match[]"); rewrite ?lookup_insert_ne by done; by rewrite Hquery.
  - destruct (q !! "query") as [values|] eqn:Hquery;
      rewrite ?lookup_insert_ne by done;
      destruct (q !! "match[]") as [values'|] eqn:Hmatch;
      rewrite ?lookup_insert_eq, ?lookup_insert_ne by done; by rewrite ?Hmatch.
  - destruct (q !! "query") as [values|] eqn:Hquery;
      rewrite ?lookup_insert_ne by done;
      destruct (q !! "match[]") as [values'|] eqn:Hmatch;
      by rewrite ?lookup_insert_ne by done.
Qed.

Lemma rewriteForm_at (p : PrometheusProxy) (form : gmap string (list string)) (k : string) :
  rewriteForm p form !! k
  = if String.eqb k "query" || String.eqb k "match[]"
    then map (RewriteQuery (rewriter p)) <$> form !! k
    else form !! k.
Proof.
  unfold rewriteForm. rewrite map_lookup_imap.
  destruct (form !! k) as [values|]; cbn; by destruct (_ || _).
Qed.

(** X12.  The loop of [RewriteQueryURL] over the parameters and the loop
    of [rewriteRequest] over the form fields compute the same map: every
    value of [query] and of [match[]] is replaced by its rewriting, in
    place; every other parameter keeps its values, and no parameter is
    added or removed. *)
Theorem form_and_url_parameters (p : PrometheusProxy) (q : gmap string (list string)) :
  (forall k,
      rewriteParams (rewriter p) q !! k
      = if String.eqb k "query" || String.eqb k "match[]"
        then map (RewriteQuery (rewriter p)) <$> q !! k
        else q !! k)
  /\ rewriteForm p q = rewriteParams (rewriter p) q
  /\ (forall k, is_Some (rewriteParams (rewriter p) q !! k) <-> is_Some (q !! k))
  /\ (forall k values,
        q !! k = Some values ->
        exists values',
          rewriteParams (rewriter p) q !! k = Some values'
          /\ length values' = length values).
Proof.
  split; [apply rewriteParams_at|]. split; [|split].
  - apply map_eq. intros k. by rewrite rewriteForm_at, rewriteParams_at.
  - intros k. rewrite rewriteParams_at.
    destruct (_ || _); [|done]. by rewrite fmap_is_Some.
  - intros k values Hk. rewrite rewriteParams_at, Hk.
    destruct (_ || _); eexists; (split; [reflexivity|]); [apply length_map | done].
Qed.

Lemma rewriteParams_fixed (r : Rewriter) (q : gmap string (list string)) :
  queryRules r = [] \/ (q !! "query" = None /\ q !! "match[]" = None) ->
  rewriteParams r q = q.
Proof.
  intros Hcase. apply map_eq. intros k. rewrite rewriteParams_at.
  destruct (String.eqb_spec k "query") as [->|Hq];
    [|destruct (String.eqb_spec k "match[]") as [->|Hm]]; cbn [orb]; [| |done].
  all: destruct Hcase as [Hr|[H1 H2]]; [|by rewrite ?H1, ?H2].
  all: destruct (q !! _) as [values|]; [|done]; cbn; f_equal.
  all: rewrite <- (map_id values) at 2; apply map_ext; intros query.
  all: unfold RewriteQuery; by rewrite Hr.
Qed.

(** X13.  [RewriteQueryURL] always writes the raw query again from the
    parsed parameters.  With an empty query table, or for a URL that has
    neither a [query] nor a [match[]] parameter, the new raw query is the
    encoding of the parameters that were parsed, with no value changed;
    scheme, host and path are never touched. *)
Theorem RewriteQueryURL_reencodes (r : Rewriter) (u : URL) :
  queryRules r = []
  \/ (fst (ParseQuery (RawQuery u)) !! "query" = None
      /\ fst (ParseQuery (RawQuery u)) !! "match[]" = None) ->
  RewriteQueryURL r u
  = {| Scheme := Scheme u; Host := Host u; Path := Path u;
       RawQuery := Encode (fst (ParseQuery (RawQuery u))) |}.
Proof.
  intros Hcase. unfold RewriteQueryURL. by rewrite (rewriteParams_fixed r _ Hcase).
Qed.

(** X14.  A form body that cannot be used is not put back.  For a [POST]
    with the form content type, when reading the body fails, or when the
    body is read and [url.ParseQuery] reports an error, [rewriteRequest]
    returns with the URL rewritten, the headers and the content length
    as received, and the body reader as the read left it: after a parse
    error the request that is forwarded has no byte of body left. *)
Theorem rewriteRequest_form_error (p : PrometheusProxy) (req : Request) :
  Method req = "POST" ->
  HeaderGet (ReqHeader req) "Content-Type" = "application/x-www-form-urlencoded" ->
  hasBody (ReqBody req) = true ->
  (ReadAll (ReqBody req) = None
   \/ exists body, ReadAll (ReqBody req) = Some body /\ snd (ParseQuery body) = true) ->
  rewriteRequest p req
  = {| Method := Method req;
       ReqURL := RewriteQueryURL (rewriter p) (ReqURL req);
       ReqHeader := ReqHeader req;
       ReqBody := drained (ReqBody req);
       ReqContentLength := ReqContentLength req |}
  /\ (forall body, ReadAll (ReqBody req) = Some body ->
      ReqBody (rewriteRequest p req) = bodyOf EmptyString
      /\ ReadAll (ReqBody (rewriteRequest p req)) = Some EmptyString).
Proof.
  intros HM HC HB Herr.
  assert (Hreq : rewriteRequest p req
                 = {| Method := Method req;
                      ReqURL := RewriteQueryURL (rewriter p) (ReqURL req);
                      ReqHeader := ReqHeader req;
                      ReqBody := drained (ReqBody req);
                      ReqContentLength := ReqContentLength req |}).
  { unfold rewriteRequest. rewrite HM, HC, HB.
    cbn [String.eqb Ascii.eqb Bool.eqb andb].
    destruct Herr as [->|(body & -> & Hp)]; [done|].
    destruct (ParseQuery body) as [form err]. cbn [snd] in Hp. by rewrite Hp. }
  split; [done|]. intros body Hbody. rewrite Hreq. cbn [ReqBody].
  destruct (ReqBody req) as [|content [|]]; try done.
Qed.

(** X15.  What [rewriteRequest] never changes: the method, the scheme,
    host and path of the URL, and every header other than
    [Content-Length]; the URL it leaves is always the one
    [RewriteQueryURL] returns, on every path through the function. *)
Theorem rewriteRequest_keeps (p : PrometheusProxy) (req : Request) :
  Method (rewriteRequest p req) = Method req
  /\ ReqURL (rewriteRequest p req) = RewriteQueryURL (rewriter p) (ReqURL req)
  /\ Scheme (ReqURL (rewriteRequest p req)) = Scheme (ReqURL req)
  /\ Host (ReqURL (rewriteRequest p req)) = Host (ReqURL req)
  /\ Path (ReqURL (rewriteRequest p req)) = Path (ReqURL req)
  /\ (forall k, k <> "Content-Length" ->
      ReqHeader (rewriteRequest p req) !! k = ReqHeader req !! k).
Proof.
  assert (Hurl : ReqURL (rewriteRequest p req) = RewriteQueryURL (rewriter p) (ReqURL req))
    by apply rewriteRequest_url.
  split; [|split; [done|]].
  - unfold rewriteRequest.
    destruct (String.eqb _ "POST" && _); [|done].
    destruct (String.eqb _ _); [|done].
    destruct (ReadAll _); [|done]. by destruct (ParseQuery _) as [? []].
  - rewrite Hurl. repeat split; try done.
    intros k Hk. unfold rewriteRequest.
    destruct (String.eqb _ "POST" && _); [|done].
    destruct (String.eqb _ _); [|done].
    destruct (ReadAll _); [|done]. destruct (ParseQuery _) as [? []]; [done|].
    cbn [ReqHeader]. unfold HeaderSet. by rewrite lookup_insert_ne.
Qed.

(** X16.  [rewriteResponse] returns an error in one case only: the
    response is JSON and reading its body fails.  The headers and the
    content length are then as received.  A response that is not JSON is
    returned as it is, its body unread. *)
Theorem rewriteResponse_error_iff (p : PrometheusProxy) (resp : Response) :
  (snd (rewriteResponse p resp) = true
   <-> isJSON resp = true /\ ReadAll (RespBody resp) = None)
  /\ (snd (rewriteResponse p resp) = true ->
      RespHeader (fst (rewriteResponse p resp)) = RespHeader resp
      /\ RespContentLength (fst (rewriteResponse p resp)) = RespContentLength resp)
  /\ (isJSON resp = false -> rewriteResponse p resp = (resp, false)).
Proof.
  unfold isJSON, rewriteResponse.
  destruct (Contains _ "application/json"); cbn [negb].
  - destruct (ReadAll (RespBody resp)) as [body|].
    + destruct (if String.eqb _ "gzip" then gunzip body else Some body) as [plain|].
      * destruct (if String.eqb _ "gzip" then _ else _) as [final header].
        cbn [snd]. split; [split; [done | by intros [_ ?]] | done].
      * cbn [snd]. split; [split; [done | by intros [_ ?]] | done].
    + cbn [snd fst RespHeader RespContentLength]. done.
  - cbn [snd]. split; [split; [done | by intros [? _]] | done].
Qed.

(** X17.  Of the headers of a response, [rewriteResponse] writes
    [Content-Length] and may delete [Content-Encoding]; every other header
    is as received, and [Content-Encoding] is either as received or
    absent. *)
Theorem rewriteResponse_headers (p : PrometheusProxy) (resp : Response) :
  (forall k, k <> "Content-Length" -> k <> "Content-Encoding" ->
      RespHeader (fst (rewriteResponse p resp)) !! k = RespHeader resp !! k)
  /\ (RespHeader (fst (rewriteResponse p resp)) !! "Content-Encoding"
      = RespHeader resp !! "Content-Encoding"
      \/ RespHeader (fst (rewriteResponse p resp)) !! "Content-Encoding" = None).
Proof.
  unfold rewriteResponse.
  destruct (negb _); [by auto|].
  destruct (ReadAll (RespBody resp)) as [body|]; [|by auto].
  destruct (String.eqb _ "gzip").
  - destruct (gunzip body) as [plain|]; [|by auto].
    destruct (gzipWrite _) as [compressed|]; cbn [fst RespHeader]; unfold HeaderSet, HeaderDel.
    + split; [intros k Hk _; by rewrite lookup_insert_ne | left; by rewrite lookup_insert_ne].
    + split.
      * intros k Hk Hk'. by rewrite lookup_insert_ne, lookup_delete_ne.
      * right. rewrite lookup_insert_ne by done. apply lookup_delete_eq.
  - cbn [fst RespHeader]. unfold HeaderSet.
    split; [intros k Hk _; by rewrite lookup_insert_ne | left; by rewrite lookup_insert_ne].
Qed.

(** X18.  Fail open on the response path.  When a JSON response is not
    gzip-encoded and its body is not a JSON object or [null] (an HTML
    error page, truncated JSON, a body under another encoding), the body
    that is sent is the body that was received, byte for byte, with
    [Content-Length] set to its length. *)
Theorem rewriteResponse_plain_fail_open
    (p : PrometheusProxy) (resp : Response) (body : string) :
  isJSON resp = true -> isGzip resp = false ->
  ReadAll (RespBody resp) = Some body ->
  Unmarshal body = None ->
  rewriteResponse p resp
  = ({| RespHeader := HeaderSet (RespHeader resp) "Content-Length" (Itoa (len body));
        RespBody := bodyOf body;
        RespContentLength := len body |}, false).
Proof.
  intros HJ HG HR HU.
  assert (Hplain : plainBody resp body = Some body) by (unfold plainBody; by rewrite HG).
  rewrite (rewriteResponse_rebuilt p resp body body HJ HR Hplain). cbn zeta.
  by rewrite HG, (RewriteResultJSON_unmarshal_error _ _ HU).
Qed.

End Traffic.

(** ** Label sets and result trees *)

Section Relabelling.
Import GoStrings Config Rewriter Trees.

Lemma relabelStep_at (metric : gmap string JSON) (rule : Rule) (k : string) :
  relabelStep metric rule !! k
  = match metric !! SourceLabel rule with
    | Some val =>
        if decide (k = SourceLabel rule) then None
        else if decide (k = TargetLabel rule) then Some val
        else metric !! k
    | None => metric !! k
    end.
Proof.
  destruct (metric !! SourceLabel rule) as [val|] eqn:Hsrc.
  - by apply relabelStep_lookup.
  - by rewrite relabelStep_absent.
Qed.

Lemma relabelStep_source_gone (metric : gmap string JSON) (rule : Rule) :
  relabelStep metric rule !! SourceLabel rule = None.
Proof.
  rewrite relabelStep_at.
  destruct (metric !! SourceLabel rule) eqn:Hsrc; [|done]. by rewrite decide_True.
Qed.

Lemma relabel_other (rules : list Rule) (metric : gmap string JSON) (k : string) :
  Forall (fun rule => k <> SourceLabel rule /\ k <> TargetLabel rule) rules ->
  relabel rules metric !! k = metric !! k.
Proof.
  intros Hk. revert metric.
  induction Hk as [|rule rules [Hs Ht] _ IH]; intros metric; [done|].
  cbn [relabel fold_left]. change (fold_left relabelStep rules ?m) with (relabel rules m).
  rewrite IH, relabelStep_at.
  destruct (metric !! SourceLabel rule); [|done].
  by rewrite !decide_False.
Qed.

Lemma relabel_absent_stays (rules : list Rule) (metric : gmap string JSON) (s : string) :
  metric !! s = None ->
  Forall (fun rule => TargetLabel rule <> s) rules ->
  relabel rules metric !! s = None.
Proof.
  intros Hs Hrules. revert metric Hs.
  induction Hrules as [|rule rules Ht _ IH]; intros metric Hs; [done|].
  cbn [relabel fold_left]. change (fold_left relabelStep rules ?m) with (relabel rules m).
  apply IH. rewrite relabelStep_at.
  destruct (metric !! SourceLabel rule); [|done].
  destruct (decide (s = SourceLabel rule)); [done|]. by rewrite decide_False.
Qed.

Lemma relabel_source_gone (rules : list Rule) (metric : gmap string JSON) (rule : Rule) :
  In rule rules ->
  Forall (fun rule' => TargetLabel rule' <> SourceLabel rule) rules ->
  relabel rules metric !! SourceLabel rule = None.
Proof.
  intros Hin Hrules. revert metric.
  induction Hrules as [|rule' rules Ht Hrules IH]; intros metric; [done|].
  cbn [relabel fold_left]. change (fold_left relabelStep rules ?m) with (relabel rules m).
  destruct Hin as [->|Hin]; [|by apply IH].
  apply relabel_absent_stays; [apply relabelStep_source_gone | done].
Qed.

Lemma relabel_no_source (rules : list Rule) (metric : gmap string JSON) :
  Forall (fun rule => metric !! SourceLabel rule = None) rules ->
  relabel rules metric = metric.
Proof.
  induction 1 as [|rule rules Hrule _ IH]; [done|].
  cbn [relabel fold_left]. by rewrite (relabelStep_absent _ _ Hrule).
Qed.

Lemma relabelStep_size (metric : gmap string JSON) (rule : Rule) :
  size (relabelStep metric rule) <= size metric.
Proof.
  unfold relabelStep. destruct (metric !! SourceLabel rule) as [val|] eqn:Hsrc; [|done].
  destruct (decide (SourceLabel rule = TargetLabel rule)) as [Heq|Hne].
  - rewrite <- Heq, map_size_delete_Some by (by rewrite lookup_insert_eq).
    rewrite map_size_insert_Some by done. lia.
  - rewrite map_size_delete_Some by (by rewrite lookup_insert_ne).
    rewrite map_size_insert. destruct (metric !! TargetLabel rule); simpl; lia.
Qed.

Lemma relabelStep_keys (metric : gmap string JSON) (rule : Rule) (k : string) :
  is_Some (relabelStep metric rule !! k) ->
  is_Some (metric !! k) \/ k = TargetLabel rule.
Proof.
  rewrite relabelStep_at. destruct (metric !! SourceLabel rule); [|by left].
  destruct (decide (k = SourceLabel rule)); [by intros [? ?]|].
  destruct (decide (k = TargetLabel rule)); [by right | by left].
Qed.

(** X19.  Relabelling touches the labels that the rules name and no
    other: a label that is neither the source nor the target of a rule
    keeps its value, and a label that is absent and is the target of no
    rule stays absent. *)
Theorem relabel_keeps_other_labels
    (rules : list Rule) (metric : gmap string JSON) (k : string) :
  (Forall (fun rule => k <> SourceLabel rule /\ k <> TargetLabel rule) rules ->
   relabel rules metric !! k = metric !! k)
  /\ (metric !! k = None -> Forall (fun rule => TargetLabel rule <> k) rules ->
      relabel rules metric !! k = None).
Proof. split; [apply relabel_other | apply relabel_absent_stays]. Qed.

(** X20.  After relabelling, the source label of a rule is absent from the
    label set, whether it was present or not, unless it is also the target
    label of some rule of the table. *)
Theorem relabel_removes_sources
    (rules : list Rule) (metric : gmap string JSON) (rule : Rule) :
  In rule rules ->
  Forall (fun rule' => TargetLabel rule' <> SourceLabel rule) rules ->
  relabel rules metric !! SourceLabel rule = None.
Proof. apply relabel_source_gone. Qed.

(** X21.  Relabelling adds nothing of its own: the label set never
    grows, every label of the result was a label of the input or is the
    target of a rule, and every value of the result was a value of the
    input.  It can shrink: when the source and the target of a rule are
    both present and different, the value of the target is overwritten and
    one label is lost. *)
Theorem relabel_never_adds (rules : list Rule) (metric : gmap string JSON) :
  size (relabel rules metric) <= size metric
  /\ (forall k, is_Some (relabel rules metric !! k) ->
      is_Some (metric !! k) \/ exists rule, In rule rules /\ k = TargetLabel rule)
  /\ (forall k x, relabel rules metric !! k = Some x -> exists k', metric !! k' = Some x)
  /\ (forall rule val old,
        metric !! SourceLabel rule = Some val ->
        metric !! TargetLabel rule = Some old ->
        SourceLabel rule <> TargetLabel rule ->
        relabelStep metric rule !! TargetLabel rule = Some val
        /\ S (size (relabelStep metric rule)) = size metric).
Proof.
  split; [|split; [|split]].
  - revert metric. induction rules as [|rule rules IH]; intros metric; [done|].
    cbn [relabel fold_left]. change (fold_left relabelStep rules ?m) with (relabel rules m).
    pose proof (IH (relabelStep metric rule)). pose proof (relabelStep_size metric rule). lia.
  - revert metric. induction rules as [|rule rules IH]; intros metric k; [by left|].
    cbn [relabel fold_left]. change (fold_left relabelStep rules ?m) with (relabel rules m).
    intros [Hk|(rule' & Hin & ->)]%IH.
    + apply relabelStep_keys in Hk as [Hk| ->]; [by left|].
      right. exists rule. split; [by left | done].
    + right. exists rule'. split; [by right | done].
  - apply relabel_values.
  - intros rule val old Hsrc Htgt Hne. split.
    + rewrite (relabelStep_lookup _ _ val) by done.
      rewrite decide_False by done. by rewrite decide_True.
    + unfold relabelStep. rewrite Hsrc.
      rewrite map_size_delete_Some by (by rewrite lookup_insert_ne).
      rewrite map_size_insert_Some by done.
      assert (size metric <> 0); [|lia].
      intros Hz. apply map_size_empty_inv in Hz. by rewrite Hz in Hsrc.
Qed.

Lemma relabel_twice (rules : list Rule) (metric : gmap string JSON) :
  Forall (fun rule => Forall (fun rule' => TargetLabel rule' <> SourceLabel rule) rules) rules ->
  Forall (fun rule => relabel rules metric !! SourceLabel rule = None) rules.
Proof.
  intros Hrules. apply List.Forall_forall. intros rule Hin.
  apply relabel_source_gone; [done|].
  exact (proj1 (List.Forall_forall _ _) Hrules rule Hin).
Qed.

Lemma processJSONData_object (r : Rewriter) (v : gmap string JSON) :
  processJSONData r (JObject v)
  = JObject (processJSONData r <$> relabelMetric (resultRules r) v).
Proof.
  unfold processJSONData at 1. cbn [processJSONDataN]. f_equal.
  apply map_fmap_ext. intros k x Hx. apply processJSONData_fuel.
  apply relabelMetric_depth in Hx. lia.
Qed.

Lemma relabelMetric_at (rules : list Rule) (v : gmap string JSON) (k : string) :
  relabelMetric rules v !! k
  = match v !! k with
    | Some (JObject metric) =>
        if decide (k = "metric") then Some (JObject (relabel rules metric))
        else Some (JObject metric)
    | other => other
    end.
Proof.
  unfold relabelMetric.
  destruct (decide (k = "metric")) as [->|Hk].
  - destruct (v !! "metric") as [[| | | | |metric]|] eqn:Hm; rewrite ?Hm; try done.
    by rewrite lookup_insert_eq.
  - destruct (v !! "metric") as [[| | | | |metric]|] eqn:Hm;
      rewrite ?lookup_insert_ne by done; by destruct (v !! k) as [[| | | | |?]|].
Qed.

(** X22.  [processJSONData] keeps the shape of the document.  An object
    keeps its fields: each is processed in turn, and only the field
    [metric], when its value is an object, has its labels rewritten before
    it is processed.  An array keeps its length and its order.  A string,
    a number, a boolean and [null] are returned as they are. *)
Theorem processJSONData_keeps_shape (r : Rewriter) :
  (forall v : gmap string JSON,
      exists v',
        processJSONData r (JObject v) = JObject v'
        /\ (forall k, is_Some (v' !! k) <-> is_Some (v !! k))
        /\ (forall k x, v !! k = Some x ->
            k <> "metric" \/ (forall metric, x <> JObject metric) ->
            v' !! k = Some (processJSONData r x))
        /\ (forall metric, v !! "metric" = Some (JObject metric) ->
            v' !! "metric"
            = Some (processJSONData r (JObject (relabel (resultRules r) metric)))))
  /\ (forall l : list JSON,
        exists l',
          processJSONData r (JArray l) = JArray l'
          /\ length l' = length l
          /\ (forall i, l' !! i = processJSONData r <$> l !! i))
  /\ (forall x, isScalar x = true -> processJSONData r x = x).
Proof.
  split; [|split].
  - intros v. exists (processJSONData r <$> relabelMetric (resultRules r) v).
    split; [apply processJSONData_object|]. split; [|split].
    + intros k. rewrite lookup_fmap, fmap_is_Some, relabelMetric_at.
      destruct (v !! k) as [[| | | | |metric]|]; try done.
      destruct (decide (k = "metric")); by split; eauto.
    + intros k x Hk Hcase. rewrite lookup_fmap, relabelMetric_at, Hk.
      destruct x as [| | | | |metric]; try done.
      destruct (decide (k = "metric")) as [->|]; [|done].
      destruct Hcase as [?|Hno]; [done|]. by destruct (Hno metric).
    + intros metric Hm. rewrite lookup_fmap, relabelMetric_at, Hm.
      by rewrite decide_True.
  - intros l. exists (processJSONData r <$> l).
    split; [apply processJSONData_array|]. split; [apply length_fmap|].
    intros i. apply list_lookup_fmap.
  - intros x Hx. by destruct x.
Qed.

Lemma processJSONDataN_no_rules (fuel : nat) :
  forall data, processJSONDataN [] fuel data = data.
Proof.
  induction fuel as [|fuel IH]; intros data; [done|].
  destruct data as [| | | |l|m]; cbn [processJSONDataN]; try done.
  - f_equal. rewrite <- (list_fmap_id l) at 2. apply list_fmap_ext. intros i x _. apply IH.
  - f_equal.
    assert (Hm : relabelMetric [] m = m).
    { unfold relabelMetric. destruct (m !! "metric") as [[| | | | |metric]|] eqn:Hk; try done.
      by apply insert_id. }
    rewrite Hm. rewrite <- (map_fmap_id m) at 2. apply map_fmap_ext. intros k x _. apply IH.
Qed.

Lemma noMetricObject_fields (m : gmap string JSON) :
  noMetricObject (JObject m) = true ->
  (forall metric, m !! "metric" <> Some (JObject metric))
  /\ (forall k x, m !! k = Some x -> noMetricObject x = true).
Proof.
  cbn [noMetricObject]. intros Hm. split.
  - intros metric Hk. by rewrite Hk in Hm.
  - intros k x Hk.
    assert (Hall : forallb id ((map_to_list (noMetricObject <$> m)).*2) = true)
      by (by destruct (m !! "metric") as [[| | | | |?]|]).
    apply (proj1 (forallb_forall _ _) Hall (noMetricObject x)).
    apply list_elem_of_In, list_elem_of_fmap. exists (k, noMetricObject x). split; [done|].
    apply elem_of_map_to_list. by rewrite lookup_fmap, Hk.
Qed.

Lemma processJSONDataN_noMetricObject (rules : list Rule) (fuel : nat) :
  forall data, noMetricObject data = true -> processJSONDataN rules fuel data = data.
Proof.
  induction fuel as [|fuel IH]; intros data Hdata; [done|].
  destruct data as [| | | |l|m]; cbn [processJSONDataN]; try done.
  - f_equal. rewrite <- (list_fmap_id l) at 2. apply list_fmap_ext. intros i x Hx.
    apply IH. cbn [noMetricObject] in Hdata.
    apply (proj1 (forallb_forall _ _) Hdata (noMetricObject x)).
    apply list_elem_of_In, list_elem_of_fmap. exists x. split; [done|].
    by eapply list_elem_of_lookup_2.
  - f_equal. destruct (noMetricObject_fields m Hdata) as [Hno Hfields].
    assert (Hm : relabelMetric rules m = m).
    { unfold relabelMetric. destruct (m !! "metric") as [[| | | | |metric]|] eqn:Hk; try done.
      by destruct (Hno metric). }
    rewrite Hm. rewrite <- (map_fmap_id m) at 2. apply map_fmap_ext. intros k x Hx.
    apply IH. by eapply Hfields.
Qed.

(** X23.  [processJSONData] changes nothing but label sets: with an empty
    result table, and on a tree in which no object has a field [metric]
    whose value is an object, the tree is returned as it is. *)
Theorem processJSONData_identity (r : Rewriter) (data : JSON) :
  resultRules r = [] \/ noMetricObject data = true ->
  processJSONData r data = data.
Proof.
  unfold processJSONData. intros [Hr|Hdata].
  - rewrite Hr. apply processJSONDataN_no_rules.
  - by apply processJSONDataN_noMetricObject.
Qed.

Lemma processJSONData_not_object (r : Rewriter) (x : JSON) :
  (forall metric, x <> JObject metric) ->
  forall metric, processJSONData r x <> JObject metric.
Proof.
  intros Hx metric. destruct x as [| | | |l|m]; try done.
  by destruct (Hx m).
Qed.

Lemma relabelMetric_processed (r : Rewriter) (v : gmap string JSON) :
  Forall (fun rule => Forall (fun rule' => TargetLabel rule' <> SourceLabel rule)
                             (resultRules r)) (resultRules r) ->
  relabelMetric (resultRules r) (processJSONData r <$> relabelMetric (resultRules r) v)
  = processJSONData r <$> relabelMetric (resultRules r) v.
Proof.
  intros Hrules. set (w := processJSONData r <$> relabelMetric (resultRules r) v).
  assert (Hw : w !! "metric"
               = processJSONData r <$> relabelMetric (resultRules r) v !! "metric")
    by apply lookup_fmap.
  rewrite relabelMetric_at in Hw.
  unfold relabelMetric at 1.
  destruct (v !! "metric") as [x|] eqn:Hv; [|by rewrite Hw].
  assert (Hcase : (exists metric, x = JObject metric) \/ (forall metric, x <> JObject metric))
    by (destruct x; eauto; by right).
  destruct Hcase as [[metric ->]|Hx].
  - rewrite decide_True in Hw by done. cbn [fmap option_fmap option_map] in Hw.
    rewrite processJSONData_object in Hw. rewrite Hw.
    rewrite relabel_no_source; [by apply insert_id|].
    apply List.Forall_forall. intros rule Hin.
    rewrite lookup_fmap, relabelMetric_at.
    by rewrite (proj1 (List.Forall_forall _ _) (relabel_twice _ metric Hrules) rule Hin).
  - assert (Hw' : w !! "metric" = Some (processJSONData r x)).
    { rewrite Hw. destruct x as [| | | | |metric]; try done. by destruct (Hx metric). }
    rewrite Hw'. pose proof (processJSONData_not_object r x Hx) as Hp.
    destruct (processJSONData r x) as [| | | | |metric]; try done. by destruct (Hp metric).
Qed.

Lemma processJSONData_twice (r : Rewriter) (n : nat) :
  Forall (fun rule => Forall (fun rule' => TargetLabel rule' <> SourceLabel rule)
                             (resultRules r)) (resultRules r) ->
  forall data, depth data <= n ->
    processJSONData r (processJSONData r data) = processJSONData r data.
Proof.
  intros Hrules. induction n as [|n IH]; intros data Hd.
  - destruct data; cbn [depth] in Hd; try done; lia.
  - destruct data as [| | | |l|m]; try done.
    + rewrite !processJSONData_array. f_equal.
      rewrite <- list_fmap_compose. apply list_fmap_ext. intros i x Hx.
      apply IH. apply list_elem_of_lookup_2, depth_elem in Hx. lia.
    + rewrite !processJSONData_object, (relabelMetric_processed r m Hrules). f_equal.
      rewrite <- map_fmap_compose. apply map_fmap_ext. intros k x Hx.
      apply IH. apply relabelMetric_depth in Hx. lia.
Qed.

(** X24.  Rewriting twice is rewriting once.  When no target label of
    the result table is the source label of a rule of the table, a label
    set that was relabelled is left as it is by a second relabelling, and
    so is a whole tree by a second [processJSONData]. *)
Theorem processJSONData_idempotent (r : Rewriter) :
  Forall (fun rule => Forall (fun rule' => TargetLabel rule' <> SourceLabel rule)
                             (resultRules r)) (resultRules r) ->
  (forall metric : gmap string JSON,
      relabel (resultRules r) (relabel (resultRules r) metric)
      = relabel (resultRules r) metric)
  /\ (forall data : JSON,
        processJSONData r (processJSONData r data) = processJSONData r data).
Proof.
  intros Hrules. split.
  - intros metric. by apply relabel_no_source, relabel_twice.
  - intros data. by apply (processJSONData_twice r (depth data)).
Qed.

End Relabelling.

(** ** Concurrent rewrites without a reload *)

Section Readers.
Import GoStrings Config Rewriter Concurrent.

Lemma runSolo_no_event {A} (m m' : Machine) (p : Prog A) (a : A) :
  runSolo m p = Some (m', a, []) -> p = Ret a.
Proof.
  destruct p; cbn [runSolo]; try (intros [= _ ->]; done);
    repeat match goal with
           | |- context [if ?b then _ else _] => destruct b
           | |- context [match runSolo ?x ?y with _ => _ end] =>
               destruct (runSolo x y) as [[[? ?] ?]|]
           end; done.
Qed.

(** One access of a program that only reads the query table: the machine
    is left as it is and the rest of the program still only reads. *)
Lemma step_reader {A} (m : Machine) (p : Prog A) (a : A) (t : list Event) :
  runSolo m p = Some (m, a, t) ->
  Forall (fun e => e = EvLoadQueryRules) t ->
  match step m p with
  | Some (m', p', e) =>
      m' = m /\ exists t', t = e :: t' /\ runSolo m p' = Some (m, a, t')
  | None => p = Ret a /\ t = []
  end.
Proof.
  destruct p as [a'|k|k|k|k|k|k|rules k|rules k]; cbn [runSolo step].
  - by intros [= -> <-].
  - destruct (writer m); [done|].
    destruct (runSolo _ k) as [[[m' a'] t']|]; [|done].
    intros [= _ _ <-]. by inversion 1.
  - destruct (runSolo _ k) as [[[m' a'] t']|]; [|done].
    intros [= _ _ <-]. by inversion 1.
  - destruct (_ || _); [done|].
    destruct (runSolo _ k) as [[[m' a'] t']|]; [|done].
    intros [= _ _ <-]. by inversion 1.
  - destruct (runSolo _ k) as [[[m' a'] t']|]; [|done].
    intros [= _ _ <-]. by inversion 1.
  - destruct (runSolo m (k _)) as [[[m' a'] t']|] eqn:Hk; [|done].
    intros [= -> -> <-] _. split; [done|]. by exists t'.
  - destruct (runSolo m (k _)) as [[[m' a'] t']|]; [|done].
    intros [= _ _ <-]. by inversion 1.
  - destruct (runSolo _ k) as [[[m' a'] t']|]; [|done].
    intros [= _ _ <-]. by inversion 1.
  - destruct (runSolo _ k) as [[[m' a'] t']|]; [|done].
    intros [= _ _ <-]. by inversion 1.
Qed.

(** Two programs that only read, under any schedule: the machine is left
    as it is, each program still only reads, and each has as many reads
    left as it had, less the turns it was given. *)
Lemma runPair_readers {A B} (schedule : list bool) :
  forall (m : Machine) (p1 : Prog A) (p2 : Prog B) (a : A) (b : B) (t1 t2 : list Event),
    runSolo m p1 = Some (m, a, t1) -> Forall (fun e => e = EvLoadQueryRules) t1 ->
    runSolo m p2 = Some (m, b, t2) -> Forall (fun e => e = EvLoadQueryRules) t2 ->
    exists p1' p2' t1' t2',
      runPair schedule m p1 p2 = (m, p1', p2')
      /\ runSolo m p1' = Some (m, a, t1') /\ runSolo m p2' = Some (m, b, t2')
      /\ length t1' = length t1 - length (List.filter id schedule)
      /\ length t2' = length t2 - length (List.filter negb schedule).
Proof.
  induction schedule as [|turn schedule IH]; intros m p1 p2 a b t1 t2 H1 F1 H2 F2.
  - exists p1, p2, t1, t2. cbn [runPair List.filter length]. repeat split; try done; lia.
  - destruct turn; cbn [runPair List.filter id negb length].
    + pose proof (step_reader m p1 a t1 H1 F1) as Hstep.
      destruct (step m p1) as [[[m' p1'] e]|].
      * destruct Hstep as (-> & t1' & -> & H1').
        inversion F1 as [|? ? _ F1']; subst.
        destruct (IH m p1' p2 a b t1' t2 H1' F1' H2 F2) as (q1 & q2 & u1 & u2 & E & ? & ? & ? & ?).
        exists q1, q2, u1, u2. cbn [length]. repeat split; try done; lia.
      * destruct Hstep as [-> ->].
        destruct (IH m (Ret a) p2 a b [] t2 H1 F1 H2 F2) as (q1 & q2 & u1 & u2 & E & ? & ? & ? & ?).
        exists q1, q2, u1, u2. cbn [length] in *. repeat split; try done; lia.
    + pose proof (step_reader m p2 b t2 H2 F2) as Hstep.
      destruct (step m p2) as [[[m' p2'] e]|].
      * destruct Hstep as (-> & t2' & -> & H2').
        inversion F2 as [|? ? _ F2']; subst.
        destruct (IH m p1 p2' a b t1 t2' H1 F1 H2' F2') as (q1 & q2 & u1 & u2 & E & ? & ? & ? & ?).
        exists q1, q2, u1, u2. cbn [length]. repeat split; try done; lia.
      * destruct Hstep as [-> ->].
        destruct (IH m p1 (Ret b) a b t1 [] H1 F1 H2 F2) as (q1 & q2 & u1 & u2 & E & ? & ? & ? & ?).
        exists q1, q2, u1, u2. cbn [length] in *. repeat split; try done; lia.
Qed.

(** X25.  Two rewrites that run at the same time do not disturb each
    other.  Under every interleaving of their reads of the rule table,
    with no reload in between, the shared rewriter is left as it was and
    a rewrite that has returned has returned what [RewriteQuery] returns
    for its query; and each rewrite makes a fixed number of reads, so
    that under every schedule that gives each of them that many turns both
    have returned. *)
Theorem concurrent_rewrites_do_not_interfere (r : Rewriter) (query1 query2 : string) :
  (forall schedule m' p1' p2',
      runPair schedule (start r) (RewriteQueryP query1) (RewriteQueryP query2)
      = (m', p1', p2') ->
      m' = start r
      /\ (forall out, p1' = Ret out -> out = RewriteQuery r query1)
      /\ (forall out, p2' = Ret out -> out = RewriteQuery r query2))
  /\ exists n1 n2,
      forall schedule,
        n1 <= length (List.filter id schedule) ->
        n2 <= length (List.filter negb schedule) ->
        runPair schedule (start r) (RewriteQueryP query1) (RewriteQueryP query2)
        = (start r, Ret (RewriteQuery r query1), Ret (RewriteQuery r query2)).
Proof.
  destruct (RewriteQueryP_alone (start r) query1) as (t1 & H1 & F1).
  destruct (RewriteQueryP_alone (start r) query2) as (t2 & H2 & F2).
  cbn [shared start] in H1, H2.
  split.
  - intros schedule m' p1' p2' Hrun.
    destruct (runPair_readers schedule _ _ _ _ _ _ _ H1 F1 H2 F2)
      as (q1 & q2 & u1 & u2 & E & E1 & E2 & _ & _).
    rewrite E in Hrun. injection Hrun as <- <- <-.
    split; [done|]. split; intros out ->; cbn [runSolo] in *; congruence.
  - exists (length t1), (length t2). intros schedule Hn1 Hn2.
    destruct (runPair_readers schedule _ _ _ _ _ _ _ H1 F1 H2 F2)
      as (q1 & q2 & u1 & u2 & E & E1 & E2 & L1 & L2).
    destruct u1; [|cbn [length] in L1; lia]. destruct u2; [|cbn [length] in L2; lia].
    apply runSolo_no_event in E1, E2. by rewrite E, E1, E2.
Qed.

End Readers.

(** ** One table for both directions *)

Section BothDirections.
Import GoStrings Config Rewriter.

Lemma GetRules_all_both (c : Config) (d : Direction) :
  Forall (fun m => MDirection m = DirectionBoth) (Mappings c) ->
  GetRules c d = flat_map Rules (Mappings c).
Proof.
  intros Hboth. rewrite GetRules_resolved. f_equal.
  induction Hboth as [|m ms Hm _ IH]; [done|]. cbn [List.filter].
  by rewrite Hm, String.eqb_refl, orb_true_r, IH.
Qed.

(** X26.  The direction [both] does not invert a rule.  When every
    mapping has the direction [both], the query table and the result table
    of the rewriter are the same list, the rules of the mappings in order:
    a rule renames its source label to its target label in queries and in
    results alike, and a label set that holds no source label of the
    table, as the upstream returns for a rewritten query, is returned
    as it is. *)
Theorem both_direction_same_table (c : Config) :
  Forall (fun m => MDirection m = DirectionBoth) (Mappings c) ->
  queryRules (New c) = flat_map Rules (Mappings c)
  /\ resultRules (New c) = queryRules (New c)
  /\ (forall metric : gmap string JSON,
        Forall (fun rule => metric !! SourceLabel rule = None) (queryRules (New c)) ->
        relabel (resultRules (New c)) metric = metric).
Proof.
  intros Hboth. cbn [New queryRules resultRules]. unfold GetQueryRules, GetResultRules.
  rewrite !(GetRules_all_both c _ Hboth). split; [done|]. split; [done|].
  apply relabel_no_source.
Qed.

End BothDirections.

(** ** Responses without label sets *)

Section Reserialising.
Import GoStrings Config Rewriter Trees.
Context {codec : JSONCodec}.

(** X27.  A response is written again even when no label is renamed.
    With a result table that is not empty, a document that decodes to
    an object in which no object has a label set comes back as what
    [json.Marshal] writes for the decoded tree, not as the bytes that were
    received. *)
Theorem RewriteResultJSON_reserialises
    (r : Rewriter) (jsonData out : string) (data : JSON) :
  resultRules r <> [] ->
  Unmarshal jsonData = Some data ->
  noMetricObject data = true ->
  Marshal data = Some out ->
  RewriteResultJSON r jsonData = out.
Proof.
  intros Hr Hu Hdata Hm.
  apply (RewriteResultJSON_success r jsonData out data Hr Hu).
  unfold processJSONData. by rewrite processJSONDataN_noMetricObject.
Qed.

End Reserialising.

(** ** Compressed responses *)

Section Compressed.
Import GoStrings Config Rewriter Proxy.
Context {jsonCodec : JSONCodec} {gz : Gzip}.

(** X28.  Round trip of a compressed response.  Given that what the
    compressor writes decompresses to what it was given, when a gzip
    response that declares JSON is read, decompressed and compressed again
    without failure, the response that leaves still declares gzip, its
    body decompresses to the rewriting of the decompressed original, and
    its content length is the length of the compressed body. *)
Theorem rewriteResponse_gzip_round_trip
    (p : PrometheusProxy) (resp : Response) (body plain : string) :
  (forall x c, gzipWrite x = Some c -> gunzip c = Some x) ->
  isJSON resp = true -> isGzip resp = true ->
  ReadAll (RespBody resp) = Some body ->
  gunzip body = Some plain ->
  is_Some (gzipWrite (RewriteResultJSON (rewriter p) plain)) ->
  exists resp' compressed,
    rewriteResponse p resp = (resp', false)
    /\ RespBody resp' = bodyOf compressed
    /\ isGzip resp' = true
    /\ plainBody resp' compressed = Some (RewriteResultJSON (rewriter p) plain)
    /\ RespContentLength resp' = len compressed
    /\ HeaderGet (RespHeader resp') "Content-Length" = Itoa (len compressed).
Proof.
  intros Hlaw HJ HG HR Hplain [compressed Hc].
  assert (Hp : plainBody resp body = Some plain) by (unfold plainBody; by rewrite HG).
  eexists. exists compressed. split.
  { rewrite (rewriteResponse_rebuilt p resp body plain HJ HR Hp). cbn zeta.
    rewrite HG, Hc. reflexivity. }
  cbn [RespBody RespHeader RespContentLength default from_option id].
  assert (Hgz : isGzip {| RespHeader := HeaderSet (RespHeader resp) "Content-Length"
                                          (Itoa (len compressed));
                          RespBody := bodyOf compressed;
                          RespContentLength := len compressed |} = true).
  { unfold isGzip, HeaderGet, HeaderSet in *. cbn [RespHeader].
    by rewrite lookup_insert_ne. }
  split; [done|]. split; [exact Hgz|]. split.
  - unfold plainBody. rewrite Hgz. by apply Hlaw.
  - split; [done|]. apply HeaderGet_Set.
Qed.

End Compressed.

(** ** Directions that leave one side alone *)

Section OneDirection.
Import GoStrings Config Rewriter.
Context {codec : JSONCodec}.

Lemma GetRules_other_direction (c : Config) (d d' : Direction) :
  d' <> d -> d' <> DirectionBoth ->
  Forall (fun m => MDirection m = d') (Mappings c) ->
  GetRules c d = [].
Proof.
  intros Hd Hboth Hall. rewrite GetRules_resolved.
  induction Hall as [|m ms Hm _ IH]; [done|]. cbn [List.filter].
  apply String.eqb_neq in Hd, Hboth. by rewrite Hm, Hd, Hboth.
Qed.

(** X29.  The direction restricts a mapping to one side.  When every
    mapping has the direction [query], the result table is empty and
    every response body is returned byte for byte; when every mapping
    has the direction [result], the query table is empty and every query
    is returned as it is.  A configuration without any mapping, which
    [Validate] accepts when the target is not empty, does both. *)
Theorem one_direction_leaves_other_side (c : Config) :
  (Forall (fun m => MDirection m = DirectionQuery) (Mappings c) ->
   resultRules (New c) = []
   /\ forall jsonData, RewriteResultJSON (New c) jsonData = jsonData)
  /\ (Forall (fun m => MDirection m = DirectionResult) (Mappings c) ->
      queryRules (New c) = []
      /\ forall query, RewriteQuery (New c) query = query)
  /\ (Mappings c = [] -> TargetPrometheus c <> EmptyString ->
      Validate c = None
      /\ (forall query, RewriteQuery (New c) query = query)
      /\ (forall jsonData, RewriteResultJSON (New c) jsonData = jsonData)).
Proof.
  split; [|split].
  - intros Hall.
    assert (Hr : resultRules (New c) = [])
      by (by apply (GetRules_other_direction c DirectionResult DirectionQuery)).
    split; [done|]. intros jsonData. by apply RewriteResultJSON_no_rules.
  - intros Hall.
    assert (Hq : queryRules (New c) = [])
      by (by apply (GetRules_other_direction c DirectionQuery DirectionResult)).
    split; [done|]. intros query. unfold RewriteQuery. by rewrite Hq.
  - intros Hms Ht. split; [|split].
    + apply Validate_None. split; [done|]. rewrite Hms. constructor.
    + intros query. unfold RewriteQuery, New, GetQueryRules, GetRules. cbn [queryRules].
      by rewrite Hms.
    + intros jsonData. apply RewriteResultJSON_no_rules.
      unfold New, GetResultRules, GetRules. cbn [resultRules]. by rewrite Hms.
Qed.

End OneDirection.

(** ** Runs of the properties above on the samples *)

Section SampleRuns.
Import GoStrings Config Rewriter Proxy QuerySyntax Selectors Trees Samples.

Lemma exampleConfig_valid :
  TargetPrometheus exampleConfig <> EmptyString
  /\ Forall validMapping (Mappings exampleConfig).
Proof.
  split; [discriminate|].
  constructor; [|constructor; [|constructor]].
  - split; [by left|]. split; [discriminate|].
    repeat (constructor; [split; discriminate|]). constructor.
  - split; [right; by left|]. split; [discriminate|].
    repeat (constructor; [split; discriminate|]). constructor.
Defined.

(** X4 on the example of the README: it is accepted. *)
Lemma Validate_accepts_iff_witness :
  (TargetPrometheus exampleConfig <> EmptyString
   /\ Forall validMapping (Mappings exampleConfig))
  /\ Validate exampleConfig = None.
Proof.
  split; [exact exampleConfig_valid|].
  exact (proj2 (proj1 (Validate_accepts_iff exampleConfig)) exampleConfig_valid).
Defined.

Lemma queryMapping_valid : Forall validMapping [queryMapping].
Proof.
  constructor; [|constructor].
  split; [by left|]. split; [discriminate|].
  repeat (constructor; [split; discriminate|]). constructor.
Defined.

(** X5 on a configuration whose second mapping has the direction
    [sideways], and on one whose first mapping has a second rule without
    target label. *)
Lemma Validate_reports_first_error_witness :
  TargetPrometheus misdirected <> EmptyString
  /\ Mappings misdirected = ([queryMapping] ++ sidewaysMapping :: [])%list
  /\ Forall validMapping [queryMapping]
  /\ invalidDirection (MDirection sidewaysMapping) = true
  /\ Validate misdirected = Some "invalid direction in mapping 1: sideways"
  /\ Validate unlabelled = Some "target_label is required in mapping 0, rule 1".
Proof.
  assert (H1 : TargetPrometheus misdirected <> EmptyString) by discriminate.
  assert (H2 : Mappings misdirected = ([queryMapping] ++ sidewaysMapping :: [])%list)
    by reflexivity.
  assert (H3 : invalidDirection (MDirection sidewaysMapping) = true) by reflexivity.
  assert (H4 : TargetPrometheus unlabelled <> EmptyString) by discriminate.
  assert (H5 : Forall validRule [ruleHost])
    by (constructor; [split; discriminate | constructor]).
  assert (H6 : SourceLabel noTarget <> EmptyString) by discriminate.
  split; [exact H1|]. split; [exact H2|]. split; [exact queryMapping_valid|].
  split; [exact H3|]. split.
  - exact (proj1 (Validate_reports_first_error misdirected [queryMapping] []
                    sidewaysMapping H1 H2 queryMapping_valid) H3).
  - exact (proj2 (proj2 (proj2 (Validate_reports_first_error unlabelled [] []
                                  unlabelledMapping H4 eq_refl (List.Forall_nil _)))
                   [ruleHost] [] noTarget eq_refl eq_refl H5) H6 eq_refl).
Defined.

(** X7 on the one file of the sample file system. *)
Lemma LoadFromFile_rules_have_labels_witness :
  @LoadFromFile oneFile "configs/config.yaml" = inl exampleConfig
  /\ Validate exampleConfig = None
  /\ Forall validRule (queryRules (New exampleConfig))
  /\ Forall validRule (resultRules (New exampleConfig)).
Proof.
  assert (H : @LoadFromFile oneFile "configs/config.yaml" = inl exampleConfig)
    by (vm_compute; reflexivity).
  split; [exact H|].
  destruct (@LoadFromFile_rules_have_labels oneFile _ _ H) as (_ & Hv & _ & Hq & Hr).
  split; [exact Hv|]. split; [exact Hq | exact Hr].
Defined.

(** X8 on a query with an aggregation around the selector. *)
Lemma RewriteQuery_group_by_group_witness :
  noBrace "sum(up" = true
  /\ noBrace ("instance=" +:+ quoted "a") = true
  /\ RewriteQuery QueryTests.rw
       ("sum(up" +:+ "{" +:+ ("instance=" +:+ quoted "a") +:+ "}" +:+ ") by (job)")
     = "sum(up{host=" +:+ quoted "a" +:+ "}) by (job)".
Proof.
  assert (H1 : noBrace "sum(up" = true) by reflexivity.
  assert (H2 : noBrace ("instance=" +:+ quoted "a") = true) by reflexivity.
  split; [exact H1|]. split; [exact H2|].
  exact (RewriteQuery_group_by_group QueryTests.rw _ _ ") by (job)" H1 H2).
Defined.

(** X9 on a query with a selector on a label without rule, an empty
    selector, and braces that form no group. *)
Lemma RewriteQuery_unmatched_unchanged_witness :
  noMatch (queryRules QueryTests.rw) ("up{foo=" +:+ quoted "bar" +:+ "} or x{} }{") = true
  /\ RewriteQuery QueryTests.rw ("up{foo=" +:+ quoted "bar" +:+ "} or x{} }{")
     = "up{foo=" +:+ quoted "bar" +:+ "} or x{} }{".
Proof.
  assert (H : noMatch (queryRules QueryTests.rw)
                ("up{foo=" +:+ quoted "bar" +:+ "} or x{} }{") = true)
    by (vm_compute; reflexivity).
  split; [exact H|]. exact (RewriteQuery_unmatched_unchanged QueryTests.rw _ H).
Defined.

Lemma testRules_operatorFree :
  Forall (fun rule => operatorFree (SourceLabel rule) = true) (queryRules QueryTests.rw).
Proof. repeat constructor. Defined.

(** X10 on a selector of three matchers, the second on a label without
    rule. *)
Lemma RewriteQuery_renames_matchers_witness :
  Forall (fun rule => operatorFree (SourceLabel rule) = true) (queryRules QueryTests.rw)
  /\ forallb wellFormed [onInstance; onFoo; onJob] = true
  /\ noBrace "up" = true
  /\ RewriteQuery QueryTests.rw ("up" +:+ selector [onInstance; onFoo; onJob] +:+ " > 0")
     = "up{host=" +:+ quoted "a" +:+ ",foo!=" +:+ quoted "b"
       +:+ ",service=~" +:+ quoted "c.*" +:+ "} > 0".
Proof.
  assert (H1 : forallb wellFormed [onInstance; onFoo; onJob] = true) by reflexivity.
  assert (H2 : noBrace "up" = true) by reflexivity.
  split; [exact testRules_operatorFree|]. split; [exact H1|]. split; [exact H2|].
  exact (RewriteQuery_renames_matchers QueryTests.rw "up" " > 0" _
           testRules_operatorFree H1 H2).
Defined.

(** X11 on a matcher of [instance] after two spaces and before one, and
    on a matcher of [foo] in the same place. *)
Lemma RewriteQuery_surrounding_space_witness :
  wellFormed onInstance = true /\ spaces "  " = true /\ spaces " " = true
  /\ noBrace "up" = true
  /\ RewriteQuery QueryTests.rw
       ("up" +:+ "{" +:+ ("  " +:+ matcherText onInstance +:+ " ") +:+ "}" +:+ EmptyString)
     = "up{host=" +:+ quoted "a" +:+ " }"
  /\ RewriteQuery QueryTests.rw
       ("up" +:+ "{" +:+ ("  " +:+ matcherText onFoo +:+ " ") +:+ "}" +:+ EmptyString)
     = "up{  foo!=" +:+ quoted "b" +:+ " }".
Proof.
  assert (H1 : wellFormed onInstance = true) by reflexivity.
  assert (H1' : wellFormed onFoo = true) by reflexivity.
  assert (H2 : spaces "  " = true) by reflexivity.
  assert (H3 : spaces " " = true) by reflexivity.
  assert (H4 : noBrace "up" = true) by reflexivity.
  split; [exact H1|]. split; [exact H2|]. split; [exact H3|]. split; [exact H4|].
  split.
  - exact (RewriteQuery_surrounding_space QueryTests.rw "up" EmptyString "  " " " onInstance
             testRules_operatorFree H1 H2 H3 H4).
  - exact (RewriteQuery_surrounding_space QueryTests.rw "up" EmptyString "  " " " onFoo
             testRules_operatorFree H1' H2 H3 H4).
Defined.

(** X13 on a URL without [query] and [match[]]: the raw query is written
    again, the parameters in the order of their names. *)
Lemma RewriteQueryURL_reencodes_witness :
  (queryRules QueryTests.rw = []
   \/ (fst (@ParseQuery UrlRef.codec "start=1&end=2") !! "query" = None
       /\ fst (@ParseQuery UrlRef.codec "start=1&end=2") !! "match[]" = None))
  /\ @RewriteQueryURL UrlRef.codec QueryTests.rw
       (QueryTests.testURL "/api/v1/labels" "start=1&end=2")
     = QueryTests.testURL "/api/v1/labels" "end=2&start=1".
Proof.
  assert (H : queryRules QueryTests.rw = []
              \/ (fst (@ParseQuery UrlRef.codec "start=1&end=2") !! "query" = None
                  /\ fst (@ParseQuery UrlRef.codec "start=1&end=2") !! "match[]" = None))
    by (right; split; vm_compute; reflexivity).
  split; [exact H|].
  rewrite (@RewriteQueryURL_reencodes UrlRef.codec QueryTests.rw
             (QueryTests.testURL "/api/v1/labels" "start=1&end=2") H).
  vm_compute. reflexivity.
Defined.

(** X14 on a form whose second field does not parse: the request leaves
    with an empty body and the content length of the 17 bytes received. *)
Lemma rewriteRequest_form_error_witness :
  Method badForm = "POST"
  /\ HeaderGet (ReqHeader badForm) "Content-Type" = "application/x-www-form-urlencoded"
  /\ hasBody (ReqBody badForm) = true
  /\ ReadAll (ReqBody badForm) = Some "query=up&time=%zz"
  /\ snd (@ParseQuery UrlRef.codec "query=up&time=%zz") = true
  /\ ReqBody (@rewriteRequest UrlRef.codec PipelineTests.proxy badForm) = bodyOf EmptyString
  /\ ReqContentLength (@rewriteRequest UrlRef.codec PipelineTests.proxy badForm) = 17%Z.
Proof.
  assert (H1 : Method badForm = "POST") by reflexivity.
  assert (H2 : HeaderGet (ReqHeader badForm) "Content-Type"
               = "application/x-www-form-urlencoded") by reflexivity.
  assert (H3 : hasBody (ReqBody badForm) = true) by reflexivity.
  assert (H4 : ReadAll (ReqBody badForm) = Some "query=up&time=%zz") by reflexivity.
  assert (H5 : snd (@ParseQuery UrlRef.codec "query=up&time=%zz") = true)
    by (vm_compute; reflexivity).
  repeat (split; [assumption|]).
  destruct (@rewriteRequest_form_error UrlRef.codec PipelineTests.proxy badForm H1 H2 H3
              (or_intror (ex_intro _ _ (conj H4 H5)))) as [E1 E2].
  split; [exact (proj1 (E2 _ H4))|]. rewrite E1. reflexivity.
Defined.

(** X18 on the page of a gateway sent as JSON: it is passed on as it
    is. *)
Lemma rewriteResponse_plain_fail_open_witness :
  isJSON gatewayPage = true /\ isGzip gatewayPage = false
  /\ ReadAll (RespBody gatewayPage) = Some "<html>502 Bad Gateway</html>"
  /\ @Unmarshal JsonRef.codec "<html>502 Bad Gateway</html>" = None
  /\ RespBody (fst (@rewriteResponse JsonRef.codec (PipelineTests.framedGzip false)
                      PipelineTests.proxy gatewayPage))
     = bodyOf "<html>502 Bad Gateway</html>"
  /\ RespContentLength (fst (@rewriteResponse JsonRef.codec (PipelineTests.framedGzip false)
                               PipelineTests.proxy gatewayPage)) = 28%Z.
Proof.
  assert (H1 : isJSON gatewayPage = true) by reflexivity.
  assert (H2 : isGzip gatewayPage = false) by reflexivity.
  assert (H3 : ReadAll (RespBody gatewayPage) = Some "<html>502 Bad Gateway</html>")
    by reflexivity.
  assert (H4 : @Unmarshal JsonRef.codec "<html>502 Bad Gateway</html>" = None)
    by reflexivity.
  repeat (split; [assumption|]).
  rewrite (@rewriteResponse_plain_fail_open JsonRef.codec (PipelineTests.framedGzip false)
             PipelineTests.proxy gatewayPage _ H1 H2 H3 H4).
  split; reflexivity.
Defined.

(** X19 on the label [job] under the one rule from [instance] to
    [host]. *)
Lemma relabel_keeps_other_labels_witness :
  Forall (fun rule => "job" <> SourceLabel rule /\ "job" <> TargetLabel rule) [ruleHost]
  /\ relabel [ruleHost] twoLabels !! "job" = Some (JString "b").
Proof.
  assert (H : Forall (fun rule => "job" <> SourceLabel rule /\ "job" <> TargetLabel rule)
                [ruleHost])
    by (constructor; [split; discriminate | constructor]).
  split; [exact H|].
  rewrite (proj1 (relabel_keeps_other_labels [ruleHost] twoLabels "job") H). reflexivity.
Defined.

(** X20 on the two rules of the example. *)
Lemma relabel_removes_sources_witness :
  In ruleHost [ruleHost; ruleService]
  /\ Forall (fun rule' => TargetLabel rule' <> SourceLabel ruleHost) [ruleHost; ruleService]
  /\ relabel [ruleHost; ruleService] twoLabels !! "instance" = None.
Proof.
  assert (H1 : In ruleHost [ruleHost; ruleService]) by (by left).
  assert (H2 : Forall (fun rule' => TargetLabel rule' <> SourceLabel ruleHost)
                 [ruleHost; ruleService])
    by (repeat (constructor; [discriminate|]); constructor).
  split; [exact H1|]. split; [exact H2|].
  exact (relabel_removes_sources [ruleHost; ruleService] twoLabels ruleHost H1 H2).
Defined.

Lemma testRules_disjoint :
  Forall (fun rule => Forall (fun rule' => TargetLabel rule' <> SourceLabel rule)
                             (resultRules ResultTests.rw)) (resultRules ResultTests.rw).
Proof.
  repeat (constructor; [repeat (constructor; [discriminate|]); constructor|]). constructor.
Defined.

(** X24 on the rewriter and the document of the tests. *)
Lemma processJSONData_idempotent_witness :
  Forall (fun rule => Forall (fun rule' => TargetLabel rule' <> SourceLabel rule)
                             (resultRules ResultTests.rw)) (resultRules ResultTests.rw)
  /\ processJSONData ResultTests.rw
       (processJSONData ResultTests.rw (ResultTests.metricTree "instance" "x"))
     = processJSONData ResultTests.rw (ResultTests.metricTree "instance" "x").
Proof.
  split; [exact testRules_disjoint|].
  exact (proj2 (processJSONData_idempotent ResultTests.rw testRules_disjoint) _).
Defined.

(** X23 on the answer to a request for label names, which has no label
    set. *)
Lemma processJSONData_identity_witness :
  (resultRules ResultTests.rw = [] \/ noMetricObject labelNames = true)
  /\ processJSONData ResultTests.rw labelNames = labelNames.
Proof.
  assert (H : resultRules ResultTests.rw = [] \/ noMetricObject labelNames = true)
    by (right; vm_compute; reflexivity).
  split; [exact H|]. exact (processJSONData_identity ResultTests.rw labelNames H).
Defined.

(** X26 on the proxy whose one mapping has the direction [both]. *)
Lemma both_direction_same_table_witness :
  Forall (fun m => MDirection m = DirectionBoth) (Mappings PipelineTests.bothConfig)
  /\ resultRules (New PipelineTests.bothConfig) = queryRules (New PipelineTests.bothConfig)
  /\ queryRules (New PipelineTests.bothConfig)
     = [ {| SourceLabel := "instance"; TargetLabel := "host" |} ].
Proof.
  assert (H : Forall (fun m => MDirection m = DirectionBoth)
                (Mappings PipelineTests.bothConfig))
    by (constructor; [reflexivity | constructor]).
  split; [exact H|].
  destruct (both_direction_same_table PipelineTests.bothConfig H) as (E1 & E2 & _).
  split; [exact E2 | exact E1].
Defined.

(** X27 on a document with white space and with its fields out of
    order: it comes back compact, the fields in the order of their
    names. *)
Lemma RewriteResultJSON_reserialises_witness :
  resultRules ResultTests.rw <> []
  /\ @Unmarshal JsonRef.codec
       ("{ " +:+ quoted "status" +:+ " : " +:+ quoted "success" +:+ " , "
        +:+ quoted "data" +:+ " : [ ] }")
     = Some (JObject {[ "status" := JString "success"; "data" := JArray [] ]})
  /\ noMetricObject (JObject {[ "status" := JString "success"; "data" := JArray [] ]}) = true
  /\ @RewriteResultJSON JsonRef.codec ResultTests.rw
       ("{ " +:+ quoted "status" +:+ " : " +:+ quoted "success" +:+ " , "
        +:+ quoted "data" +:+ " : [ ] }")
     = "{" +:+ quoted "data" +:+ ":[]," +:+ quoted "status" +:+ ":" +:+ quoted "success" +:+ "}".
Proof.
  assert (H1 : resultRules ResultTests.rw <> []) by discriminate.
  assert (H2 : @Unmarshal JsonRef.codec
                 ("{ " +:+ quoted "status" +:+ " : " +:+ quoted "success" +:+ " , "
                  +:+ quoted "data" +:+ " : [ ] }")
               = Some (JObject {[ "status" := JString "success"; "data" := JArray [] ]}))
    by (vm_compute; reflexivity).
  assert (H3 : noMetricObject (JObject {[ "status" := JString "success";
                                          "data" := JArray [] ]}) = true)
    by (vm_compute; reflexivity).
  assert (H4 : @Marshal JsonRef.codec
                 (JObject {[ "status" := JString "success"; "data" := JArray [] ]})
               = Some ("{" +:+ quoted "data" +:+ ":[]," +:+ quoted "status" +:+ ":"
                       +:+ quoted "success" +:+ "}"))
    by (vm_compute; reflexivity).
  split; [exact H1|]. split; [exact H2|]. split; [exact H3|].
  exact (@RewriteResultJSON_reserialises JsonRef.codec ResultTests.rw _ _ _ H1 H2 H3 H4).
Defined.

Lemma framedGzip_reads_what_it_writes (x c : string) :
  @gzipWrite (PipelineTests.framedGzip false) x = Some c ->
  @gunzip (PipelineTests.framedGzip false) c = Some x.
Proof. intros [= <-]. reflexivity. Defined.

(** X28 on the gzip response of the pipeline samples, with the framing
    stand-in for the compressor. *)
Lemma rewriteResponse_gzip_round_trip_witness :
  isJSON PipelineTests.gzipResponse = true
  /\ isGzip PipelineTests.gzipResponse = true
  /\ @gunzip (PipelineTests.framedGzip false)
       (PipelineTests.gzipMagic +:+ ResultTests.metricDoc "instance" "x")
     = Some (ResultTests.metricDoc "instance" "x")
  /\ exists resp' compressed,
      @rewriteResponse JsonRef.codec (PipelineTests.framedGzip false) PipelineTests.proxy
        PipelineTests.gzipResponse = (resp', false)
      /\ RespBody resp' = bodyOf compressed
      /\ @plainBody (PipelineTests.framedGzip false) resp' compressed
         = Some (ResultTests.metricDoc "host" "x").
Proof.
  assert (H1 : isJSON PipelineTests.gzipResponse = true) by reflexivity.
  assert (H2 : isGzip PipelineTests.gzipResponse = true) by reflexivity.
  assert (H3 : ReadAll (RespBody PipelineTests.gzipResponse)
               = Some (PipelineTests.gzipMagic +:+ ResultTests.metricDoc "instance" "x"))
    by reflexivity.
  assert (H4 : @gunzip (PipelineTests.framedGzip false)
                 (PipelineTests.gzipMagic +:+ ResultTests.metricDoc "instance" "x")
               = Some (ResultTests.metricDoc "instance" "x")) by reflexivity.
  assert (H5 : is_Some (@gzipWrite (PipelineTests.framedGzip false)
                          (@RewriteResultJSON JsonRef.codec (rewriter PipelineTests.proxy)
                             (ResultTests.metricDoc "instance" "x"))))
    by (eexists; reflexivity).
  split; [exact H1|]. split; [exact H2|]. split; [exact H4|].
  destruct (@rewriteResponse_gzip_round_trip JsonRef.codec (PipelineTests.framedGzip false)
              PipelineTests.proxy PipelineTests.gzipResponse _ _
              framedGzip_reads_what_it_writes H1 H2 H3 H4 H5)
    as (resp' & compressed & E1 & E2 & _ & E4 & _).
  exists resp', compressed. split; [exact E1|]. split; [exact E2|].
  rewrite E4. vm_compute. reflexivity.
Defined.

(** X29 on the rewriter of the query tests, whose one mapping has the
    direction [query]. *)
Lemma one_direction_leaves_other_side_witness :
  Forall (fun m => MDirection m = DirectionQuery) (Mappings QueryTests.testConfig)
  /\ resultRules (New QueryTests.testConfig) = []
  /\ @RewriteResultJSON JsonRef.codec (New QueryTests.testConfig)
       (ResultTests.metricDoc "instance" "x")
     = ResultTests.metricDoc "instance" "x".
Proof.
  assert (H : Forall (fun m => MDirection m = DirectionQuery) (Mappings QueryTests.testConfig))
    by (constructor; [reflexivity | constructor]).
  split; [exact H|].
  destruct (proj1 (@one_direction_leaves_other_side JsonRef.codec QueryTests.testConfig) H)
    as [E1 E2].
  split; [exact E1 | exact (E2 _)].
Defined.

End SampleRuns.
